(** * forensic_locator: the evidence pipeline, the imagery client and the
      credential proxy, embedded from the TypeScript / JavaScript sources

    - [Js]            : the fragment of JavaScript the code relies on (strings
                        of UTF-16 code units, dynamically typed values,
                        truthiness, property reads, string conversion).
    - [Json]          : a recursive-descent reader for the JSON grammar, used
                        to run the model on concrete texts.
    - [GeminiService] : src/unnamed/part_002 (services/geminiService.ts).
    - [UseVerification] : src/hooks/useVerification.ts.
    - [Proxy]         : the Express server listed after the server README.
    - [App]           : src/App.tsx, the Analyze button and its handler.
    - [ReportView]    : src/unnamed/part_001 (components/VerificationReport.tsx),
                        what the component shows and when rendering it
                        throws.
    - [Thumbnail]     : the thumbnail route of the same server.

    Everything outside the repository (the completion service, the network,
    the clock, the engine's number and date routines) is a field of a
    [Host], [Intl] or [World] record, so every statement below holds
    whatever these collaborators answer.  The one rule of React the report
    view depends on, which values may stand between braces, is written out
    in [ReportView]. *)

From Stdlib Require Import List String Ascii Bool ZArith NArith Lia.
From Stdlib Require Import DecimalString.
Import ListNotations.

Set Implicit Arguments.
Set Warnings "-register-all".

(* ================================================================== *)
(** * The JavaScript fragment                                          *)
(* ================================================================== *)

Module Js.

(** A JavaScript string is a sequence of UTF-16 code units. *)
Definition jsstr := list N.

(** An ASCII literal, one code unit per character. *)
Definition js (s : string) : jsstr :=
  map N_of_ascii (list_ascii_of_string s).
Arguments js s%_string.

(** A code point outside the ASCII range, as its UTF-16 encoding. *)
Definition cp (c : N) : jsstr :=
  if (c <? 65536)%N then [c]
  else [(55296 + (c - 65536) / 1024)%N; (56320 + (c - 65536) mod 1024)%N].

Fixpoint str_eqb (a b : jsstr) : bool :=
  match a, b with
  | [], [] => true
  | x :: a', y :: b' => (x =? y)%N && str_eqb a' b'
  | _, _ => false
  end.

Fixpoint startsWith (p s : jsstr) : bool :=
  match p, s with
  | [], _ => true
  | x :: p', y :: s' => (x =? y)%N && startsWith p' s'
  | _ :: _, [] => false
  end.

(** [s.replace(/```json|```/g, '')]: a left-to-right scan; at a position
    where a fence starts the longer alternative is tried first, the match
    is dropped and the scan resumes after it.  [skip] counts the code units
    of the current match still to drop. *)
Definition fence : jsstr := js "```".
Definition fence_json : jsstr := js "```json".

Fixpoint replaceFences_from (skip : nat) (s : jsstr) : jsstr :=
  match s with
  | [] => []
  | c :: rest =>
      match skip with
      | S k => replaceFences_from k rest
      | O =>
          if startsWith fence_json s then replaceFences_from 6 rest
          else if startsWith fence s then replaceFences_from 2 rest
          else c :: replaceFences_from 0 rest
      end
  end.

Definition replaceFences (s : jsstr) : jsstr := replaceFences_from 0 s.

(** White space and line terminators, as [String.prototype.trim] sees them. *)
Definition isWhiteSpace (c : N) : bool :=
  existsb (N.eqb c)
    [9; 10; 11; 12; 13; 32; 160; 5760; 8232; 8233; 8239; 8287; 12288; 65279]%N
  || ((8192 <=? c)%N && (c <=? 8202)%N).

Fixpoint trimStart (s : jsstr) : jsstr :=
  match s with
  | c :: rest => if isWhiteSpace c then trimStart rest else s
  | [] => []
  end.

Definition trimEnd (s : jsstr) : jsstr := rev (trimStart (rev s)).

Definition trim (s : jsstr) : jsstr := trimEnd (trimStart s).

(** [s.split(c)[0]] for a one-character separator: what precedes its
    first occurrence, the whole string when there is none. *)
Fixpoint split_head (sep : N) (s : jsstr) : jsstr :=
  match s with
  | [] => []
  | c :: rest => if (c =? sep)%N then [] else c :: split_head sep rest
  end.

(** [s.split(c)[1]]: the second piece, [None] (undefined) without one. *)
Fixpoint split_second (sep : N) (s : jsstr) : option jsstr :=
  match s with
  | [] => None
  | c :: rest => if (c =? sep)%N then Some (split_head sep rest)
                 else split_second sep rest
  end.

(** [s.substring(0, n)]. *)
Definition substring0 (n : nat) (s : jsstr) : jsstr := firstn n s.

Definition nat_to_jsstr (n : nat) : jsstr :=
  js (NilEmpty.string_of_uint (Nat.to_uint n)).

(** ** Numbers

    A finite number is kept as the decimal [m * 10^e] it was written as
    and stands for the double nearest to it. *)
Inductive number :=
| Decimal (m e : Z)
| NaN
| Infinity (negative : bool).

Definition num (n : Z) : number := Decimal n 0.

(** The decimals that round to zero: those of magnitude at most 2^-1075,
    half of the least positive double. *)
Definition rounds_to_zero (m e : Z) : bool :=
  if (m =? 0)%Z then true
  else if (0 <=? e)%Z then false
  else (Z.abs m * 2 ^ 1075 <=? 10 ^ (- e))%Z.

Definition number_truthy (n : number) : bool :=
  match n with
  | Decimal m e => negb (rounds_to_zero m e)
  | NaN => false
  | Infinity _ => true
  end.

(** [n > 0]. *)
Definition number_positive (n : number) : bool :=
  match n with
  | Decimal m e => (0 <? m)%Z && negb (rounds_to_zero m e)
  | NaN => false
  | Infinity negative => negb negative
  end.

(** ** Values *)
Inductive JSValue :=
| JUndefined
| JNull
| JBool (b : bool)
| JNum (n : number)
| JStr (s : jsstr)
| JArr (items : list JSValue)
| JObj (props : list (jsstr * JSValue)).

Definition props := list (jsstr * JSValue).

(** Own data property [k]; of several bindings the last one written wins. *)
Fixpoint lookup (k : jsstr) (ps : props) : option JSValue :=
  match ps with
  | [] => None
  | (k', v) :: rest =>
      match lookup k rest with
      | Some v' => Some v'
      | None => if str_eqb k k' then Some v else None
      end
  end.

Definition fromOption (o : option jsstr) : JSValue :=
  match o with Some s => JStr s | None => JUndefined end.

(** ToBoolean. *)
Definition truthy (v : JSValue) : bool :=
  match v with
  | JUndefined | JNull => false
  | JBool b => b
  | JNum n => number_truthy n
  | JStr s => match s with [] => false | _ => true end
  | JArr _ | JObj _ => true
  end.

(** [a || b] and [a && b] on values. *)
Definition or_else (a b : JSValue) : JSValue := if truthy a then a else b.
Definition and_then (a b : JSValue) : JSValue := if truthy a then b else a.

(** ** Thrown values *)
Record exn := {
  instanceofError : bool;
  err_message : jsstr;
  err_code : option jsstr;
  err_causeCode : option jsstr
}.

(** [new Error(msg)]. *)
Definition Error (msg : jsstr) : exn :=
  {| instanceofError := true; err_message := msg; err_code := None;
     err_causeCode := None |}.

(** The engine's TypeError; its wording is the engine's. *)
Definition TypeError (msg : jsstr) : exn := Error msg.
Definition RangeError (msg : jsstr) : exn := Error msg.

Inductive outcome (A : Type) :=
| Ok (a : A)
| Throw (e : exn).
Arguments Ok {A} a.
Arguments Throw {A} e.

(** ** Computations: a state [S] threaded through code that may throw. *)
Definition M (S A : Type) := S -> outcome A * S.

Definition ret {S A} (a : A) : M S A := fun s => (Ok a, s).

Definition bind {S A B} (m : M S A) (f : A -> M S B) : M S B :=
  fun s => match m s with
           | (Ok a, s') => f a s'
           | (Throw e, s') => (Throw e, s')
           end.

Definition throw {S A} (e : exn) : M S A := fun s => (Throw e, s).

Definition lift {S A} (o : outcome A) : M S A := fun s => (o, s).

Definition modify {S} (f : S -> S) : M S unit := fun s => (Ok tt, f s).

(** [try { body } catch (e) { handler e }]. *)
Definition try_catch {S A} (body : M S A) (handler : exn -> M S A) : M S A :=
  fun s => match body s with
           | (Ok a, s') => (Ok a, s')
           | (Throw e, s') => handler e s'
           end.

(** [try { body } finally { final }], with a [final] that completes
    normally. *)
Definition try_finally {S A} (body : M S A) (final : M S unit) : M S A :=
  fun s => match body s with
           | (r, s') =>
               match final s' with
               | (Ok _, s'') => (r, s'')
               | (Throw e, s'') => (Throw e, s'')
               end
           end.

Fixpoint forEach {S A} (f : A -> M S unit) (l : list A) : M S unit :=
  match l with
  | [] => ret tt
  | x :: rest => bind (f x) (fun _ => forEach f rest)
  end.

Fixpoint mapM {S A B} (f : A -> M S B) (l : list A) : M S (list B) :=
  match l with
  | [] => ret []
  | x :: rest => bind (f x) (fun y => bind (mapM f rest) (fun ys => ret (y :: ys)))
  end.

Declare Scope js_scope.
Delimit Scope js_scope with js.
Notation "x <- m ;; k" := (bind m (fun x => k))
  (at level 61, m at next level, right associativity) : js_scope.
Notation "' p <- m ;; k" := (bind m (fun x => match x with p => k end))
  (at level 61, p pattern, m at next level, right associativity) : js_scope.
Notation "m ;; k" := (bind m (fun _ => k))
  (at level 61, right associativity) : js_scope.

(** What [fetch] resolves with. *)
Record HttpResponse := {
  ok : bool;
  status : Z;
  statusText : jsstr;
  json : outcome JSValue
}.

Definition nonempty (s : jsstr) : bool :=
  match s with [] => false | _ :: _ => true end.

(** Truthiness of a [string | null] or [string | undefined]. *)
Definition truthyStr (o : option jsstr) : bool :=
  match o with Some s => nonempty s | None => false end.

(** ** The engine's routines that are taken as given *)
Record Host := {
  (** [JSON.parse]; [None] when it throws a SyntaxError. *)
  JSON_parse : jsstr -> option JSValue;
  (** [JSON.stringify] of a defined value. *)
  JSON_stringify : JSValue -> jsstr;
  (** Number::toString, radix 10. *)
  Number_toString : number -> jsstr;
  (** StringToNumber. *)
  String_toNumber : jsstr -> number;
  parseFloat : jsstr -> number;
  (** [Date.parse]: milliseconds since the epoch, [None] for NaN. *)
  Date_parse : jsstr -> option Z;
  (** The time value of [new Date(n)] for a number [n]. *)
  Number_toTime : number -> option Z;
  (** [toISOString] of a valid time value. *)
  Date_toISOString : Z -> jsstr;
  (** [d.setDate(d.getDate() - 30)], in the local time zone. *)
  Date_minus30Days : Z -> option Z;
  (** [toLocaleDateString]; the text for an invalid date included. *)
  Date_toLocaleDateString : option Z -> jsstr
}.

Section Conversions.
Variable h : Host.

Definition hasOwn (k : jsstr) (ps : props) : bool :=
  match lookup k ps with Some _ => true | None => false end.

(** ToString.  A value read from JSON is never callable, so an object
    with an own [toString] entry has no usable conversion and the engine
    throws; any other plain object prints through [Object.prototype]. *)
Fixpoint ToString (v : JSValue) : outcome jsstr :=
  match v with
  | JUndefined => Ok (js "undefined")
  | JNull => Ok (js "null")
  | JBool b => Ok (if b then js "true" else js "false")
  | JNum n => Ok (Number_toString h n)
  | JStr s => Ok s
  | JArr items =>
      (fix join (l : list JSValue) : outcome jsstr :=
         match l with
         | [] => Ok []
         | x :: rest =>
             let piece := match x with
                          | JUndefined | JNull => Ok []
                          | _ => ToString x
                          end in
             match piece with
             | Throw e => Throw e
             | Ok p =>
                 match rest with
                 | [] => Ok p
                 | _ :: _ =>
                     match join rest with
                     | Ok q => Ok (p ++ js "," ++ q)
                     | Throw e => Throw e
                     end
                 end
             end
         end) items
  | JObj ps =>
      if hasOwn (js "toString") ps
      then Throw (TypeError (js "Cannot convert object to primitive value"))
      else Ok (js "[object Object]")
  end.

(** ToNumber. *)
Definition ToNumber (v : JSValue) : outcome number :=
  match v with
  | JUndefined => Ok NaN
  | JNull => Ok (num 0)
  | JBool b => Ok (num (if b then 1 else 0))
  | JNum n => Ok n
  | JStr s => Ok (String_toNumber h s)
  | JArr _ | JObj _ =>
      match ToString v with
      | Ok s => Ok (String_toNumber h s)
      | Throw e => Throw e
      end
  end.

(** [v.k] for the data properties this code reads.  Strings and arrays
    answer [length]; no other inherited property is read as a value. *)
Definition Get (v : JSValue) (k : jsstr) : outcome JSValue :=
  match v with
  | JUndefined =>
      Throw (TypeError (js "Cannot read properties of undefined (reading '" ++ k ++ js "')"))
  | JNull =>
      Throw (TypeError (js "Cannot read properties of null (reading '" ++ k ++ js "')"))
  | JObj ps => Ok (match lookup k ps with Some x => x | None => JUndefined end)
  | JStr s =>
      Ok (if str_eqb k (js "length") then JNum (num (Z.of_nat (List.length s))) else JUndefined)
  | JArr items =>
      Ok (if str_eqb k (js "length") then JNum (num (Z.of_nat (List.length items))) else JUndefined)
  | JBool _ | JNum _ => Ok JUndefined
  end.

(** [v?.k]. *)
Definition GetOpt (v : JSValue) (k : jsstr) : outcome JSValue :=
  match v with
  | JUndefined | JNull => Ok JUndefined
  | _ => Get v k
  end.

(** [v.substring(0, n)]: only a string has the method.  [callee] is the
    text of the call's target, which the engine names when it is not a
    function. *)
Definition call_substring0 (callee : jsstr) (v : JSValue) (n : nat) : outcome jsstr :=
  match v with
  | JStr s => Ok (substring0 n s)
  | JUndefined =>
      Throw (TypeError (js "Cannot read properties of undefined (reading 'substring')"))
  | JNull =>
      Throw (TypeError (js "Cannot read properties of null (reading 'substring')"))
  | _ => Throw (TypeError (callee ++ js " is not a function"))
  end.

(** [new Date(v)], as a time value. *)
Definition newDate (v : JSValue) : outcome (option Z) :=
  match v with
  | JUndefined => Ok None
  | JNull => Ok (Some 0%Z)
  | JBool b => Ok (Some (if b then 1 else 0)%Z)
  | JNum n => Ok (Number_toTime h n)
  | JStr s => Ok (Date_parse h s)
  | JArr _ | JObj _ =>
      match ToString v with
      | Ok s => Ok (Date_parse h s)
      | Throw e => Throw e
      end
  end.

(** [d.toISOString()]. *)
Definition toISOString (d : option Z) : outcome jsstr :=
  match d with
  | Some t => Ok (Date_toISOString h t)
  | None => Throw (RangeError (js "Invalid time value"))
  end.

(** TimeClip. *)
Definition timeClip (t : Z) : option Z :=
  if (Z.abs t <=? 8640000000000000)%Z then Some t else None.

(** [{ ...v }]: the own enumerable properties of [v]. *)
Definition indexed (l : list JSValue) : props :=
  map (fun iv => (nat_to_jsstr (fst iv), snd iv)) (combine (seq 0 (List.length l)) l).

Definition spread (v : JSValue) : props :=
  match v with
  | JObj ps => ps
  | JArr items => indexed items
  | JStr s => indexed (map (fun c => JStr [c]) s)
  | _ => []
  end.

End Conversions.

(** [s.includes(p)]. *)
Fixpoint includes (p s : jsstr) : bool :=
  startsWith p s || match s with [] => false | _ :: r => includes p r end.

(** Nothing but white space. *)
Definition blank (s : jsstr) : bool := forallb isWhiteSpace s.

End Js.

(* ================================================================== *)
(** * A reader for the JSON grammar                                    *)
(* ================================================================== *)

Module Json.
Import Js.
Local Open Scope N_scope.

Definition isJsonSpace (c : N) : bool :=
  (c =? 32) || (c =? 9) || (c =? 10) || (c =? 13).

Fixpoint skip_ws (s : jsstr) : jsstr :=
  match s with
  | c :: rest => if isJsonSpace c then skip_ws rest else s
  | [] => []
  end.

Definition digit (c : N) : option Z :=
  if (48 <=? c) && (c <=? 57) then Some (Z.of_N (c - 48)) else None.

Definition hexdigit (c : N) : option N :=
  if (48 <=? c) && (c <=? 57) then Some (c - 48)
  else if (97 <=? c) && (c <=? 102) then Some (c - 87)
  else if (65 <=? c) && (c <=? 70) then Some (c - 55)
  else None.

(** A maximal run of digits: its value on top of [acc], how many were
    read on top of [n], and what follows. *)
Fixpoint digits (acc : Z) (n : nat) (s : jsstr) : Z * nat * jsstr :=
  match s with
  | c :: rest =>
      match digit c with
      | Some d => digits (acc * 10 + d)%Z (S n) rest
      | None => (acc, n, s)
      end
  | [] => (acc, n, s)
  end.

Definition parse_number (s : jsstr) : option (number * jsstr) :=
  let '(negative, s1) :=
    match s with
    | c :: r => if c =? 45 then (true, r) else (false, s)
    | [] => (false, s)
    end in
  match s1 with
  | [] => None
  | c :: r =>
      match digit c with
      | None => None
      | Some d =>
          let '(ip, _, s2) := if c =? 48 then (0%Z, 1%nat, r) else digits d 1 r in
          let fraction :=
            match s2 with
            | c2 :: r2 =>
                if c2 =? 46 then
                  let '(m, n, s3) := digits ip 0 r2 in
                  match n with O => None | S _ => Some (m, n, s3) end
                else Some (ip, O, s2)
            | [] => Some (ip, O, s2)
            end in
          match fraction with
          | None => None
          | Some (m, nfrac, s3) =>
              let exponent :=
                match s3 with
                | c3 :: r3 =>
                    if (c3 =? 101) || (c3 =? 69) then
                      let '(eneg, r4) :=
                        match r3 with
                        | c4 :: r' =>
                            if c4 =? 43 then (false, r')
                            else if c4 =? 45 then (true, r')
                            else (false, r3)
                        | [] => (false, r3)
                        end in
                      let '(ev, n, s4) := digits 0 0 r4 in
                      match n with
                      | O => None
                      | S _ => Some (if eneg then (- ev)%Z else ev, s4)
                      end
                    else Some (0%Z, s3)
                | [] => Some (0%Z, s3)
                end in
              match exponent with
              | None => None
              | Some (ev, s4) =>
                  Some (Decimal (if negative then (- m)%Z else m)
                                (ev - Z.of_nat nfrac)%Z, s4)
              end
          end
      end
  end.

Definition simple_escape (c : N) : option N :=
  if c =? 34 then Some 34 else if c =? 92 then Some 92
  else if c =? 47 then Some 47 else if c =? 98 then Some 8
  else if c =? 102 then Some 12 else if c =? 110 then Some 10
  else if c =? 114 then Some 13 else if c =? 116 then Some 9
  else None.

(** The characters of a string after its opening quote, [acc] holding
    those already read, last first. *)
Fixpoint parse_string (s : jsstr) (acc : jsstr) : option (jsstr * jsstr) :=
  match s with
  | [] => None
  | c :: rest =>
      if c =? 34 then Some (rev acc, rest)
      else if c =? 92 then
        match rest with
        | [] => None
        | e :: rest' =>
            if e =? 117 then
              match rest' with
              | a :: b :: c' :: d :: rest'' =>
                  match hexdigit a, hexdigit b, hexdigit c', hexdigit d with
                  | Some x3, Some x2, Some x1, Some x0 =>
                      parse_string rest'' (((x3 * 16 + x2) * 16 + x1) * 16 + x0 :: acc)
                  | _, _, _, _ => None
                  end
              | _ => None
              end
            else
              match simple_escape e with
              | Some x => parse_string rest' (x :: acc)
              | None => None
              end
        end
      else if c <? 32 then None
      else parse_string rest (c :: acc)
  end.

(** A member read after those of [acc] (last first): a name met before
    keeps its place and takes the new value. *)
Fixpoint update (k : jsstr) (v : JSValue) (acc : props) : props :=
  match acc with
  | [] => []
  | (k', v') :: rest =>
      if str_eqb k k' then (k', v) :: rest else (k', v') :: update k v rest
  end.

Definition define (k : jsstr) (v : JSValue) (acc : props) : props :=
  if hasOwn k acc then update k v acc else (k, v) :: acc.

Fixpoint parse_value (fuel : nat) (s : jsstr) : option (JSValue * jsstr) :=
  match fuel with
  | O => None
  | S f =>
      match skip_ws s with
      | [] => None
      | c :: rest =>
          if c =? 34 then
            match parse_string rest [] with
            | Some (t, r) => Some (JStr t, r)
            | None => None
            end
          else if c =? 123 then
            match skip_ws rest with
            | c' :: rest' =>
                if c' =? 125 then Some (JObj [], rest') else parse_members f rest []
            | [] => None
            end
          else if c =? 91 then
            match skip_ws rest with
            | c' :: rest' =>
                if c' =? 93 then Some (JArr [], rest') else parse_elements f rest []
            | [] => None
            end
          else if startsWith (js "true") (c :: rest) then Some (JBool true, skipn 3 rest)
          else if startsWith (js "false") (c :: rest) then Some (JBool false, skipn 4 rest)
          else if startsWith (js "null") (c :: rest) then Some (JNull, skipn 3 rest)
          else
            match parse_number (c :: rest) with
            | Some (n, r) => Some (JNum n, r)
            | None => None
            end
      end
  end
with parse_elements (fuel : nat) (s : jsstr) (acc : list JSValue)
  : option (JSValue * jsstr) :=
  match fuel with
  | O => None
  | S f =>
      match parse_value f s with
      | None => None
      | Some (v, r) =>
          match skip_ws r with
          | c :: r' =>
              if c =? 44 then parse_elements f r' (v :: acc)
              else if c =? 93 then Some (JArr (rev (v :: acc)), r')
              else None
          | [] => None
          end
      end
  end
with parse_members (fuel : nat) (s : jsstr) (acc : props)
  : option (JSValue * jsstr) :=
  match fuel with
  | O => None
  | S f =>
      match skip_ws s with
      | c :: r =>
          if c =? 34 then
            match parse_string r [] with
            | Some (k, r1) =>
                match skip_ws r1 with
                | c1 :: r2 =>
                    if c1 =? 58 then
                      match parse_value f r2 with
                      | Some (v, r3) =>
                          match skip_ws r3 with
                          | c3 :: r4 =>
                              if c3 =? 44 then parse_members f r4 (define k v acc)
                              else if c3 =? 125 then Some (JObj (rev (define k v acc)), r4)
                              else None
                          | [] => None
                          end
                      | None => None
                      end
                    else None
                | [] => None
                end
            | None => None
            end
          else None
      | [] => None
      end
  end.

(** One value and nothing but white space around it.  Every call either
    consumes input or follows one that did, so twice the length is fuel
    enough. *)
Definition parse (s : jsstr) : option JSValue :=
  match parse_value (2 * List.length s + 2) s with
  | Some (v, r) => match skip_ws r with [] => Some v | _ :: _ => None end
  | None => None
  end.

(** Test inputs are written with an apostrophe where the text has a
    double quote. *)
Definition dq (s : jsstr) : jsstr := map (fun c => if c =? 39 then 34 else c) s.

End Json.

(* ================================================================== *)
(** * services/geminiService.ts                                        *)
(* ================================================================== *)

Module GeminiService.
Import Js.
Local Open Scope js_scope.

(** A [File]; its content is read through the world only. *)
Record File := { file_type : jsstr; file_name : jsstr }.

(** The places where the completion service is called and the file read. *)
Inductive CallSite :=
| AnalyzeMediaForClues
| GroundedSearch
| Structuring
| DetermineTimestamp
| GenerateReport.

(** A [generateContent] request.  The fixed prose of each prompt is the
    same at every call from one site; [holes] are the values interpolated
    into it, in their order of appearance. *)
Record GenRequest := {
  model : jsstr;
  inlineData : option (jsstr * JSValue);
  holes : list jsstr;
  googleSearch : bool;
  thinkingBudget : option N
}.

Record Web := { title : option jsstr; uri : option jsstr }.
Record GroundingChunk := { web : option Web }.

Record GenResponse := {
  text : option jsstr;
  groundingChunks : option (list GroundingChunk)
}.

Definition CallSite_eqb (a b : CallSite) : bool :=
  match a, b with
  | AnalyzeMediaForClues, AnalyzeMediaForClues
  | GroundedSearch, GroundedSearch
  | Structuring, Structuring
  | DetermineTimestamp, DetermineTimestamp
  | GenerateReport, GenerateReport => true
  | _, _ => false
  end.

Inductive Event :=
| ReadFile (site : CallSite) (f : File)
| Generate (site : CallSite) (req : GenRequest)
| Fetch (url : jsstr)
| ImagerySearch (lat lon : JSValue) (date : option jsstr).

Record World := {
  host : Host;
  (** [process.env.API_KEY] and [import.meta.env.VITE_BACKEND_API_URL]. *)
  API_KEY : option jsstr;
  VITE_BACKEND_API_URL : option jsstr;
  (** The data URL a FileReader loads; [None] when it reports an error. *)
  readAsDataURL : CallSite -> File -> option jsstr;
  generateContent : CallSite -> GenRequest -> outcome GenResponse;
  fetch : jsstr -> outcome HttpResponse;
  (** [new Date()] in the body ([0]) and in the handler ([1]) of
      [getSatelliteImagery]. *)
  now : nat -> Z;
  (** [new Date()] for the log entry at a given position. *)
  logTime : nat -> Z
}.

(** The service's methods leave a trace of what they asked of the world. *)
Definition Svc (A : Type) := M (list Event) A.

Definition emit (e : Event) : Svc unit := modify (fun t => t ++ [e]).

Section Service.
Variable w : World.
Let h := host w.

Definition BACKEND_API_URL : jsstr :=
  if truthyStr (VITE_BACKEND_API_URL w)
  then match VITE_BACKEND_API_URL w with Some u => u | None => [] end
  else js "http://localhost:3001".

(** What [reader.onerror] rejects with is an event, not an [Error]. *)
Definition progressEvent : exn :=
  {| instanceofError := false; err_message := []; err_code := None;
     err_causeCode := None |}.

Definition fileToBase64 (site : CallSite) (file : File) : Svc JSValue :=
  emit (ReadFile site file) ;;
  match readAsDataURL w site file with
  | Some result => ret (fromOption (split_second 44 result))
  | None => throw progressEvent
  end.

(** [constructor()]. *)
Definition constructor : outcome unit :=
  if negb (truthyStr (API_KEY w))
  then Throw (Error (js "API_KEY environment variable not set"))
  else Ok tt.

Definition today (k : nat) : jsstr :=
  split_head 84 (Date_toISOString h (now w k)).

Definition unavailable (lat lon : JSValue) (date : option jsstr) : JSValue :=
  JObj [ (js "available", JBool false);
         (js "location", JObj [(js "lat", lat); (js "lon", lon)]);
         (js "searchDate",
          JStr (if truthyStr date
                then match date with Some d => d | None => [] end
                else today 1)) ].

Definition getSatelliteImagery (lat lon : JSValue) (date : option jsstr)
  : Svc JSValue :=
  emit (ImagerySearch lat lon date) ;;
  try_catch
    (let targetDate :=
       if truthyStr date
       then match date with Some d => Date_parse h d | None => None end
       else Some (now w 0) in
     iso <- lift (toISOString h targetDate) ;;
     let dateStr := split_head 84 iso in
     let beforeDate :=
       match targetDate with
       | Some t => Date_minus30Days h t
       | None => None
       end in
     beforeIso <- lift (toISOString h beforeDate) ;;
     let beforeDateStr := split_head 84 beforeIso in
     slat <- lift (ToString h lat) ;;
     slon <- lift (ToString h lon) ;;
     let searchUrl :=
       BACKEND_API_URL ++ js "/api/satellite/search?lat=" ++ slat
         ++ js "&lon=" ++ slon ++ js "&startDate=" ++ beforeDateStr
         ++ js "&endDate=" ++ dateStr ++ js "&limit=5" in
     emit (Fetch searchUrl) ;;
     searchResponse <- lift (fetch w searchUrl) ;;
     if negb (ok searchResponse) then
       let errorData :=
         match json searchResponse with
         | Ok v => v
         | Throw _ => JObj []
         end in
       m <- lift (Get errorData (js "message")) ;;
       msg <- lift (ToString h (or_else m (JStr (js "Imagery search failed")))) ;;
       throw (Error msg)
     else
       data <- lift (json searchResponse) ;;
       ret data)
    (fun error => ret (unavailable lat lon date)).

Definition analyzeMediaForClues (file : File) (locationContext : jsstr)
  : Svc JSValue :=
  base64Data <- fileToBase64 AnalyzeMediaForClues file ;;
  let mimeType := file_type file in
  let request :=
    {| model := js "gemini-2.5-pro";
       inlineData := Some (mimeType, base64Data);
       holes := [locationContext];
       googleSearch := false;
       thinkingBudget := None |} in
  emit (Generate AnalyzeMediaForClues request) ;;
  response <- lift (generateContent w AnalyzeMediaForClues request) ;;
  ret (fromOption (text response)).

(** [groundingChunks.map(chunk => chunk.web).filter(Boolean)
      .map(web => ({ title: web.title, uri: web.uri }))]. *)
Definition sourcesOf (response : GenResponse) : list JSValue :=
  let groundingChunks :=
    match groundingChunks response with Some l => l | None => [] end in
  flat_map
    (fun chunk =>
       match web chunk with
       | Some x => [JObj [ (js "title", fromOption (title x));
                           (js "uri", fromOption (uri x)) ]]
       | None => []
       end)
    groundingChunks.

(** [response.text.replace(/```json|```/g, '').trim()] then [JSON.parse]. *)
Definition parseFenced (response : GenResponse) : outcome JSValue :=
  match text response with
  | None =>
      Throw (TypeError (js "Cannot read properties of undefined (reading 'replace')"))
  | Some t =>
      let jsonText := trim (replaceFences t) in
      match JSON_parse h jsonText with
      | Some v => Ok v
      | None => Throw (Error (js "Unexpected token"))
      end
  end.

Definition fallbackLocation (locationText : JSValue) : JSValue :=
  JObj [ (js "address", locationText);
         (js "latitude", JNum (Decimal 315 (-1)));
         (js "longitude", JNum (Decimal 3445 (-2)));
         (js "confidence", JNum (num 30));
         (js "accuracy", JStr (js "region")) ].

Definition findLocationWithGrounding (clues : JSValue) (locationContext : jsstr)
  : Svc (JSValue * list JSValue) :=
  sclues <- lift (ToString h clues) ;;
  let request :=
    {| model := js "gemini-2.5-flash";
       inlineData := None;
       holes := [sclues; locationContext];
       googleSearch := true;
       thinkingBudget := None |} in
  emit (Generate GroundedSearch request) ;;
  response <- lift (generateContent w GroundedSearch request) ;;
  let locationText := fromOption (text response) in
  let sources := sourcesOf response in
  slocationText <- lift (ToString h locationText) ;;
  let structuringRequest :=
    {| model := js "gemini-2.5-flash";
       inlineData := None;
       holes := [slocationText];
       googleSearch := false;
       thinkingBudget := None |} in
  emit (Generate Structuring structuringRequest) ;;
  structuringResponse <- lift (generateContent w Structuring structuringRequest) ;;
  try_catch
    (locationData <- lift (parseFenced structuringResponse) ;;
     ret (locationData, sources))
    (fun e => ret (fallbackLocation locationText, sources)).

Definition fallbackTime (response : GenResponse) : JSValue :=
  JObj [ (js "estimatedTimeOfDay", JStr (js "unknown"));
         (js "confidence", JNum (num 0));
         (js "primaryMethod", JStr (js "error"));
         (js "shadowAnalysis", fromOption (text response));
         (js "reasoning", JStr (js "Could not parse response")) ].

Definition determineTimestamp (file : File) (locationData : JSValue)
    (claimedDate : option jsstr) : Svc JSValue :=
  base64Data <- fileToBase64 DetermineTimestamp file ;;
  let mimeType := file_type file in
  address <- lift (Get locationData (js "address")) ;;
  saddress <- lift (ToString h address) ;;
  latitude <- lift (Get locationData (js "latitude")) ;;
  slatitude <- lift (ToString h latitude) ;;
  longitude <- lift (Get locationData (js "longitude")) ;;
  slongitude <- lift (ToString h longitude) ;;
  let dateLine :=
    if truthyStr claimedDate
    then js "Known date: " ++ match claimedDate with Some d => d | None => [] end
    else js "Date unknown" in
  let request :=
    {| model := js "gemini-2.5-pro";
       inlineData := Some (mimeType, base64Data);
       holes := [saddress; slatitude; slongitude; dateLine];
       googleSearch := false;
       thinkingBudget := None |} in
  emit (Generate DetermineTimestamp request) ;;
  response <- lift (generateContent w DetermineTimestamp request) ;;
  try_catch
    (lift (parseFenced response))
    (fun e => ret (fallbackTime response)).

(** [JSON.stringify(v)] inside a template. *)
Definition stringified (v : JSValue) : jsstr :=
  match v with
  | JUndefined => js "undefined"
  | _ => JSON_stringify h v
  end.

Definition invalidFormat : exn :=
  Error (js "AI returned a report in an invalid format.").

Definition generateVerificationReport (file : File) (clues locationData timeData : JSValue)
    (claimedTimestamp : jsstr) (sources : list JSValue) (satelliteData : JSValue)
  : Svc JSValue :=
  base64Data <- fileToBase64 GenerateReport file ;;
  let mimeType := file_type file in
  sclues <- lift (ToString h clues) ;;
  let slocation := stringified locationData in
  let stime := stringified timeData in
  let sclaimed :=
    if nonempty claimedTimestamp then claimedTimestamp
    else js "Not provided - time was DETERMINED from evidence" in
  let ssources := stringified (JArr sources) in
  available <- lift (GetOpt satelliteData (js "available")) ;;
  simagery <-
    (if truthy available then
       imagery <- lift (Get satelliteData (js "imagery")) ;;
       len <- lift (GetOpt imagery (js "length")) ;;
       slen <- lift (ToString h (or_else len (JNum (num 0)))) ;;
       ret (js "Yes - " ++ slen ++ js " images found")
     else ret (js "No")) ;;
  estimatedTimeOfDay <- lift (Get timeData (js "estimatedTimeOfDay")) ;;
  sestimated <- lift (ToString h (or_else estimatedTimeOfDay (JStr (js "unknown")))) ;;
  available' <- lift (GetOpt satelliteData (js "available")) ;;
  let ssatellite :=
    if truthy available'
    then js "Description of how satellite imagery supports findings"
    else js "No satellite imagery available" in
  let request :=
    {| model := js "gemini-2.5-pro";
       inlineData := Some (mimeType, base64Data);
       holes := [sclues; slocation; stime; sclaimed; ssources; simagery;
                 sestimated; ssatellite];
       googleSearch := false;
       thinkingBudget := Some 32768%N |} in
  emit (Generate GenerateReport request) ;;
  response <- lift (generateContent w GenerateReport request) ;;
  try_catch
    (reportData <- lift (parseFenced response) ;;
     ret (JObj (spread reportData
                  ++ [ (js "groundingSources", JArr sources);
                       (js "satelliteData", or_else satelliteData JUndefined) ])))
    (fun e => throw invalidFormat).

End Service.

End GeminiService.

(* ================================================================== *)
(** * hooks/useVerification.ts                                         *)
(* ================================================================== *)

Module LogType.
Inductive t := info | processing | success | warning | error.
End LogType.

Module UseVerification.
Import Js GeminiService.
Local Open Scope js_scope.

Record LogEntry := {
  type : LogType.t;
  message : jsstr;
  timestamp : jsstr
}.

(** The four pieces of state the hook owns. *)
Record HookState := {
  isLoading : bool;
  log : list LogEntry;
  report : option JSValue;
  error : option jsstr
}.

(** A run sees the hook's state and leaves the service's trace. *)
Record RunState := {
  ui : HookState;
  trace : list Event
}.

Definition Run (A : Type) := M RunState A.

Definition onUi (f : HookState -> HookState) : Run unit :=
  modify (fun s => {| ui := f (ui s); trace := trace s |}).

Definition setIsLoading (b : bool) : Run unit :=
  onUi (fun u => {| isLoading := b; log := log u; report := report u; error := error u |}).

Definition setLog (f : list LogEntry -> list LogEntry) : Run unit :=
  onUi (fun u => {| isLoading := isLoading u; log := f (log u); report := report u;
                    error := error u |}).

Definition setReport (r : option JSValue) : Run unit :=
  onUi (fun u => {| isLoading := isLoading u; log := log u; report := r; error := error u |}).

Definition setError (e : option jsstr) : Run unit :=
  onUi (fun u => {| isLoading := isLoading u; log := log u; report := report u; error := e |}).

(** A service call made from the hook. *)
Definition call {A} (m : Svc A) : Run A :=
  fun s => match m (trace s) with
           | (r, t) => (r, {| ui := ui s; trace := t |})
           end.

Section Hook.
Variable w : World.
Let h := host w.

Definition addLogEntry (type : LogType.t) (message : jsstr) : Run unit :=
  setLog (fun prevLog =>
    prevLog ++ [ {| type := type; message := message;
                    timestamp := Date_toISOString h (logTime w (List.length prevLog)) |} ]).

Definition preamble (claimedTimestamp locationContext : jsstr) : Run unit :=
  addLogEntry LogType.info (cp 128640 ++ js " Starting forensic analysis...") ;;
  addLogEntry LogType.info (cp 128205 ++ js " Known region: " ++ locationContext) ;;
  if nonempty claimedTimestamp then
    addLogEntry LogType.info (cp 9200 ++ js " Mode: VERIFICATION of claimed timestamp")
  else
    addLogEntry LogType.info
      (cp 9200 ++ js " Mode: DETERMINATION - will estimate timestamp from visual evidence").

(** PHASE 1: Extract Visual Clues *)
Definition phase1 (file : File) (locationContext : jsstr) : Run JSValue :=
  addLogEntry LogType.processing
    (cp 127757 ++ js " PHASE 1: Extracting visual clues with Gemini Pro...") ;;
  clues <- call (analyzeMediaForClues w file locationContext) ;;
  shown <- lift (call_substring0 (js "clues.substring") clues 150) ;;
  addLogEntry LogType.success
    (cp 9989 ++ js " Visual clues extracted: " ++ shown ++ js "...") ;;
  ret clues.

(** PHASE 2: Geolocate with Google Search *)
Definition phase2 (clues : JSValue) (locationContext : jsstr)
  : Run (JSValue * list JSValue) :=
  addLogEntry LogType.processing
    (cp 128270 ++ js " PHASE 2: Geolocating with Google Search grounding...") ;;
  ' (locationData, sources) <- call (findLocationWithGrounding w clues locationContext) ;;
  address <- lift (Get locationData (js "address")) ;;
  saddress <- lift (ToString h (or_else address (JStr (js "Unknown")))) ;;
  addLogEntry LogType.success (cp 128205 ++ js " Location identified: " ++ saddress) ;;
  confidence <- lift (Get locationData (js "confidence")) ;;
  sconfidence <- lift (ToString h confidence) ;;
  accuracy <- lift (Get locationData (js "accuracy")) ;;
  saccuracy <- lift (ToString h accuracy) ;;
  addLogEntry LogType.info
    (cp 127919 ++ js " Location confidence: " ++ sconfidence ++ js "% ("
       ++ saccuracy ++ js ")") ;;
  (if (0 <? List.length sources)%nat then
     addLogEntry LogType.success
       (cp 128279 ++ js " Found "
          ++ Number_toString h (num (Z.of_nat (List.length sources)))
          ++ js " grounding sources")
   else ret tt) ;;
  ret (locationData, sources).

(** [locationData.latitude && locationData.longitude], as a condition. *)
Definition hasCoordinates (locationData : JSValue) : outcome bool :=
  match Get locationData (js "latitude") with
  | Throw e => Throw e
  | Ok latitude =>
      if truthy latitude then
        match Get locationData (js "longitude") with
        | Throw e => Throw e
        | Ok longitude => Ok (truthy longitude)
        end
      else Ok false
  end.

(** [claimedTimestamp ? claimedTimestamp.split('T')[0] : null]. *)
Definition datePart (claimedTimestamp : jsstr) : option jsstr :=
  if nonempty claimedTimestamp then Some (split_head 84 claimedTimestamp) else None.

(** [imagery.slice(0, 3)] followed by [.forEach]: only an array has both. *)
Definition slice03 (imagery : JSValue) : outcome (list JSValue) :=
  match imagery with
  | JArr items => Ok (firstn 3 items)
  | JStr _ =>
      Throw (TypeError (js "satelliteData.imagery.slice(...).forEach is not a function"))
  | _ => Throw (TypeError (js "satelliteData.imagery.slice is not a function"))
  end.

Definition phase3_start : jsstr :=
  cp 128752 ++ cp 65039 ++ js " PHASE 3: Fetching Copernicus satellite imagery...".

(** PHASE 3: Fetch Satellite Imagery *)
Definition phase3 (claimedTimestamp : jsstr) (locationData : JSValue) : Run JSValue :=
  guard <- lift (hasCoordinates locationData) ;;
  if guard : bool then
    addLogEntry LogType.processing phase3_start ;;
    let dateStr := datePart claimedTimestamp in
    latitude <- lift (Get locationData (js "latitude")) ;;
    longitude <- lift (Get locationData (js "longitude")) ;;
    satelliteData <- call (getSatelliteImagery w latitude longitude dateStr) ;;
    available <- lift (Get satelliteData (js "available")) ;;
    found <- (if truthy available then
                imagery <- lift (Get satelliteData (js "imagery")) ;;
                ret (truthy imagery)
              else ret false) ;;
    (if found : bool then
       imagery <- lift (Get satelliteData (js "imagery")) ;;
       len <- lift (Get imagery (js "length")) ;;
       slen <- lift (ToString h len) ;;
       addLogEntry LogType.success
         (cp 128752 ++ cp 65039 ++ js " Found " ++ slen ++ js " satellite images") ;;
       shown <- lift (slice03 imagery) ;;
       forEach
         (fun img =>
            date <- lift (Get img (js "date")) ;;
            d <- lift (newDate h date) ;;
            let sdate := Date_toLocaleDateString h d in
            cloudCover <- lift (Get img (js "cloudCover")) ;;
            scloudCover <- lift (ToString h cloudCover) ;;
            addLogEntry LogType.info
              (cp 128197 ++ js " Image from " ++ sdate ++ js " - " ++ scloudCover
                 ++ js "% cloud cover"))
         shown
     else
       addLogEntry LogType.warning
         (cp 9888 ++ cp 65039
            ++ js " No recent satellite imagery available for this location")) ;;
    ret satelliteData
  else ret JNull.

(** [v !== 'unknown']. *)
Definition isnt_unknown (v : JSValue) : bool :=
  match v with
  | JStr s => negb (str_eqb s (js "unknown"))
  | _ => true
  end.

(** PHASE 4: Determine/Verify Timestamp *)
Definition phase4 (file : File) (claimedTimestamp : jsstr) (locationData : JSValue)
  : Run JSValue :=
  addLogEntry LogType.processing
    (cp 9200 ++ js " PHASE 4: Analyzing shadows and lighting for time determination...") ;;
  timeData <- call (determineTimestamp w file locationData (datePart claimedTimestamp)) ;;
  estimatedTimeOfDay <- lift (Get timeData (js "estimatedTimeOfDay")) ;;
  (if truthy estimatedTimeOfDay && isnt_unknown estimatedTimeOfDay then
     sestimated <- lift (ToString h estimatedTimeOfDay) ;;
     addLogEntry LogType.success (cp 9200 ++ js " Time estimate: " ++ sestimated) ;;
     confidence <- lift (Get timeData (js "confidence")) ;;
     sconfidence <- lift (ToString h confidence) ;;
     primaryMethod <- lift (Get timeData (js "primaryMethod")) ;;
     sprimaryMethod <- lift (ToString h primaryMethod) ;;
     addLogEntry LogType.info
       (cp 128202 ++ js " Time confidence: " ++ sconfidence ++ js "% (method: "
          ++ sprimaryMethod ++ js ")") ;;
     reasoning <- lift (Get timeData (js "reasoning")) ;;
     shown <- lift (call_substring0 (js "timeData.reasoning.substring") reasoning 100) ;;
     addLogEntry LogType.info (cp 128161 ++ js " " ++ shown ++ js "...")
   else
     addLogEntry LogType.warning
       (cp 9888 ++ cp 65039 ++ js " Could not determine time from visual evidence")) ;;
  ret timeData.

Definition phase5_start : jsstr :=
  cp 129302
    ++ js " PHASE 5: Generating final forensic report with Gemini Pro + Thinking Mode...".

Definition complete_message : jsstr :=
  cp 9989 ++ js " Verification complete! Report generated.".

(** PHASE 5: Generate Comprehensive Report *)
Definition phase5 (file : File) (claimedTimestamp : jsstr)
    (clues locationData timeData : JSValue) (sources : list JSValue)
    (satelliteData : JSValue) : Run unit :=
  addLogEntry LogType.processing phase5_start ;;
  finalReport <- call (generateVerificationReport w file clues locationData timeData
                         claimedTimestamp sources satelliteData) ;;
  setReport (Some finalReport) ;;
  addLogEntry LogType.success complete_message ;;
  verdict <- lift (Get finalReport (js "verdict")) ;;
  sverdict <- lift (ToString h verdict) ;;
  confidenceScore <- lift (Get finalReport (js "confidenceScore")) ;;
  sconfidenceScore <- lift (ToString h confidenceScore) ;;
  addLogEntry LogType.info
    (cp 128203 ++ js " Verdict: " ++ sverdict ++ js " (" ++ sconfidenceScore
       ++ js "% confidence)").

(** The body of the [try] block. *)
Definition attempt (file : File) (claimedTimestamp locationContext : jsstr) : Run unit :=
  preamble claimedTimestamp locationContext ;;
  clues <- phase1 file locationContext ;;
  ' (locationData, sources) <- phase2 clues locationContext ;;
  satelliteData <- phase3 claimedTimestamp locationData ;;
  timeData <- phase4 file claimedTimestamp locationData ;;
  phase5 file claimedTimestamp clues locationData timeData sources satelliteData.

Definition failed_message (errorMessage : jsstr) : jsstr :=
  cp 10060 ++ js " Verification failed: " ++ errorMessage.

(** The [catch] block. *)
Definition recover (e : exn) : Run unit :=
  let errorMessage :=
    if instanceofError e then err_message e else js "An unknown error occurred." in
  setError (Some errorMessage) ;;
  addLogEntry LogType.error (failed_message errorMessage).

Definition runVerification (file : File) (claimedTimestamp locationContext : jsstr)
  : Run unit :=
  setIsLoading true ;;
  setLog (fun _ => []) ;;
  setReport None ;;
  setError None ;;
  geminiService <- lift (constructor w) ;;
  try_finally
    (try_catch (attempt file claimedTimestamp locationContext) recover)
    (setIsLoading false).

End Hook.

End UseVerification.

(* ================================================================== *)
(** * The credential proxy (the Express server)                        *)
(* ================================================================== *)

Module Proxy.
Import Js.
Local Open Scope js_scope.

(** [process.env], as far as the handlers read it. *)
Record Env := {
  COPERNICUS_CLIENT_ID : option jsstr;
  COPERNICUS_CLIENT_SECRET : option jsstr
}.

(** An upstream request: what the handlers pass to [fetch]. *)
Record Request := {
  url : jsstr;
  method : jsstr;
  headers : list (jsstr * jsstr);
  form : list (jsstr * jsstr)
}.

(** [req.query] of the search route; a parameter that was not sent is
    [JUndefined]. *)
Record Query := {
  lat : JSValue;
  lon : JSValue;
  startDate : JSValue;
  endDate : JSValue;
  limit : JSValue
}.

Record World := {
  host : Host;
  env : Env;
  fetch : Request -> outcome HttpResponse;
  now : Z
}.

(** What [res.status(..).json(..)] sends. *)
Record Reply := {
  statusCode : Z;
  body : JSValue
}.

(** A handler leaves the list of the upstream requests it issued. *)
Definition Handler (A : Type) := M (list Request) A.

Definition issue (w : World) (r : Request) : Handler HttpResponse :=
  modify (fun t => t ++ [r]) ;;
  lift (fetch w r).

Section Handlers.
Variable w : World.
Let h := host w.

(** A value of [process.env] inside [URLSearchParams]: a missing one is
    converted like any other value, to the text "undefined". *)
Definition envText (v : option jsstr) : jsstr :=
  match v with Some s => s | None => js "undefined" end.

Definition tokenUrl : jsstr :=
  js "https://identity.dataspace.copernicus.eu/auth/realms/CDSE/protocol/openid-connect/token".

Definition tokenRequest : Request :=
  {| url := tokenUrl;
     method := js "POST";
     headers := [(js "Content-Type", js "application/x-www-form-urlencoded")];
     form := [ (js "grant_type", js "client_credentials");
               (js "client_id", envText (COPERNICUS_CLIENT_ID (env w)));
               (js "client_secret", envText (COPERNICUS_CLIENT_SECRET (env w))) ] |}.

Definition networkHint : jsstr :=
  js "Network error: Unable to reach Copernicus servers. Check your internet connection.".

Definition is_EAI_AGAIN (c : option jsstr) : bool :=
  match c with Some s => str_eqb s (js "EAI_AGAIN") | None => false end.

Definition statusLine (r : HttpResponse) : jsstr :=
  Number_toString h (num (status r)) ++ js " " ++ statusText r.

Definition authFailed (error : exn) : Reply :=
  {| statusCode := 500;
     body := JObj [ (js "error", JStr (js "Authentication failed"));
                    (js "message", JStr (err_message error));
                    (js "details",
                     JStr (if is_EAI_AGAIN (err_code error)
                           then networkHint
                           else err_message error)) ] |}.

(** POST /api/satellite/auth *)
Definition authHandler : Handler Reply :=
  try_catch
    (response <- issue w tokenRequest ;;
     if negb (ok response) then
       throw (Error (js "Authentication failed: " ++ statusLine response))
     else
       data <- lift (json response) ;;
       access_token <- lift (Get data (js "access_token")) ;;
       ret {| statusCode := 200; body := JObj [(js "access_token", access_token)] |})
    (fun error => ret (authFailed error)).

Definition missingParameters : Reply :=
  {| statusCode := 400;
     body := JObj [ (js "error", JStr (js "Missing required parameters"));
                    (js "message", JStr (js "Latitude and longitude are required")) ] |}.

Definition catalogue : jsstr :=
  js "https://catalogue.dataspace.copernicus.eu/odata/v1/Products".

(** One upstream record as an imagery descriptor. *)
Definition descriptor (item : JSValue) : Handler JSValue :=
  id <- lift (Get item (js "Id")) ;;
  name <- lift (Get item (js "Name")) ;;
  contentDate <- lift (Get item (js "ContentDate")) ;;
  date <- lift (Get contentDate (js "Start")) ;;
  cloudCover <- lift (Get item (js "CloudCover")) ;;
  s3Path <- lift (Get item (js "S3Path")) ;;
  thumbnail <-
    (if truthy s3Path then
       id' <- lift (Get item (js "Id")) ;;
       sid <- lift (ToString h id') ;;
       ret (JStr (catalogue ++ js "(" ++ sid ++ js ")/Thumbnail/$value"))
     else ret JNull) ;;
  ret (JObj [ (js "id", id);
              (js "name", name);
              (js "date", date);
              (js "cloudCover", or_else cloudCover (JNum (num 0)));
              (js "thumbnail", thumbnail) ]).

(** [value.map(item => ...)]: only an array has the method. *)
Definition mapValue (value : JSValue) : Handler (list JSValue) :=
  match value with
  | JArr items => mapM descriptor items
  | _ => throw (TypeError (js "searchData.value.map is not a function"))
  end.

Definition searchFailed (error : exn) : Reply :=
  {| statusCode := 500;
     body := JObj [ (js "error", JStr (js "Search failed"));
                    (js "message", JStr (err_message error));
                    (js "details",
                     JStr (if is_EAI_AGAIN (err_causeCode error)
                              || is_EAI_AGAIN (err_code error)
                           then networkHint
                           else err_message error)) ] |}.

(** GET /api/satellite/search *)
Definition searchHandler (query : Query) : Handler Reply :=
  try_catch
    (let lat := lat query in
     let lon := lon query in
     let startDate := startDate query in
     let endDate := endDate query in
     let limit := match limit query with JUndefined => JNum (num 5) | v => v end in
     if negb (truthy lat) || negb (truthy lon) then
       ret missingParameters
     else
       authResponse <- issue w tokenRequest ;;
       if negb (ok authResponse) then throw (Error (js "Authentication failed"))
       else
         authData <- lift (json authResponse) ;;
         token <- lift (Get authData (js "access_token")) ;;
         endDateTime <-
           (if truthy endDate then lift (newDate h endDate) else ret (Some (now w))) ;;
         startDateTime <-
           (if truthy startDate then lift (newDate h startDate)
            else ret (match endDateTime with
                      | Some t => timeClip (t - 30 * 24 * 60 * 60 * 1000)
                      | None => None
                      end)) ;;
         startIso <- lift (toISOString h startDateTime) ;;
         let startDateStr := split_head 46 startIso ++ js "Z" in
         endIso <- lift (toISOString h endDateTime) ;;
         let endDateStr := split_head 46 endIso ++ js "Z" in
         slon <- lift (ToString h lon) ;;
         slat <- lift (ToString h lat) ;;
         slimit <- lift (ToString h limit) ;;
         let searchUrl :=
           catalogue
             ++ js "?$filter=Collection/Name eq 'SENTINEL-2' and OData.CSC.Intersects(area=geography'SRID=4326;POINT("
             ++ slon ++ js " " ++ slat
             ++ js ")') and ContentDate/Start gt " ++ startDateStr
             ++ js " and ContentDate/Start lt " ++ endDateStr
             ++ js "&$orderby=ContentDate/Start desc&$top=" ++ slimit in
         stoken <- lift (ToString h token) ;;
         searchResponse <-
           issue w {| url := searchUrl;
                      method := js "GET";
                      headers := [(js "Authorization", js "Bearer " ++ stoken)];
                      form := [] |} ;;
         if negb (ok searchResponse) then
           throw (Error (js "Search failed: " ++ statusLine searchResponse))
         else
           searchData <- lift (json searchResponse) ;;
           value <- lift (Get searchData (js "value")) ;;
           some <-
             (if truthy value then
                len <- lift (Get value (js "length")) ;;
                n <- lift (ToNumber h len) ;;
                ret (number_positive n)
              else ret false) ;;
           if some : bool then
             value' <- lift (Get searchData (js "value")) ;;
             imagery <- mapValue value' ;;
             slat' <- lift (ToString h lat) ;;
             slon' <- lift (ToString h lon) ;;
             ret {| statusCode := 200;
                    body :=
                      JObj [ (js "available", JBool true);
                             (js "imagery", JArr imagery);
                             (js "location",
                              JObj [ (js "lat", JNum (parseFloat h slat'));
                                     (js "lon", JNum (parseFloat h slon')) ]);
                             (js "searchDate", JStr (split_head 84 endDateStr));
                             (js "count", JNum (num (Z.of_nat (List.length imagery)))) ] |}
           else
             slat' <- lift (ToString h lat) ;;
             slon' <- lift (ToString h lon) ;;
             ret {| statusCode := 200;
                    body :=
                      JObj [ (js "available", JBool false);
                             (js "imagery", JArr []);
                             (js "location",
                              JObj [ (js "lat", JNum (parseFloat h slat'));
                                     (js "lon", JNum (parseFloat h slon')) ]);
                             (js "searchDate", JStr (split_head 84 endDateStr));
                             (js "count", JNum (num 0)) ] |})
    (fun error => ret (searchFailed error)).

End Handlers.

End Proxy.

(* ================================================================== *)
(** * App.tsx                                                          *)
(* ================================================================== *)

Module App.
Import Js GeminiService UseVerification.

(** The component's own state. *)
Record State := {
  file : option File;
  claimedDate : jsstr;
  claimedTime : jsstr;
  locationContext : jsstr
}.

(** What a click on the button does. *)
Inductive Effect :=
| alert (msg : jsstr)
| runs (file : File) (claimedTimestamp locationContext : jsstr).

Definition handleAnalyze (st : State) : Effect :=
  match file st with
  | None => alert (js "Please upload a file first.")
  | Some f =>
      let claimedTimestamp :=
        if nonempty (claimedDate st) then
          if nonempty (claimedTime st)
          then claimedDate st ++ js "T" ++ claimedTime st
          else claimedDate st
        else [] in
      runs f claimedTimestamp (locationContext st)
  end.

(** [disabled={isLoading || !file}]. *)
Definition disabled (st : State) (u : HookState) : bool :=
  isLoading u || match file st with Some _ => false | None => true end.

(** The click carried through the hook. *)
Definition click (w : World) (st : State) : Run unit :=
  match handleAnalyze st with
  | alert _ => ret tt
  | runs f claimedTimestamp locationContext =>
      runVerification w f claimedTimestamp locationContext
  end.

End App.

(* ================================================================== *)
(** * components/VerificationReport.tsx                                *)
(* ================================================================== *)

Module ReportView.
Import Js UseVerification.

(** ** React and the engine, as far as the component relies on them *)

(** A value placed between braces.  React shows a string or a number as
    text, nothing for a boolean, null or undefined, and the items of an
    array one after another; it throws on any other object. *)
Fixpoint renderable (v : JSValue) : bool :=
  match v with
  | JObj _ => false
  | JArr items =>
      (fix all (l : list JSValue) : bool :=
         match l with
         | [] => true
         | x :: rest => renderable x && all rest
         end) items
  | _ => true
  end.

(** [toLocaleDateString('en-US', { year: 'numeric', month: 'short',
    day: 'numeric' })]; the text for an invalid date included. *)
Record Intl := { dateFormat : option Z -> jsstr }.

(** A render returns what it shows, or throws.  Whatever is thrown while
    the component renders takes the component down with it, so the result
    keeps that it threw and not what. *)
Definition value {A} (o : outcome A) : option A :=
  match o with Ok a => Some a | Throw _ => None end.

Local Notation "x <~ m ;; k" := (match m with Some x => k | None => None end)
  (at level 61, m at next level, right associativity).

(** [l.map(f)] for an [f] that may throw. *)
Fixpoint traverse {A B} (f : A -> option B) (l : list A) : option (list B) :=
  match l with
  | [] => Some []
  | x :: rest => y <~ f x ;; ys <~ traverse f rest ;; Some (y :: ys)
  end.

(** ** What the component shows *)

Inductive Verdict := Verified | Disputed | Inconclusive.

(** [{guard && (...)}]: the section, or the falsy value left in its
    place. *)
Inductive Slot (A : Type) :=
| shown (section : A)
| hidden (guard : JSValue).
Arguments shown {A} section.
Arguments hidden {A} guard.

Definition is_shown {A} (s : Slot A) : bool :=
  match s with shown _ => true | hidden _ => false end.

(** One line of the satellite section. *)
Record Image := { capturedOn : jsstr; cloudCover : JSValue }.

(** The satellite section: the number found, and a line for each of the
    first three images (nothing when there is no [imagery]). *)
Record Satellite := { found : JSValue; images : option (list Image) }.

(** One entry of the sources section. *)
Record Link := { href : JSValue; label : JSValue }.

Record Report := {
  verdict : Verdict;
  confidenceScore : JSValue;
  summary : JSValue;
  address : JSValue;
  latitude : JSValue;
  longitude : JSValue;
  estimatedTime : Slot JSValue;
  satelliteImagery : Slot Satellite;
  locationAnalysis : JSValue;
  temporalAnalysis : JSValue;
  satelliteAnalysis : Slot JSValue;
  groundingSources : Slot (list Link)
}.

(** What the component returns: one of its three early returns, or the
    report with its sections. *)
Inductive Panel :=
| Generating
| AnalysisFailed (error : jsstr)
| Awaiting
| Findings (report : Report).

Section Render.
Variable h : Host.
Variable intl : Intl.

(** [{v}]. *)
Definition braces (v : JSValue) : option JSValue :=
  if renderable v then Some v else None.

(** [href={v}]: React sets the attribute to the string [v] converts to,
    and throws where the conversion does. *)
Definition attribute (v : JSValue) : option JSValue :=
  _ <~ value (ToString h v) ;; Some v.

(** [{guard && (section)}] for a guard already evaluated. *)
Definition slot {A} (guard : JSValue) (section : option A) : option (Slot A) :=
  if truthy guard then option_map shown section else Some (hidden guard).

(** [VerdictDisplay].  Of the keys [verdictConfig[verdict]] can be read
    at, only the three of the table give an icon: any other yields
    undefined, which cannot be destructured, or a member every object
    inherits, which has no [icon] and leaves an element without a type. *)
Definition VerdictDisplay (verdict : JSValue) : option Verdict :=
  key <~ value (ToString h verdict) ;;
  if str_eqb key (js "Verified") then Some Verified
  else if str_eqb key (js "Disputed") then Some Disputed
  else if str_eqb key (js "Inconclusive") then Some Inconclusive
  else None.

(** [report.estimatedTime && report.estimatedTime !== 'unknown' && (...)]. *)
Definition timeSection (report : JSValue) : option (Slot JSValue) :=
  estimatedTime <~ value (Get report (js "estimatedTime")) ;;
  slot (and_then estimatedTime (JBool (isnt_unknown estimatedTime)))
       (braces estimatedTime).

(** The callback of [imagery?.slice(0, 3).map(...)]. *)
Definition image (img : JSValue) : option Image :=
  date <~ value (Get img (js "date")) ;;
  time <~ value (newDate h date) ;;
  cloudCover <~ value (Get img (js "cloudCover")) ;;
  cloudCover <~ braces cloudCover ;;
  Some {| capturedOn := dateFormat intl time; cloudCover := cloudCover |}.

(** [report.satelliteData && report.satelliteData.available && (...)].
    Of the values [imagery] can have, only an array has both [slice] and
    [map]. *)
Definition satelliteSection (report : JSValue) : option (Slot Satellite) :=
  satelliteData <~ value (Get report (js "satelliteData")) ;;
  if truthy satelliteData then
    available <~ value (Get satelliteData (js "available")) ;;
    if truthy available then
      imagery <~ value (Get satelliteData (js "imagery")) ;;
      length <~ value (GetOpt imagery (js "length")) ;;
      found <~ braces (or_else length (JNum (num 0))) ;;
      images <~ match imagery with
                | JUndefined | JNull => Some None
                | JArr items => option_map Some (traverse image (firstn 3 items))
                | _ => None
                end ;;
      Some (shown {| found := found; images := images |})
    else Some (hidden available)
  else Some (hidden satelliteData).

(** The callback of [report.groundingSources.map(...)]. *)
Definition link (source : JSValue) : option Link :=
  uri <~ value (Get source (js "uri")) ;;
  href <~ attribute uri ;;
  title <~ value (Get source (js "title")) ;;
  label <~ braces (or_else title uri) ;;
  Some {| href := href; label := label |}.

(** [report.groundingSources && report.groundingSources.length > 0 &&
    (...)].  Only an array has [map]. *)
Definition sourcesSection (report : JSValue) : option (Slot (list Link)) :=
  groundingSources <~ value (Get report (js "groundingSources")) ;;
  if truthy groundingSources then
    length <~ value (Get groundingSources (js "length")) ;;
    n <~ value (ToNumber h length) ;;
    if number_positive n then
      match groundingSources with
      | JArr items => option_map shown (traverse link items)
      | _ => None
      end
    else Some (hidden (JBool false))
  else Some (hidden groundingSources).

(** The last [return] of the component. *)
Definition findings (report : JSValue) : option Report :=
  verdict <~ value (Get report (js "verdict")) ;;
  verdict <~ VerdictDisplay verdict ;;
  confidenceScore <~ value (Get report (js "confidenceScore")) ;;
  confidenceScore <~ braces confidenceScore ;;
  summary <~ value (Get report (js "summary")) ;;
  summary <~ braces summary ;;
  estimatedLocation <~ value (Get report (js "estimatedLocation")) ;;
  address <~ value (Get estimatedLocation (js "address")) ;;
  address <~ braces address ;;
  latitude <~ value (Get estimatedLocation (js "latitude")) ;;
  latitude <~ braces latitude ;;
  longitude <~ value (Get estimatedLocation (js "longitude")) ;;
  longitude <~ braces longitude ;;
  estimatedTime <~ timeSection report ;;
  satelliteImagery <~ satelliteSection report ;;
  evidence <~ value (Get report (js "evidence")) ;;
  locationAnalysis <~ value (Get evidence (js "locationAnalysis")) ;;
  locationAnalysis <~ braces locationAnalysis ;;
  temporalAnalysis <~ value (Get evidence (js "temporalAnalysis")) ;;
  temporalAnalysis <~ braces temporalAnalysis ;;
  satelliteAnalysis <~ value (Get evidence (js "satelliteAnalysis")) ;;
  satelliteAnalysis <~ slot satelliteAnalysis (braces satelliteAnalysis) ;;
  groundingSources <~ sourcesSection report ;;
  Some {| verdict := verdict;
          confidenceScore := confidenceScore;
          summary := summary;
          address := address;
          latitude := latitude;
          longitude := longitude;
          estimatedTime := estimatedTime;
          satelliteImagery := satelliteImagery;
          locationAnalysis := locationAnalysis;
          temporalAnalysis := temporalAnalysis;
          satelliteAnalysis := satelliteAnalysis;
          groundingSources := groundingSources |}.

(** [!report]. *)
Definition absent (report : option JSValue) : bool :=
  match report with Some r => negb (truthy r) | None => true end.

(** The component; [None] when rendering it throws. *)
Definition VerificationReport (report : option JSValue) (isLoading : bool)
    (error : option jsstr) : option Panel :=
  if isLoading && absent report then Some Generating
  else if truthyStr error && absent report then
    Some (AnalysisFailed (match error with Some e => e | None => [] end))
  else if absent report then Some Awaiting
  else option_map Findings (findings (match report with Some r => r | None => JNull end)).

End Render.

End ReportView.

(* ================================================================== *)
(** * The thumbnail route of the proxy                                 *)
(* ================================================================== *)

Module Thumbnail.
Import Js Proxy.
Local Open Scope js_scope.

(** What the route reads of the upstream answer besides [ok]:
    [headers.get('content-type')] and [arrayBuffer()]. *)
Record Image := {
  contentType : option jsstr;
  arrayBuffer : outcome (list N)
}.

Record World := {
  proxy : Proxy.World;
  image : Request -> Image
}.

(** What the route sends: the image with its content type, or a JSON
    envelope. *)
Inductive Reply :=
| sends (contentType : jsstr) (bytes : list N)
| answers (reply : Proxy.Reply).

Section Handler.
Variable w : World.
Let h := host (proxy w).


Definition thumbnailRequest (productId token : jsstr) : Request :=
  {| url := catalogue ++ js "(" ++ productId ++ js ")/Thumbnail/$value";
     method := js "GET";
     headers := [(js "Authorization", js "Bearer " ++ token)];
     form := [] |}.


End Handler.

End Thumbnail.

(* ================================================================== *)
(** * What a computation may touch                                     *)
(* ================================================================== *)

Module Frame.
Import Js GeminiService UseVerification.

(** The phase an event belongs to. *)
Definition site_phase (c : CallSite) : nat :=
  match c with
  | AnalyzeMediaForClues => 1
  | GroundedSearch | Structuring => 2
  | DetermineTimestamp => 4
  | GenerateReport => 5
  end.

Definition phase_of (e : Event) : nat :=
  match e with
  | ReadFile c _ | Generate c _ => site_phase c
  | Fetch _ | ImagerySearch _ _ _ => 3
  end.

Definition in_phase (k : nat) (e : Event) : Prop := phase_of e = k.

(** A computation over a trace only appends to it, and only events that
    satisfy [P]. *)
Definition emits {E A} (P : E -> Prop) (m : M (list E) A) : Prop :=
  forall t r t', m t = (r, t') -> exists evs, t' = t ++ evs /\ Forall P evs.

(** One step of the hook's state: the log grows at its end, the error and
    the loading flag stay, and, when [strict], so does the report. *)
Definition ui_step (strict : bool) (u u' : HookState) : Prop :=
  (exists l, log u' = log u ++ l) /\
  error u' = error u /\
  isLoading u' = isLoading u /\
  (strict = true -> report u' = report u).

Definition frames {A} (strict : bool) (P : Event -> Prop) (m : Run A) : Prop :=
  forall s r s', m s = (r, s') ->
    (exists evs, trace s' = trace s ++ evs /\ Forall P evs) /\
    ui_step strict (ui s) (ui s').

(** The log holds an entry of the given kind and text. *)
Definition logged (k : LogType.t) (msg : jsstr) (l : list LogEntry) : Prop :=
  exists e, In e l /\ type e = k /\ message e = msg.

(** The log ends with the entries of the given kinds and texts. *)
Definition ends_with (tail : list (LogType.t * jsstr)) (l : list LogEntry) : Prop :=
  exists front back,
    l = front ++ back /\ map (fun e => (type e, message e)) back = tail.

(** A run starts from whatever the hook held before, with an empty trace. *)
Definition start (u0 : HookState) : RunState := {| ui := u0; trace := [] |}.

(** The hook's state once [runVerification] has cleared it. *)
Definition cleared : RunState :=
  {| ui := {| isLoading := true; log := []; report := None; error := None |};
     trace := [] |}.

(** [s] after [setIsLoading(false)]. *)
Definition settled (s : RunState) : RunState :=
  {| ui := {| isLoading := false; log := log (ui s); report := report (ui s);
              error := error (ui s) |};
     trace := trace s |}.

Definition errorMessageOf (e : exn) : jsstr :=
  if instanceofError e then err_message e else js "An unknown error occurred.".

(** [s] after the [catch] block has handled [e]. *)
Definition caught (w : World) (e : exn) (s : RunState) : RunState :=
  {| ui := {| isLoading := isLoading (ui s);
              log := log (ui s)
                       ++ [ {| type := LogType.error;
                               message := failed_message (errorMessageOf e);
                               timestamp :=
                                 Date_toISOString (GeminiService.host w)
                                   (logTime w (List.length (log (ui s)))) |} ];
              report := report (ui s);
              error := Some (errorMessageOf e) |};
     trace := trace s |}.

(** [s'] holds everything [s] held, and possibly more at the end. *)
Definition extends (s s' : RunState) : Prop :=
  (exists evs, trace s' = trace s ++ evs) /\
  (exists l, log (ui s') = log (ui s) ++ l).

(** A request of the imagery client that met a transport or upstream
    error: [fetch] threw, the response was not ok, or its body was not
    JSON. *)
Definition fetch_failed (w : World) (url : jsstr) : Prop :=
  match GeminiService.fetch w url with
  | Throw _ => True
  | Ok response => ok response = false \/ exists e, json response = Throw e
  end.

(** The invariant of a satellite result as the specification words it:
    the imagery field is there exactly when [available] is true. *)
Definition imagery_iff_available (result : JSValue) : Prop :=
  Get result (js "imagery") <> Ok JUndefined <->
  Get result (js "available") = Ok (JBool true).

(** The kind of the last entry of a log. *)
Definition lastKind (l : list LogEntry) : option LogType.t :=
  match rev l with
  | e :: _ => Some (type e)
  | [] => None
  end.

(** Neither credential is configured. *)
Definition credentials_absent (e : Proxy.Env) : Prop :=
  Proxy.COPERNICUS_CLIENT_ID e = None /\ Proxy.COPERNICUS_CLIENT_SECRET e = None.

(** A handler outcome that fails fast on a configuration error: nothing
    was asked of the upstream, and the reply names the error. *)
Definition fails_fast (out : outcome Proxy.Reply * list Proxy.Request) : Prop :=
  snd out = [] /\
  exists reply,
    fst out = Ok reply /\
    Get (Proxy.body reply) (js "error") = Ok (JStr (js "AuthConfigurationError")).

(** The body of a 200 reply of the search route, around its imagery. *)
Definition searchResult (items : list JSValue) (location : JSValue) (searchDate : jsstr)
  : JSValue :=
  JObj [ (js "available", JBool (match items with [] => false | _ :: _ => true end));
         (js "imagery", JArr items);
         (js "location", location);
         (js "searchDate", JStr searchDate);
         (js "count", JNum (num (Z.of_nat (List.length items)))) ].


(** An event ends a computation: once it shows in the trace the computation
    has thrown [e], right after it, with the report and the error as they
    were. *)
Definition stops {A} (ev : Event) (e : exn) (m : Run A) : Prop :=
  forall s r s',
    m s = (r, s') -> In ev (trace s') -> ~ In ev (trace s) ->
    r = Throw e /\
    (exists evs, trace s' = evs ++ [ev]) /\
    report (ui s') = report (ui s) /\
    error (ui s') = error (ui s).

(** The events of a method that reads [file] and asks the model from [c]. *)
Definition own (c : CallSite) (file : File) (e : Event) : Prop :=
  e = ReadFile c file \/ exists q, e = Generate c q.

Definition isReadFile (e : Event) : bool :=
  match e with ReadFile _ _ => true | _ => false end.

Definition isGenerate (e : Event) : bool :=
  match e with Generate _ _ => true | _ => false end.

Definition isFetch (e : Event) : bool :=
  match e with Fetch _ => true | _ => false end.

(** How many events of a kind a trace holds. *)
Definition count (kind : Event -> bool) (t : list Event) : nat :=
  List.length (filter kind t).

(** A computation adds at most [n] events of a kind to the trace. *)
Definition costs {A} (kind : Event -> bool) (n : nat) (m : Svc A) : Prop :=
  forall t r t', m t = (r, t') -> exists evs, t' = t ++ evs /\ (count kind evs <= n)%nat.

Definition spends {A} (kind : Event -> bool) (n : nat) (m : Run A) : Prop :=
  forall s r s', m s = (r, s') ->
    exists evs, trace s' = trace s ++ evs /\ (count kind evs <= n)%nat.

(** Each number is at most the next. *)
Fixpoint ascending (l : list nat) : bool :=
  match l with
  | a :: (b :: _) as rest => (a <=? b)%nat && ascending rest
  | _ => true
  end.

(** The trace so far is in order and has not gone past phase [k]. *)
Definition upto (k : nat) (t : list Event) : Prop :=
  ascending (map phase_of t) = true /\ Forall (fun e => (phase_of e <= k)%nat) t.

Definition searchRoute (w : World) : jsstr :=
  BACKEND_API_URL w ++ js "/api/satellite/search?lat=".

(** A request, if the event is one, goes to the search route of the
    configured backend. *)
Definition goes_to_backend (w : World) (e : Event) : bool :=
  match e with
  | Fetch url => startsWith (searchRoute w) url
  | _ => true
  end.

Definition same_date (a b : option jsstr) : bool :=
  match a, b with
  | Some x, Some y => str_eqb x y
  | None, None => true
  | _, _ => false
  end.

(** An imagery search, if the event is one, is for the given date. *)
Definition searches_on (date : option jsstr) (e : Event) : bool :=
  match e with
  | ImagerySearch _ _ d => same_date d date
  | _ => true
  end.

(** The request the search route sends to the catalogue. *)
Definition catalogueRequest (url token : jsstr) : Proxy.Request :=
  {| Proxy.url := url; Proxy.method := js "GET";
     Proxy.headers := [(js "Authorization", js "Bearer " ++ token)];
     Proxy.form := [] |}.

(** What reading [available] of null throws. *)
Definition nullAvailable : exn :=
  TypeError (js "Cannot read properties of null (reading 'available')").

(** The JSON body of an ok response, when that is what a request met. *)
Definition okBody (r : outcome HttpResponse) : option JSValue :=
  match r with
  | Ok response =>
      if ok response then
        match json response with
        | Ok data => Some data
        | Throw _ => None
        end
      else None
  | Throw _ => None
  end.

(** The text of the entry that closes a successful run. *)
Definition verdict_message (verdict confidenceScore : jsstr) : jsstr :=
  cp 128203 ++ js " Verdict: " ++ verdict ++ js " (" ++ confidenceScore
    ++ js "% confidence)".

(** The products a catalogue answer lists. *)
Definition products (data : JSValue) : list JSValue :=
  match Get data (js "value") with
  | Ok (JArr items) => items
  | _ => []
  end.

(** [d] is what the search route makes of the product [item], and bears
    its identifier. *)
Definition describes (w : Proxy.World) (item d : JSValue) : Prop :=
  (forall t, Proxy.descriptor w item t = (Ok d, t)) /\
  Get d (js "id") = Get item (js "Id").

End Frame.

(* ================================================================== *)
(** * A concrete host and concrete worlds, to run the model            *)
(* ================================================================== *)

Module Sample.
Import Js.
Local Open Scope Z_scope.

Definition Z_to_jsstr (z : Z) : jsstr := js (NilZero.string_of_int (Z.to_int z)).

Fixpoint dropZeros (s : jsstr) : jsstr :=
  match s with
  | c :: rest => if (c =? 48)%N then dropZeros rest else s
  | [] => []
  end.

(** [n] in at least [width] digits. *)
Definition padded (width : nat) (n : Z) : jsstr :=
  let d := Z_to_jsstr n in
  repeat 48%N (width - List.length d) ++ d.

(** A decimal in positional notation, without trailing zeros. *)
Definition number_toString (n : number) : jsstr :=
  match n with
  | NaN => js "NaN"
  | Infinity negative => if negative then js "-Infinity" else js "Infinity"
  | Decimal m e =>
      if 0 <=? e then Z_to_jsstr (m * 10 ^ e)
      else
        let scale := 10 ^ (- e) in
        let q := Z.abs m / scale in
        let r := Z.abs m mod scale in
        let sign := if (m <? 0) && negb (Z.abs m =? 0) then js "-" else [] in
        if r =? 0 then sign ++ Z_to_jsstr q
        else sign ++ Z_to_jsstr q ++ js "."
               ++ rev (dropZeros (rev (padded (Z.to_nat (- e)) r)))
  end.

Definition string_toNumber (s : jsstr) : number :=
  match trim s with
  | [] => num 0
  | t => match Json.parse_number t with
         | Some (n, []) => n
         | _ => NaN
         end
  end.

Definition parseFloat (s : jsstr) : number :=
  match Json.parse_number (trimStart s) with
  | Some (n, _) => n
  | None => NaN
  end.

Definition escaped (s : jsstr) : jsstr :=
  flat_map (fun c => if ((c =? 34) || (c =? 92))%N then [92%N; c]
                     else if (c =? 10)%N then [92; 110]%N
                     else [c]) s.

Definition quoted (s : jsstr) : jsstr := [34%N] ++ escaped s ++ [34%N].

Fixpoint commas (l : list jsstr) : jsstr :=
  match l with
  | [] => []
  | [x] => x
  | x :: rest => x ++ js "," ++ commas rest
  end.

Fixpoint stringify (v : JSValue) : jsstr :=
  match v with
  | JUndefined | JNull => js "null"
  | JBool b => if b then js "true" else js "false"
  | JNum n => match n with Decimal _ _ => number_toString n | _ => js "null" end
  | JStr s => quoted s
  | JArr items => js "[" ++ commas (map stringify items) ++ js "]"
  | JObj ps =>
      js "{"
        ++ commas
             ((fix members (l : props) : list jsstr :=
                 match l with
                 | [] => []
                 | (k, JUndefined) :: rest => members rest
                 | (k, x) :: rest => (quoted k ++ js ":" ++ stringify x) :: members rest
                 end) ps)
        ++ js "}"
  end.

(** Days since the epoch of a civil date, and back. *)
Definition days_from_civil (y m d : Z) : Z :=
  let y' := if m <=? 2 then y - 1 else y in
  let era := y' / 400 in
  let yoe := y' - era * 400 in
  let doy := (153 * (if 2 <? m then m - 3 else m + 9) + 2) / 5 + d - 1 in
  let doe := yoe * 365 + yoe / 4 - yoe / 100 + doy in
  era * 146097 + doe - 719468.

Definition civil_from_days (z : Z) : Z * Z * Z :=
  let z := z + 719468 in
  let era := z / 146097 in
  let doe := z - era * 146097 in
  let yoe := (doe - doe / 1460 + doe / 36524 - doe / 146096) / 365 in
  let doy := doe - (365 * yoe + yoe / 4 - yoe / 100) in
  let mp := (5 * doy + 2) / 153 in
  let d := doy - (153 * mp + 2) / 5 + 1 in
  let m := if mp <? 10 then mp + 3 else mp - 9 in
  (yoe + era * 400 + (if m <=? 2 then 1 else 0), m, d).

Definition msPerDay : Z := 86400000.

(** Exactly [n] digits, as a number, and what follows. *)
Fixpoint fixedDigits (n : nat) (acc : Z) (s : jsstr) : option (Z * jsstr) :=
  match n with
  | O => Some (acc, s)
  | S k =>
      match s with
      | c :: rest =>
          match Json.digit c with
          | Some d => fixedDigits k (acc * 10 + d) rest
          | None => None
          end
      | [] => None
      end
  end.

Definition expect (c : N) (s : jsstr) : option jsstr :=
  match s with
  | x :: rest => if (x =? c)%N then Some rest else None
  | [] => None
  end.

(** The forms YYYY-MM-DD and YYYY-MM-DDTHH:MM:SS(.mmm)(Z), read as UTC. *)
Definition date_parse (s : jsstr) : option Z :=
  match fixedDigits 4 0 s with
  | None => None
  | Some (y, s1) =>
  match expect 45 s1 with None => None | Some s2 =>
  match fixedDigits 2 0 s2 with None => None | Some (m, s3) =>
  match expect 45 s3 with None => None | Some s4 =>
  match fixedDigits 2 0 s4 with None => None | Some (d, s5) =>
    if negb ((1 <=? m) && (m <=? 12) && (1 <=? d) && (d <=? 31)) then None else
    let day := days_from_civil y m d * msPerDay in
    match s5 with
    | [] => Some day
    | _ =>
      match expect 84 s5 with None => None | Some s6 =>
      match fixedDigits 2 0 s6 with None => None | Some (hh, s7) =>
      match expect 58 s7 with None => None | Some s8 =>
      match fixedDigits 2 0 s8 with None => None | Some (mm, s9) =>
      match expect 58 s9 with None => None | Some s10 =>
      match fixedDigits 2 0 s10 with None => None | Some (ss, s11) =>
        let base := day + ((hh * 60 + mm) * 60 + ss) * 1000 in
        let '(ms, s12) :=
          match expect 46 s11 with
          | Some r => match fixedDigits 3 0 r with
                      | Some (x, r') => (x, r')
                      | None => (0, s11)
                      end
          | None => (0, s11)
          end in
        match s12 with
        | [] => Some (base + ms)
        | [90%N] => Some (base + ms)
        | _ => None
        end
      end end end end end end
    end
  end end end end end.

Definition date_toISOString (t : Z) : jsstr :=
  let '(y, m, d) := civil_from_days (t / msPerDay) in
  let r := t mod msPerDay in
  let year :=
    if (0 <=? y) && (y <=? 9999) then padded 4 y
    else (if y <? 0 then js "-" else js "+") ++ padded 6 (Z.abs y) in
  year ++ js "-" ++ padded 2 m ++ js "-" ++ padded 2 d ++ js "T"
    ++ padded 2 (r / 3600000) ++ js ":" ++ padded 2 (r / 60000 mod 60) ++ js ":"
    ++ padded 2 (r / 1000 mod 60) ++ js "." ++ padded 3 (r mod 1000) ++ js "Z".

Definition date_toLocaleDateString (d : option Z) : jsstr :=
  match d with
  | None => js "Invalid Date"
  | Some t =>
      let '(y, m, d) := civil_from_days (t / msPerDay) in
      Z_to_jsstr m ++ js "/" ++ Z_to_jsstr d ++ js "/" ++ Z_to_jsstr y
  end.

Definition number_toTime (n : number) : option Z :=
  match n with
  | Decimal m e =>
      timeClip (if 0 <=? e then m * 10 ^ e else Z.quot m (10 ^ (- e)))
  | _ => None
  end.

(** An engine whose local time zone is UTC. *)
Definition sampleHost : Host :=
  {| JSON_parse := Json.parse;
     JSON_stringify := stringify;
     Number_toString := number_toString;
     String_toNumber := string_toNumber;
     Js.parseFloat := parseFloat;
     Date_parse := date_parse;
     Number_toTime := number_toTime;
     Date_toISOString := date_toISOString;
     Date_minus30Days := fun t => timeClip (t - 30 * msPerDay);
     Date_toLocaleDateString := date_toLocaleDateString |}.


(** ** Worlds for the pipeline *)
Section Pipeline.
Import GeminiService UseVerification.

Definition photo : File :=
  {| file_type := js "image/jpeg"; file_name := js "street.jpg" |}.

Definition cluesText : jsstr :=
  js "minaret with a green dome, date palms, Arabic shop signs, concrete apartment blocks".

Definition groundedText : jsstr :=
  js "The clues match Omar Al-Mukhtar Street, Rimal, Gaza City (31.5203, 34.4446).".

Definition groundedAnswer : GenResponse :=
  {| text := Some groundedText;
     groundingChunks :=
       Some [ {| web := Some {| title := Some (js "Rimal");
                                uri := Some (js "https://en.wikipedia.org/wiki/Rimal") |} |};
              {| web := None |} ] |}.

Definition locationJson : jsstr :=
  Json.dq (js "```json
{'address': 'Omar Al-Mukhtar Street, Gaza City', 'latitude': 31.5203, 'longitude': 34.4446, 'confidence': 85, 'accuracy': 'neighborhood'}
```").

(** The Royal Observatory stands on the prime meridian. *)
Definition greenwichJson : jsstr :=
  Json.dq (js "{'address': 'Royal Observatory, Greenwich, London', 'latitude': 51.4779, 'longitude': 0.0, 'confidence': 90, 'accuracy': 'precise'}").

Definition timeJson : jsstr :=
  Json.dq (js "{'estimatedTimeOfDay': '14:00-16:00', 'confidence': 70, 'primaryMethod': 'shadows', 'shadowAnalysis': 'short shadows to the north-east', 'reasoning': 'Shadows are about half as long as the poles are tall.'}").

Definition reportJson : jsstr :=
  Json.dq (js "{'verdict': 'Verified', 'confidenceScore': 82, 'estimatedLocation': {'address': 'Omar Al-Mukhtar Street, Gaza City', 'latitude': 31.5203, 'longitude': 34.4446}, 'estimatedTime': '14:00-16:00', 'summary': 'Location and time agree with the evidence.', 'evidence': {'visualClues': ['green dome'], 'locationAnalysis': 'Signs and skyline match.', 'temporalAnalysis': 'Short shadows.', 'satelliteAnalysis': 'Recent imagery shows the same blocks.'}}").

Definition prose : jsstr := js "I am sorry, I cannot produce that.".

Definition catalogHit : outcome HttpResponse :=
  Ok {| ok := true; status := 200; statusText := js "OK";
        json := Ok (JObj [ (js "available", JBool true);
                           (js "imagery",
                            JArr [JObj [ (js "id", JStr (js "12345-abcde"));
                                         (js "name", JStr (js "S2A_MSIL2A_20241015T083421"));
                                         (js "date", JStr (js "2024-10-15T08:34:21.000Z"));
                                         (js "cloudCover", JNum (Decimal 52 (-1)));
                                         (js "thumbnail", JNull) ]]);
                           (js "location", JObj [ (js "lat", JNum (Decimal 315203 (-4)));
                                                  (js "lon", JNum (Decimal 344446 (-4))) ]);
                           (js "searchDate", JStr (js "2024-10-23"));
                           (js "count", JNum (num 1)) ]) |}.

Definition backendDown : outcome HttpResponse :=
  Throw (TypeError (js "Failed to fetch")).

Definition backendError : outcome HttpResponse :=
  Ok {| ok := false; status := 500; statusText := js "Internal Server Error";
        json := Ok (JObj [ (js "error", JStr (js "Search failed"));
                           (js "message", JStr (js "Authentication failed"));
                           (js "details", JStr (js "Authentication failed")) ]) |}.

(** What the collaborators answer in one run. *)
Record Script := {
  structuring : jsstr;
  timing : jsstr;
  synthesis : jsstr;
  backend : outcome HttpResponse
}.

Definition said (t : jsstr) : outcome GenResponse :=
  Ok {| text := Some t; groundingChunks := None |}.

Definition world (sc : Script) : World :=
  {| GeminiService.host := sampleHost;
     API_KEY := Some (js "test-key");
     VITE_BACKEND_API_URL := None;
     readAsDataURL := fun _ _ => Some (js "data:image/jpeg;base64,/9j/4AAQSkZJRg==");
     generateContent := fun site _ =>
       match site with
       | AnalyzeMediaForClues => said cluesText
       | GroundedSearch => Ok groundedAnswer
       | Structuring => said (structuring sc)
       | DetermineTimestamp => said (timing sc)
       | GenerateReport => said (synthesis sc)
       end;
     GeminiService.fetch := fun _ => backend sc;
     GeminiService.now := fun _ => 1729670400000;
     logTime := fun k => 1729670400000 + 1000 * Z.of_nat k |}.

Definition nominal : Script :=
  {| structuring := locationJson; timing := timeJson; synthesis := reportJson;
     backend := catalogHit |}.

Definition badLocation : Script :=
  {| structuring := prose; timing := timeJson; synthesis := reportJson;
     backend := backendDown |}.

Definition badTime : Script :=
  {| structuring := locationJson; timing := prose; synthesis := reportJson;
     backend := catalogHit |}.

Definition badReport : Script :=
  {| structuring := locationJson; timing := timeJson; synthesis := prose;
     backend := catalogHit |}.

Definition greenwich : Script :=
  {| structuring := greenwichJson; timing := timeJson; synthesis := reportJson;
     backend := catalogHit |}.

(** A world without the API key. *)
Definition keyless : World :=
  {| GeminiService.host := sampleHost;
     API_KEY := None;
     VITE_BACKEND_API_URL := None;
     readAsDataURL := readAsDataURL (world nominal);
     generateContent := generateContent (world nominal);
     GeminiService.fetch := GeminiService.fetch (world nominal);
     GeminiService.now := GeminiService.now (world nominal);
     logTime := logTime (world nominal) |}.

Definition idle : HookState :=
  {| isLoading := false; log := []; report := None; error := None |}.

Definition fresh : RunState := Frame.start idle.

(** A run with a claimed date and time, in the default region. *)
Definition run (w : World) : outcome unit * RunState :=
  runVerification w photo (js "2024-10-23T15:30") (js "Gaza Strip") fresh.

Definition emptyRequest : GenRequest :=
  {| model := []; inlineData := None; holes := []; googleSearch := false;
     thinkingBudget := None |}.

(** The request a run sent from a call site. *)
Fixpoint requestOf (site : CallSite) (t : list Event) : GenRequest :=
  match t with
  | [] => emptyRequest
  | Generate c q :: rest =>
      if (CallSite_eqb site c) then q else requestOf site rest
  | _ :: rest => requestOf site rest
  end.

(** What [greenwichJson] says. *)
Definition greenwichEstimate : JSValue :=
  JObj [ (js "address", JStr (js "Royal Observatory, Greenwich, London"));
         (js "latitude", JNum (Decimal 514779 (-4)));
         (js "longitude", JNum (Decimal 0 (-1)));
         (js "confidence", JNum (num 90));
         (js "accuracy", JStr (js "precise")) ].

End Pipeline.

(** ** Worlds for the proxy *)
Section Upstream.
Import Proxy.

Definition product : JSValue :=
  JObj [ (js "Id", JStr (js "12345-abcde"));
         (js "Name", JStr (js "S2A_MSIL2A_20241015T083421"));
         (js "ContentDate", JObj [(js "Start", JStr (js "2024-10-15T08:34:21.000Z"))]);
         (js "CloudCover", JNum (Decimal 52 (-1)));
         (js "S3Path", JStr (js "/eodata/Sentinel-2/MSI/L2A/2024/10/15")) ].

Definition formValue (k : jsstr) (r : Request) : jsstr :=
  match find (fun kv => str_eqb (fst kv) k) (form r) with
  | Some kv => snd kv
  | None => []
  end.

(** An identity provider that knows one client, and a catalogue holding
    the given products. *)
Definition upstream (products : list JSValue) (r : Request) : outcome HttpResponse :=
  if str_eqb (url r) (js "https://identity.dataspace.copernicus.eu/auth/realms/CDSE/protocol/openid-connect/token")
  then
    if str_eqb (formValue (js "client_id") r) (js "sh-client")
       && str_eqb (formValue (js "client_secret") r) (js "s3cret")
    then Ok {| ok := true; status := 200; statusText := js "OK";
               json := Ok (JObj [(js "access_token", JStr (js "eyJhbGciOi"))]) |}
    else Ok {| ok := false; status := 401; statusText := js "Unauthorized";
               json := Ok (JObj [(js "error", JStr (js "invalid_client"))]) |}
  else Ok {| ok := true; status := 200; statusText := js "OK";
             json := Ok (JObj [(js "value", JArr products)]) |}.

Definition configured : Env :=
  {| COPERNICUS_CLIENT_ID := Some (js "sh-client");
     COPERNICUS_CLIENT_SECRET := Some (js "s3cret") |}.

Definition unconfigured : Env :=
  {| COPERNICUS_CLIENT_ID := None; COPERNICUS_CLIENT_SECRET := None |}.

Definition proxy (e : Env) (products : list JSValue) : Proxy.World :=
  {| Proxy.host := sampleHost;
     env := e;
     Proxy.fetch := upstream products;
     Proxy.now := 1729670400000 |}.

Definition gaza : Query :=
  {| lat := JStr (js "31.5"); lon := JStr (js "34.45");
     startDate := JStr (js "2024-10-01"); endDate := JStr (js "2024-10-23");
     limit := JStr (js "3") |}.

Definition greenwichQuery : Query :=
  {| lat := JStr (js "51.4779"); lon := JStr (js "0");
     startDate := JStr (js "2024-10-01"); endDate := JStr (js "2024-10-23");
     limit := JUndefined |}.

(** The reply to [gaza] of a catalogue holding [product]. *)
Definition hit : Reply :=
  {| statusCode := 200;
     body :=
       Frame.searchResult
         [JObj [ (js "id", JStr (js "12345-abcde"));
                 (js "name", JStr (js "S2A_MSIL2A_20241015T083421"));
                 (js "date", JStr (js "2024-10-15T08:34:21.000Z"));
                 (js "cloudCover", JNum (Decimal 52 (-1)));
                 (js "thumbnail",
                  JStr (js "https://catalogue.dataspace.copernicus.eu/odata/v1/Products(12345-abcde)/Thumbnail/$value")) ]]
         (JObj [ (js "lat", JNum (Decimal 315 (-1)));
                 (js "lon", JNum (Decimal 3445 (-2))) ])
         (js "2024-10-23") |}.

Definition noLatitude : Query :=
  {| lat := JUndefined; lon := JStr (js "34.45");
     startDate := JUndefined; endDate := JUndefined; limit := JUndefined |}.

End Upstream.

(** ** Further worlds and inputs *)
Section Further.
Import GeminiService UseVerification.

(** The two sides of the comma in the data URL of [world]. *)
Definition dataUrlHeader : jsstr := js "data:image/jpeg;base64".
Definition dataUrlPayload : jsstr := js "/9j/4AAQSkZJRg==".

(** [timeJson] as the model usually wraps it. *)
Definition fencedTime : jsstr := js "```json" ++ [10%N] ++ timeJson ++ [10%N] ++ js "```".

(** A world whose file reader reports an error. *)
Definition unreadable : World :=
  {| GeminiService.host := sampleHost;
     API_KEY := Some (js "test-key");
     VITE_BACKEND_API_URL := None;
     readAsDataURL := fun _ _ => None;
     generateContent := generateContent (world nominal);
     GeminiService.fetch := GeminiService.fetch (world nominal);
     GeminiService.now := GeminiService.now (world nominal);
     logTime := logTime (world nominal) |}.

Definition exhausted : exn := Error (js "429 Resource has been exhausted").

(** A world whose model refuses the request of phase 4. *)
Definition outage : World :=
  {| GeminiService.host := sampleHost;
     API_KEY := Some (js "test-key");
     VITE_BACKEND_API_URL := None;
     readAsDataURL := readAsDataURL (world nominal);
     generateContent := fun site q =>
       match site with
       | DetermineTimestamp => Throw exhausted
       | _ => generateContent (world nominal) site q
       end;
     GeminiService.fetch := GeminiService.fetch (world nominal);
     GeminiService.now := GeminiService.now (world nominal);
     logTime := logTime (world nominal) |}.

Definition nullReply : HttpResponse :=
  {| ok := true; status := 200; statusText := js "OK"; json := Ok JNull |}.

(** A backend that answers ok, with the body null. *)
Definition nullBackend : Script :=
  {| structuring := locationJson; timing := timeJson; synthesis := reportJson;
     backend := Ok nullReply |}.

(** The address a run fetched. *)
Fixpoint urlOf (t : list Event) : jsstr :=
  match t with
  | [] => []
  | Fetch url :: _ => url
  | _ :: rest => urlOf rest
  end.

(** The report a run left. *)
Definition reportOf (out : outcome unit * RunState) : JSValue :=
  match report (ui (snd out)) with Some r => r | None => JNull end.

(** What the form holds when [run] is started from it. *)
Definition form : App.State :=
  {| App.file := Some photo;
     App.claimedDate := js "2024-10-23";
     App.claimedTime := js "15:30";
     App.locationContext := js "Gaza Strip" |}.

Definition rimal : JSValue :=
  JObj [ (js "address", JStr (js "Omar Al-Mukhtar Street, Gaza City"));
         (js "latitude", JNum (Decimal 315203 (-4)));
         (js "longitude", JNum (Decimal 344446 (-4)));
         (js "confidence", JNum (num 85));
         (js "accuracy", JStr (js "neighborhood")) ].

Definition afternoon : JSValue :=
  JObj [ (js "estimatedTimeOfDay", JStr (js "14:00-16:00"));
         (js "confidence", JNum (num 70)) ].

(** One call of the report method, with one source and no imagery. *)
Definition synthesised : outcome JSValue * list Event :=
  generateVerificationReport (world nominal) photo (JStr cluesText) rimal afternoon
    (js "2024-10-23T15:30") (sourcesOf groundedAnswer) JNull [].

Definition synthesisedReport : JSValue :=
  match fst synthesised with Ok r => r | Throw _ => JNull end.

Definition tokenReply : HttpResponse :=
  {| ok := true; status := 200; statusText := js "OK";
     json := Ok (JObj [(js "access_token", JStr (js "eyJhbGciOi"))]) |}.

(** A search that names an end date no engine can read. *)
Definition soon : Proxy.Query :=
  {| Proxy.lat := JStr (js "31.5"); Proxy.lon := JStr (js "34.45");
     Proxy.startDate := JUndefined; Proxy.endDate := JStr (js "soon");
     Proxy.limit := JUndefined |}.

(** A search that names the place only. *)
Definition placeOnly : Proxy.Query :=
  {| Proxy.lat := JStr (js "31.5"); Proxy.lon := JStr (js "34.45");
     Proxy.startDate := JUndefined; Proxy.endDate := JUndefined;
     Proxy.limit := JUndefined |}.

(** What fetch throws when the name of the upstream cannot be resolved. *)
Definition dnsFailure : exn :=
  {| instanceofError := true; err_message := js "fetch failed"; err_code := None;
     err_causeCode := Some (js "EAI_AGAIN") |}.

Definition offline : Proxy.World :=
  {| Proxy.host := sampleHost;
     Proxy.env := configured;
     Proxy.fetch := fun _ => Throw dnsFailure;
     Proxy.now := 1729670400000 |}.

(** The engine's short date of the United States: "Oct 15, 2024". *)
Definition monthName (m : Z) : jsstr :=
  nth (Z.to_nat (m - 1))
    [ js "Jan"; js "Feb"; js "Mar"; js "Apr"; js "May"; js "Jun";
      js "Jul"; js "Aug"; js "Sep"; js "Oct"; js "Nov"; js "Dec" ] [].

Definition date_format (d : option Z) : jsstr :=
  match d with
  | None => js "Invalid Date"
  | Some t =>
      let '(y, m, d) := civil_from_days (t / msPerDay) in
      monthName m ++ js " " ++ Z_to_jsstr d ++ js ", " ++ Z_to_jsstr y
  end.

Definition intl : ReportView.Intl := {| ReportView.dateFormat := date_format |}.

(** A model that answers the report request with an empty object. *)
Definition bare : Script :=
  {| structuring := locationJson; timing := timeJson; synthesis := js "{}";
     backend := catalogHit |}.

(** What the report view shows once [run] has returned. *)
Definition viewAfter (out : outcome unit * RunState) : option ReportView.Panel :=
  ReportView.VerificationReport sampleHost intl
    (report (ui (snd out))) (isLoading (ui (snd out))) (error (ui (snd out))).

(** The descriptor of [product]. *)
Definition described : JSValue :=
  JObj [ (js "id", JStr (js "12345-abcde"));
         (js "name", JStr (js "S2A_MSIL2A_20241015T083421"));
         (js "date", JStr (js "2024-10-15T08:34:21.000Z"));
         (js "cloudCover", JNum (Decimal 52 (-1)));
         (js "thumbnail",
          JStr (js "https://catalogue.dataspace.copernicus.eu/odata/v1/Products(12345-abcde)/Thumbnail/$value")) ].

End Further.

End Sample.


(* ================================================================== *)
(** * Properties                                                       *)
(* ================================================================== *)

Import Js GeminiService UseVerification Frame.

Unset Implicit Arguments.

(** ** The monad *)

Lemma bind_inv {S A B} (m : M S A) (f : A -> M S B) s r s' :
  bind m f s = (r, s') ->
  (exists a s1, m s = (Ok a, s1) /\ f a s1 = (r, s')) \/
  (exists e, m s = (Throw e, s') /\ r = Throw e).
Proof.
  unfold bind. destruct (m s) as [[a | e] s1]; intros H.
  - left. eauto.
  - right. inversion H; subst. eauto.
Qed.

Lemma lift_inv {S A} (o : outcome A) (s : S) r s' :
  lift o s = (r, s') -> o = r /\ s' = s.
Proof. unfold lift. intros H; inversion H; auto. Qed.

(** ** Service methods only append their own events *)

Lemma emits_weaken {Ev A} (P Q : Ev -> Prop) (m : M (list Ev) A) :
  (forall e, P e -> Q e) -> emits P m -> emits Q m.
Proof.
  intros PQ H t r t' E. destruct (H _ _ _ E) as (evs & -> & F).
  exists evs; split; [reflexivity | eapply Forall_impl; eauto].
Qed.

Lemma emits_ret {Ev A} (P : Ev -> Prop) (a : A) : emits P (ret a).
Proof. intros t r t' E; inversion E; subst. exists []. now rewrite app_nil_r. Qed.

Lemma emits_throw {Ev A} (P : Ev -> Prop) e : emits P (@throw _ A e).
Proof. intros t r t' E; inversion E; subst. exists []. now rewrite app_nil_r. Qed.

Lemma emits_lift {Ev A} (P : Ev -> Prop) (o : outcome A) : emits P (lift o).
Proof. intros t r t' E; inversion E; subst. exists []. now rewrite app_nil_r. Qed.

Lemma emits_emit (P : Event -> Prop) e : P e -> emits P (emit e).
Proof. intros Pe t r t' E; inversion E; subst. exists [e]. auto. Qed.

Lemma emits_bind {Ev A B} (P : Ev -> Prop) (m : M (list Ev) A)
    (f : A -> M (list Ev) B) :
  emits P m -> (forall a, emits P (f a)) -> emits P (bind m f).
Proof.
  intros Hm Hf t r t' E. apply bind_inv in E as [(a & t1 & E1 & E2) | (e & E1 & ->)].
  - destruct (Hm _ _ _ E1) as (ev1 & -> & F1).
    destruct (Hf _ _ _ _ E2) as (ev2 & -> & F2).
    exists (ev1 ++ ev2). rewrite app_assoc. split; [reflexivity | now apply Forall_app].
  - eauto.
Qed.

Lemma emits_try_catch {Ev A} (P : Ev -> Prop) (m : M (list Ev) A)
    (k : exn -> M (list Ev) A) :
  emits P m -> (forall e, emits P (k e)) -> emits P (try_catch m k).
Proof.
  intros Hm Hk t r t' E. unfold try_catch in E.
  destruct (m t) as [[a | e] t1] eqn:E1.
  - inversion E; subst. eauto.
  - destruct (Hm _ _ _ E1) as (ev1 & -> & F1).
    destruct (Hk _ _ _ _ E) as (ev2 & -> & F2).
    exists (ev1 ++ ev2). rewrite app_assoc. split; [reflexivity | now apply Forall_app].
Qed.

Ltac emits_step :=
  lazymatch goal with
  | |- emits _ (bind _ _) => apply emits_bind; [ | intros ? ]
  | |- emits _ (try_catch _ _) => apply emits_try_catch; [ | intros ? ]
  | |- emits _ (ret _) => apply emits_ret
  | |- emits _ (throw _) => apply emits_throw
  | |- emits _ (lift _) => apply emits_lift
  | |- emits _ (emit _) => apply emits_emit; first [reflexivity | exact I]
  | |- emits _ (if ?b then _ else _) => destruct b
  | |- emits _ (match ?x with _ => _ end) => destruct x
  | |- emits _ (let _ := _ in _) => cbv zeta
  end.

Lemma fileToBase64_emits w site file :
  emits (in_phase (site_phase site)) (fileToBase64 w site file).
Proof. unfold fileToBase64. repeat emits_step. Qed.

Lemma getSatelliteImagery_emits w lat lon date :
  emits (in_phase 3) (getSatelliteImagery w lat lon date).
Proof. unfold getSatelliteImagery. repeat emits_step. Qed.

Lemma analyzeMediaForClues_emits w file ctx :
  emits (in_phase 1) (analyzeMediaForClues w file ctx).
Proof.
  unfold analyzeMediaForClues. emits_step.
  - apply (fileToBase64_emits w AnalyzeMediaForClues).
  - repeat emits_step.
Qed.

Lemma findLocationWithGrounding_emits w clues ctx :
  emits (in_phase 2) (findLocationWithGrounding w clues ctx).
Proof. unfold findLocationWithGrounding. repeat emits_step. Qed.

Lemma determineTimestamp_emits w file loc date :
  emits (in_phase 4) (determineTimestamp w file loc date).
Proof.
  unfold determineTimestamp. emits_step.
  - apply (fileToBase64_emits w DetermineTimestamp).
  - repeat emits_step.
Qed.

Lemma generateVerificationReport_emits w file clues loc time ts sources sat :
  emits (in_phase 5) (generateVerificationReport w file clues loc time ts sources sat).
Proof.
  unfold generateVerificationReport. emits_step.
  - apply (fileToBase64_emits w GenerateReport).
  - repeat emits_step.
Qed.

(** ** The hook's phases only append to the log and to the trace *)

Lemma ui_step_refl strict u : ui_step strict u u.
Proof. repeat split; auto. exists []. now rewrite app_nil_r. Qed.

Lemma ui_step_trans strict u1 u2 u3 :
  ui_step strict u1 u2 -> ui_step strict u2 u3 -> ui_step strict u1 u3.
Proof.
  intros ((l1 & L1) & E1 & I1 & R1) ((l2 & L2) & E2 & I2 & R2).
  repeat split; try congruence.
  - exists (l1 ++ l2). rewrite L2, L1. now rewrite app_assoc.
  - intros S. rewrite R2, R1; auto.
Qed.

Lemma ui_step_loose strict u u' : ui_step strict u u' -> ui_step false u u'.
Proof. intros (L & E & I & _). repeat split; auto. discriminate. Qed.

Lemma frames_weaken {A} strict (P Q : Event -> Prop) (m : Run A) :
  (forall e, P e -> Q e) -> frames strict P m -> frames false Q m.
Proof.
  intros PQ H s r s' E. destruct (H _ _ _ E) as ((evs & T & F) & U). split.
  - exists evs; split; [assumption | eapply Forall_impl; eauto].
  - eapply ui_step_loose; eauto.
Qed.

Lemma frames_quiet {A} strict P (m : Run A) :
  (forall s r s', m s = (r, s') -> s' = s) -> frames strict P m.
Proof.
  intros H s r s' E. rewrite (H _ _ _ E). split.
  - exists []. now rewrite app_nil_r.
  - apply ui_step_refl.
Qed.

Lemma frames_ret {A} strict P (a : A) : frames strict P (ret a).
Proof. apply frames_quiet. intros s r s' E; now inversion E. Qed.

Lemma frames_lift {A} strict P (o : outcome A) : frames strict P (lift o).
Proof. apply frames_quiet. intros s r s' E; now inversion E. Qed.

Lemma frames_bind {A B} strict P (m : Run A) (f : A -> Run B) :
  frames strict P m -> (forall a, frames strict P (f a)) -> frames strict P (bind m f).
Proof.
  intros Hm Hf s r s' E. apply bind_inv in E as [(a & s1 & E1 & E2) | (e & E1 & ->)].
  - destruct (Hm _ _ _ E1) as ((ev1 & T1 & F1) & U1).
    destruct (Hf _ _ _ _ E2) as ((ev2 & T2 & F2) & U2). split.
    + exists (ev1 ++ ev2). rewrite T2, T1, app_assoc.
      split; [reflexivity | now apply Forall_app].
    + eapply ui_step_trans; eauto.
  - eauto.
Qed.

Lemma frames_call {A} strict P (m : Svc A) : emits P m -> frames strict P (call m).
Proof.
  intros Hm s r s' E. unfold call in E.
  destruct (m (trace s)) as [r1 t1] eqn:E1. inversion E; subst; simpl.
  split; [eauto | apply ui_step_refl].
Qed.

Lemma frames_addLogEntry w strict P k msg : frames strict P (addLogEntry w k msg).
Proof.
  intros s r s' E. inversion E; subst; simpl. split.
  - exists []. now rewrite app_nil_r.
  - repeat split; auto. eexists; reflexivity.
Qed.

Lemma frames_setReport P r : frames false P (setReport r).
Proof.
  intros s r0 s' E. inversion E; subst; simpl. split.
  - exists []. now rewrite app_nil_r.
  - repeat split; auto; [exists []; now rewrite app_nil_r | discriminate].
Qed.

Lemma frames_forEach {A} strict P (f : A -> Run unit) l :
  (forall a, frames strict P (f a)) -> frames strict P (forEach f l).
Proof.
  intros Hf. induction l as [| a l IH]; simpl.
  - apply frames_ret.
  - apply frames_bind; auto.
Qed.

Ltac frames_step w :=
  lazymatch goal with
  | |- frames _ _ (bind _ _) => apply frames_bind; [ | intros ? ]
  | |- frames _ _ (ret _) => apply frames_ret
  | |- frames _ _ (lift _) => apply frames_lift
  | |- frames _ _ (addLogEntry _ _ _) => apply (frames_addLogEntry w)
  | |- frames false _ (setReport _) => apply frames_setReport
  | |- frames _ _ (forEach _ _) => apply frames_forEach; intros ?
  | |- frames _ _ (if ?b then _ else _) => destruct b
  | |- frames _ _ (match ?x with _ => _ end) => destruct x
  | |- frames _ _ (let _ := _ in _) => cbv zeta
  end.

Lemma preamble_frames w ts ctx P : frames true P (preamble w ts ctx).
Proof. unfold preamble. repeat frames_step w. Qed.

Lemma phase1_frames w file ctx : frames true (in_phase 1) (phase1 w file ctx).
Proof.
  unfold phase1. frames_step w; [frames_step w | ].
  frames_step w; [apply frames_call, analyzeMediaForClues_emits | ].
  repeat frames_step w.
Qed.

Lemma phase2_frames w clues ctx : frames true (in_phase 2) (phase2 w clues ctx).
Proof.
  unfold phase2. frames_step w; [frames_step w | ].
  frames_step w; [apply frames_call, findLocationWithGrounding_emits | ].
  repeat frames_step w.
Qed.

Lemma phase3_frames w ts loc : frames true (in_phase 3) (phase3 w ts loc).
Proof.
  unfold phase3. frames_step w; [frames_step w | ].
  frames_step w; [ | frames_step w].
  do 3 (frames_step w; [frames_step w | ]). cbv zeta.
  frames_step w; [apply frames_call, getSatelliteImagery_emits | ].
  repeat frames_step w.
Qed.

Lemma phase4_frames w file ts loc : frames true (in_phase 4) (phase4 w file ts loc).
Proof.
  unfold phase4. frames_step w; [frames_step w | ].
  frames_step w; [apply frames_call, determineTimestamp_emits | ].
  repeat frames_step w.
Qed.

Lemma phase5_frames w file ts clues loc time sources sat :
  frames false (in_phase 5) (phase5 w file ts clues loc time sources sat).
Proof.
  unfold phase5. frames_step w; [frames_step w | ].
  frames_step w; [apply frames_call, generateVerificationReport_emits | ].
  frames_step w; [apply frames_setReport | ].
  repeat frames_step w.
Qed.

(** ** What each model-backed method returns *)

Lemma parseFenced_fails w response txt :
  text response = Some txt ->
  JSON_parse (GeminiService.host w) (trim (replaceFences txt)) = None ->
  exists e, parseFenced w response = Throw e.
Proof. intros T P. unfold parseFenced. rewrite T, P. eauto. Qed.

(** Unfolds the monad in [H] and splits on what its next step scrutinises. *)
Ltac step_in H :=
  match type of H with
  | context [match ?x with _ => _ end] =>
      lazymatch x with
      | context [generateContent] => fail
      | _ => destruct x eqn:?
      end
  end.

Ltac no_event :=
  left; eexists _, _; split;
  [ rewrite <- ?app_assoc; simpl; reflexivity
  | split; [ reflexivity
           | intros ? X; simpl in X;
             repeat (destruct X as [X | X]; [discriminate X | ]); exact X ] ].

Lemma findLocationWithGrounding_cases w clues ctx t r t' :
  findLocationWithGrounding w clues ctx t = (r, t') ->
  (exists evs e, t' = t ++ evs /\ r = Throw e /\
                 forall req, ~ In (Generate Structuring req) evs) \/
  (exists req1 resp1 req2,
      t' = t ++ [Generate GroundedSearch req1; Generate Structuring req2] /\
      generateContent w GroundedSearch req1 = Ok resp1 /\
      r = match generateContent w Structuring req2 with
          | Throw e => Throw e
          | Ok resp2 =>
              Ok (match parseFenced w resp2 with
                  | Ok d => d
                  | Throw _ => fallbackLocation (fromOption (text resp1))
                  end, sourcesOf resp1)
          end).
Proof.
  unfold findLocationWithGrounding, bind, lift, emit, modify, try_catch, ret, throw.
  intros H.
  destruct (ToString (GeminiService.host w) clues) as [sclues | e] eqn:E0.
  2:{ inversion H; subst. left. exists [], e. rewrite app_nil_r. auto. }
  match type of H with
  | context [generateContent w GroundedSearch ?q] =>
      destruct (generateContent w GroundedSearch q) as [resp1 | e] eqn:E1
  end.
  2:{ inversion H; subst. no_event. }
  destruct (ToString (GeminiService.host w) (fromOption (text resp1))) as [stext | e] eqn:E2.
  2:{ inversion H; subst. no_event. }
  match type of H with
  | context [generateContent w Structuring ?q] =>
      right; eexists _, resp1, q; split; [ | split; [exact E1 | ] ]
  end.
  - match type of H with
    | context [generateContent w Structuring ?q] =>
        destruct (generateContent w Structuring q) as [resp2 | e]
    end.
    + destruct (parseFenced w resp2); inversion H; subst; now rewrite <- app_assoc.
    + inversion H; subst; now rewrite <- app_assoc.
  - revert H.
    match goal with
    | |- context [generateContent w Structuring ?q] =>
        destruct (generateContent w Structuring q) as [resp2 | e]
    end.
    + destruct (parseFenced w resp2); intros H; inversion H; reflexivity.
    + intros H; inversion H; reflexivity.
Qed.

Lemma fileToBase64_cases w site file t r t' :
  fileToBase64 w site file t = (r, t') ->
  t' = t ++ [ReadFile site file] /\
  r = match readAsDataURL w site file with
      | Some result => Ok (fromOption (split_second 44 result))
      | None => Throw progressEvent
      end.
Proof.
  unfold fileToBase64, bind, emit, modify, ret, throw.
  destruct (readAsDataURL w site file); intros H; inversion H; auto.
Qed.

Lemma determineTimestamp_cases w file loc date t r t' :
  determineTimestamp w file loc date t = (r, t') ->
  (exists evs e, t' = t ++ evs /\ r = Throw e /\
                 forall req, ~ In (Generate DetermineTimestamp req) evs) \/
  (exists req,
      t' = t ++ [ReadFile DetermineTimestamp file; Generate DetermineTimestamp req] /\
      r = match generateContent w DetermineTimestamp req with
          | Throw e => Throw e
          | Ok resp =>
              Ok (match parseFenced w resp with
                  | Ok d => d
                  | Throw _ => fallbackTime resp
                  end)
          end).
Proof.
  unfold determineTimestamp. intros H.
  apply bind_inv in H as [(b64 & t1 & F & H) | (e & F & ->)];
    apply fileToBase64_cases in F as [-> F].
  2:{ no_event. }
  cbv zeta in H.
  unfold bind, lift, emit, modify, try_catch, ret, throw in H.
  repeat (step_in H; [ | inversion H; subst; no_event ]).
  match type of H with
  | context [generateContent w DetermineTimestamp ?q] => right; exists q; split
  end.
  - match type of H with
    | context [generateContent w DetermineTimestamp ?q] =>
        destruct (generateContent w DetermineTimestamp q) as [resp | e]
    end.
    + destruct (parseFenced w resp); inversion H; subst; now rewrite <- app_assoc.
    + inversion H; subst; now rewrite <- app_assoc.
  - revert H.
    match goal with
    | |- context [generateContent w DetermineTimestamp ?q] =>
        destruct (generateContent w DetermineTimestamp q) as [resp | e]
    end.
    + destruct (parseFenced w resp); intros H; inversion H; reflexivity.
    + intros H; inversion H; reflexivity.
Qed.

Ltac split_all :=
  repeat match goal with
         | Hx : context [match ?x with _ => _ end] |- _ =>
             lazymatch x with
             | context [generateContent] => fail
             | _ => destruct x eqn:?
             end
         end.

Ltac invert_pairs :=
  repeat match goal with
         | Hx : (_, _) = (_, _) |- _ => inversion Hx; clear Hx; subst
         end.

Lemma generateVerificationReport_cases w file clues loc time ts sources sat t r t' :
  generateVerificationReport w file clues loc time ts sources sat t = (r, t') ->
  (exists evs e, t' = t ++ evs /\ r = Throw e /\
                 forall req, ~ In (Generate GenerateReport req) evs) \/
  (exists req,
      t' = t ++ [ReadFile GenerateReport file; Generate GenerateReport req] /\
      r = match generateContent w GenerateReport req with
          | Throw e => Throw e
          | Ok resp =>
              match parseFenced w resp with
              | Ok d =>
                  Ok (JObj (spread d
                              ++ [ (js "groundingSources", JArr sources);
                                   (js "satelliteData", or_else sat JUndefined) ]))
              | Throw _ => Throw invalidFormat
              end
          end).
Proof.
  unfold generateVerificationReport. intros H.
  apply bind_inv in H as [(b64 & t1 & F & H) | (e & F & ->)];
    apply fileToBase64_cases in F as [-> F].
  2:{ no_event. }
  cbv zeta in H.
  unfold bind, lift, emit, modify, try_catch, ret, throw in H.
  split_all; invert_pairs; try no_event;
    match type of H with
    | context [generateContent w GenerateReport ?q] => right; exists q; split
    end;
    revert H;
    match goal with
    | |- context [generateContent w GenerateReport ?q] =>
        destruct (generateContent w GenerateReport q) as [resp | e]
    end;
    try destruct (parseFenced w resp);
    intros H; inversion H; subst; rewrite <- ?app_assoc; reflexivity.
Qed.

(** The imagery client: one event for the call, at most one request, and
    a value in every case. *)
Lemma getSatelliteImagery_cases w lat lon date t r t' :
  getSatelliteImagery w lat lon date t = (r, t') ->
  (t' = t ++ [ImagerySearch lat lon date] /\ r = Ok (unavailable w lat lon date)) \/
  (exists url,
      t' = t ++ [ImagerySearch lat lon date; Fetch url] /\
      r = Ok match GeminiService.fetch w url with
             | Throw _ => unavailable w lat lon date
             | Ok response =>
                 if ok response then
                   match json response with
                   | Ok data => data
                   | Throw _ => unavailable w lat lon date
                   end
                 else unavailable w lat lon date
             end).
Proof.
  unfold getSatelliteImagery, bind, lift, emit, modify, try_catch, ret, throw.
  cbv zeta. intros H.
  repeat match type of H with
         | context [match ?x with _ => _ end] =>
             lazymatch x with
             | context [GeminiService.fetch] => fail
             | _ => destruct x eqn:?
             end
         end;
    try (inversion H; subst; left; split; reflexivity);
       match type of H with
       | context [GeminiService.fetch w ?q] => right; exists q; split
       end;
       revert H;
       match goal with
       | |- context [GeminiService.fetch w ?q] =>
           destruct (GeminiService.fetch w q) as [response | e]
       end;
       try (destruct (ok response); simpl; [destruct (json response) | ]);
       intros H; split_all; invert_pairs; rewrite <- ?app_assoc; reflexivity.
Qed.

Lemma getSatelliteImagery_total w lat lon date t :
  exists v evs,
    getSatelliteImagery w lat lon date t = (Ok v, t ++ ImagerySearch lat lon date :: evs).
Proof.
  destruct (getSatelliteImagery w lat lon date t) as [r t'] eqn:E.
  apply getSatelliteImagery_cases in E as [[-> ->] | (url & -> & ->)]; eauto.
Qed.

(** ** The run as a whole *)

Lemma runVerification_unfold w file ts ctx u0 :
  runVerification w file ts ctx (start u0) =
  match constructor w with
  | Throw e => (Throw e, cleared)
  | Ok _ =>
      match attempt w file ts ctx cleared with
      | (Ok _, s) => (Ok tt, settled s)
      | (Throw e, s) => (Ok tt, settled (caught w e s))
      end
  end.
Proof.
  unfold runVerification, bind, lift, try_finally, try_catch; simpl.
  fold cleared. destruct (constructor w) as [[] | e]; [ | reflexivity].
  destruct (attempt w file ts ctx cleared) as [[[] | e] s]; reflexivity.
Qed.

Lemma Forall_never {A} (l : list A) : Forall (fun _ => False) l -> l = [].
Proof. destruct l; [reflexivity | intros H; inversion H; contradiction]. Qed.

Lemma not_in_phase k e evs : Forall (in_phase k) evs -> phase_of e <> k -> ~ In e evs.
Proof. intros F N I. rewrite Forall_forall in F. apply N, (F _ I). Qed.

Lemma extends_refl s : extends s s.
Proof. split; exists []; now rewrite app_nil_r. Qed.

Lemma extends_trans s1 s2 s3 : extends s1 s2 -> extends s2 s3 -> extends s1 s3.
Proof.
  intros [(e1 & T1) (l1 & L1)] [(e2 & T2) (l2 & L2)]. split.
  - exists (e1 ++ e2). now rewrite T2, T1, app_assoc.
  - exists (l1 ++ l2). now rewrite L2, L1, app_assoc.
Qed.

Lemma frames_extends {A} strict P (m : Run A) s r s' :
  frames strict P m -> m s = (r, s') -> extends s s'.
Proof.
  intros F E. destruct (F _ _ _ E) as ((evs & T & _) & (L & _)). split; eauto.
Qed.

Lemma extends_settled s : extends s (settled s).
Proof. split; simpl; exists []; now rewrite app_nil_r. Qed.

Lemma extends_caught w e s : extends s (caught w e s).
Proof. split; simpl; [exists []; now rewrite app_nil_r | eauto]. Qed.

Lemma extends_logged s s' k msg :
  extends s s' -> logged k msg (log (ui s)) -> logged k msg (log (ui s')).
Proof.
  intros [_ (l & L)] (e & I & K). exists e. rewrite L, in_app_iff. auto.
Qed.

Lemma extends_traced s s' e : extends s s' -> In e (trace s) -> In e (trace s').
Proof. intros [(evs & T) _] I. rewrite T, in_app_iff. auto. Qed.

Lemma attempt_frames w file ts ctx :
  frames false (fun _ => True) (attempt w file ts ctx).
Proof.
  unfold attempt.
  apply frames_bind; [eapply frames_weaken; [ | apply (preamble_frames w ts ctx (fun _ => True))]; auto | intros _].
  apply frames_bind; [eapply frames_weaken; [ | apply phase1_frames]; auto | intros clues].
  apply frames_bind; [eapply frames_weaken; [ | apply phase2_frames]; auto | intros [loc sources]].
  apply frames_bind; [eapply frames_weaken; [ | apply phase3_frames]; auto | intros sat].
  apply frames_bind; [eapply frames_weaken; [ | apply phase4_frames]; auto | intros time].
  eapply frames_weaken; [ | apply phase5_frames]; auto.
Qed.

Lemma preamble_ok w ts ctx s :
  exists s0, preamble w ts ctx s = (Ok tt, s0).
Proof.
  unfold preamble, bind, addLogEntry, setLog, onUi, modify.
  destruct (nonempty ts); eauto.
Qed.

(** The [try] block runs the phases in order and stops at the first that
    throws. *)
Lemma attempt_path w file ts ctx s r s' :
  attempt w file ts ctx s = (r, s') ->
  exists s0, preamble w ts ctx s = (Ok tt, s0) /\
  exists r1 s1, phase1 w file ctx s0 = (r1, s1) /\
  match r1 with
  | Throw e => r = Throw e /\ s' = s1
  | Ok clues =>
      exists r2 s2, phase2 w clues ctx s1 = (r2, s2) /\
      match r2 with
      | Throw e => r = Throw e /\ s' = s2
      | Ok (loc, sources) =>
          exists r3 s3, phase3 w ts loc s2 = (r3, s3) /\
          match r3 with
          | Throw e => r = Throw e /\ s' = s3
          | Ok sat =>
              exists r4 s4, phase4 w file ts loc s3 = (r4, s4) /\
              match r4 with
              | Throw e => r = Throw e /\ s' = s4
              | Ok time => phase5 w file ts clues loc time sources sat s4 = (r, s')
              end
          end
      end
  end.
Proof.
  unfold attempt. intros H.
  destruct (preamble_ok w ts ctx s) as (s0 & E0).
  exists s0; split; [assumption | ].
  unfold bind in H at 1. rewrite E0 in H.
  apply bind_inv in H as [(clues & s1 & E1 & H) | (e & E1 & ->)];
    [ | exists (Throw e), s'; auto ].
  exists (Ok clues), s1; split; [assumption | ].
  apply bind_inv in H as [([loc sources] & s2 & E2 & H) | (e & E2 & ->)];
    [ | exists (Throw e), s'; auto ].
  exists (Ok (loc, sources)), s2; split; [assumption | ].
  apply bind_inv in H as [(sat & s3 & E3 & H) | (e & E3 & ->)];
    [ | exists (Throw e), s'; auto ].
  exists (Ok sat), s3; split; [assumption | ].
  apply bind_inv in H as [(time & s4 & E4 & H) | (e & E4 & ->)];
    [ | exists (Throw e), s'; auto ].
  exists (Ok time), s4; split; assumption.
Qed.

(** Collects what the frame lemmas say about the phases that ran. *)
Ltac frame_facts :=
  repeat match goal with
         | E : preamble ?w ?ts ?ctx ?s = (_, ?s') |- _ =>
             lazymatch goal with
             | _ : ui_step _ (ui s) (ui s') |- _ => fail
             | _ => destruct (preamble_frames w ts ctx (fun _ => False) _ _ _ E)
                      as ((? & ? & ?) & ?)
             end
         | E : phase1 ?w ?f ?ctx ?s = (_, ?s') |- _ =>
             lazymatch goal with
             | _ : ui_step _ (ui s) (ui s') |- _ => fail
             | _ => destruct (phase1_frames w f ctx _ _ _ E) as ((? & ? & ?) & ?)
             end
         | E : phase2 ?w ?c ?ctx ?s = (_, ?s') |- _ =>
             lazymatch goal with
             | _ : ui_step _ (ui s) (ui s') |- _ => fail
             | _ => destruct (phase2_frames w c ctx _ _ _ E) as ((? & ? & ?) & ?)
             end
         | E : phase3 ?w ?ts ?l ?s = (_, ?s') |- _ =>
             lazymatch goal with
             | _ : ui_step _ (ui s) (ui s') |- _ => fail
             | _ => destruct (phase3_frames w ts l _ _ _ E) as ((? & ? & ?) & ?)
             end
         | E : phase4 ?w ?f ?ts ?l ?s = (_, ?s') |- _ =>
             lazymatch goal with
             | _ : ui_step _ (ui s) (ui s') |- _ => fail
             | _ => destruct (phase4_frames w f ts l _ _ _ E) as ((? & ? & ?) & ?)
             end
         | E : phase5 ?w ?f ?ts ?c ?l ?t ?src ?sat ?s = (_, ?s') |- _ =>
             lazymatch goal with
             | _ : ui_step _ (ui s) (ui s') |- _ => fail
             | _ => destruct (phase5_frames w f ts c l t src sat _ _ _ E)
                      as ((? & ? & ?) & ?)
             end
         end.

(** An event of one phase is not among the events of another. *)
Ltac other_phase :=
  match goal with
  | F : Forall (in_phase ?k) ?evs, I : In ?e ?evs |- _ =>
      exfalso; revert I; apply (not_in_phase k e evs F); discriminate
  | F : Forall (fun _ => False) ?evs, I : In ?e ?evs |- _ =>
      exfalso; rewrite (Forall_never evs F) in I; exact I
  end.

Ltac chain_ui :=
  repeat match goal with
         | U1 : ui_step ?b ?a ?m, U2 : ui_step ?b ?m ?c |- _ =>
             lazymatch goal with
             | _ : ui_step b a c |- _ => fail
             | _ => pose proof (ui_step_trans b a m c U1 U2)
             end
         end.

Ltac unfold_traces I :=
  repeat match goal with
         | T : trace ?s = _ |- _ => rewrite T in I
         end;
  simpl in I; rewrite ?in_app_iff in I.

Lemma addLogEntry_inv w k msg s r s' :
  addLogEntry w k msg s = (r, s') ->
  r = Ok tt /\
  s' = {| ui := {| isLoading := isLoading (ui s);
                   log := log (ui s)
                            ++ [ {| type := k; message := msg;
                                    timestamp :=
                                      Date_toISOString (GeminiService.host w)
                                        (logTime w (List.length (log (ui s)))) |} ];
                   report := report (ui s);
                   error := error (ui s) |};
          trace := trace s |}.
Proof. intros H; inversion H; auto. Qed.

Lemma call_inv {A} (m : Svc A) s r s' :
  call m s = (r, s') -> m (trace s) = (r, trace s') /\ ui s' = ui s.
Proof.
  unfold call. destruct (m (trace s)) as [r0 t0]. intros H; inversion H; auto.
Qed.

(** ** Phase 5: an unreadable report aborts the run *)

Section UnreadableReport.
Variables (w : World) (req : GenRequest) (resp : GenResponse) (txt : jsstr).
Hypothesis answered : generateContent w GenerateReport req = Ok resp.
Hypothesis said : text resp = Some txt.
Hypothesis unreadable :
  JSON_parse (GeminiService.host w) (trim (replaceFences txt)) = None.

Lemma generateVerificationReport_rejects file clues loc time ts sources sat t0 r t :
  generateVerificationReport w file clues loc time ts sources sat t0 = (r, t) ->
  ~ In (Generate GenerateReport req) t0 ->
  In (Generate GenerateReport req) t ->
  r = Throw invalidFormat /\
  t = t0 ++ [ReadFile GenerateReport file; Generate GenerateReport req].
Proof.
  intros E N I.
  apply generateVerificationReport_cases in E
    as [(evs & e & -> & -> & NE) | (req0 & -> & ->)];
    apply in_app_iff in I as [I | I]; try contradiction.
  - elim (NE _ I).
  - destruct I as [I | [I | []]]; [discriminate I | ].
    inversion I; subst req0. rewrite answered.
    destruct (parseFenced_fails w resp txt said unreadable) as (e & PF).
    rewrite PF. auto.
Qed.

Lemma phase5_aborts file ts clues loc time sources sat s r s' :
  phase5 w file ts clues loc time sources sat s = (r, s') ->
  ~ In (Generate GenerateReport req) (trace s) ->
  In (Generate GenerateReport req) (trace s') ->
  r = Throw invalidFormat /\
  trace s' = trace s ++ [ReadFile GenerateReport file; Generate GenerateReport req] /\
  ui s' = {| isLoading := isLoading (ui s);
             log := log (ui s)
                      ++ [ {| type := LogType.processing; message := phase5_start;
                              timestamp :=
                                Date_toISOString (GeminiService.host w)
                                  (logTime w (List.length (log (ui s)))) |} ];
             report := report (ui s);
             error := error (ui s) |}.
Proof.
  unfold phase5. intros E N I.
  apply bind_inv in E as [([] & sx & Ea & E) | (e & Ea & _)]; [ | discriminate Ea ].
  apply addLogEntry_inv in Ea as [_ ->].
  apply bind_inv in E as [(finalReport & sy & Ec & E) | (e & Ec & ->)];
    apply call_inv in Ec as [EG Eu]; simpl in EG, Eu.
  - (* the report was read: impossible, its text does not parse *)
    exfalso.
    match type of E with
    | ?m sy = _ =>
        assert (F : frames false (fun _ => False) m) by (repeat frames_step w)
    end.
    destruct (F _ _ _ E) as ((evs & Ft & Fn) & _).
    rewrite (Forall_never evs Fn), app_nil_r in Ft. rewrite Ft in I.
    destruct (generateVerificationReport_rejects _ _ _ _ _ _ _ _ _ _ EG N I).
    discriminate.
  - destruct (generateVerificationReport_rejects _ _ _ _ _ _ _ _ _ _ EG N I)
      as [X Y].
    inversion X; subst e. auto.
Qed.

Lemma run_aborts file ts ctx u0 r s' :
  runVerification w file ts ctx (start u0) = (r, s') ->
  In (Generate GenerateReport req) (trace s') ->
  r = Ok tt /\
  error (ui s') = Some (js "AI returned a report in an invalid format.") /\
  report (ui s') = None /\
  isLoading (ui s') = false /\
  ends_with [ (LogType.processing, phase5_start);
              (LogType.error,
               failed_message (js "AI returned a report in an invalid format.")) ]
            (log (ui s')).
Proof.
  intros H I. rewrite runVerification_unfold in H.
  destruct (constructor w) as [[] | e]; [ | inversion H; subst; contradiction].
  destruct (attempt w file ts ctx cleared) as [ra sa] eqn:EA.
  assert (I' : In (Generate GenerateReport req) (trace sa))
    by (destruct ra; inversion H; subst; exact I).
  apply attempt_path in EA as (s0 & E0 & r1 & s1 & E1 & EA). frame_facts.
  destruct r1 as [clues | e];
    [ | destruct EA as [-> ->]; unfold_traces I'; intuition (try other_phase) ].
  destruct EA as (r2 & s2 & E2 & EA). frame_facts.
  destruct r2 as [[loc sources] | e];
    [ | destruct EA as [-> ->]; unfold_traces I'; intuition (try other_phase) ].
  destruct EA as (r3 & s3 & E3 & EA). frame_facts.
  destruct r3 as [sat | e];
    [ | destruct EA as [-> ->]; unfold_traces I'; intuition (try other_phase) ].
  destruct EA as (r4 & s4 & E4 & EA). frame_facts.
  destruct r4 as [time | e];
    [ | destruct EA as [-> ->]; unfold_traces I'; intuition (try other_phase) ].
  chain_ui.
  assert (U : ui_step true (ui cleared) (ui s4)) by assumption.
  assert (N : ~ In (Generate GenerateReport req) (trace s4)).
  { intros X. unfold_traces X. intuition (try other_phase). }
  destruct (phase5_aborts _ _ _ _ _ _ _ _ _ _ EA N I') as (-> & Et & Eu).
  inversion H; subst; clear H. simpl. rewrite Eu; simpl.
  destruct U as (_ & UE & _ & UR). simpl in UE, UR.
  repeat split; try reflexivity.
  - now apply UR.
  - eexists _, _. split; [ rewrite <- app_assoc; reflexivity | reflexivity ].
Qed.

End UnreadableReport.

(** ** Phase 4: an unreadable time estimate is replaced, and the run goes on *)

Lemma generateVerificationReport_reads w file clues loc time ts sources sat t r t' :
  generateVerificationReport w file clues loc time ts sources sat t = (r, t') ->
  exists evs, t' = t ++ ReadFile GenerateReport file :: evs.
Proof.
  unfold generateVerificationReport. intros H.
  apply bind_inv in H as [(b64 & t1 & F & H) | (e & F & _)];
    apply fileToBase64_cases in F as [-> _].
  - match type of H with
    | ?m _ = _ => assert (E : emits (fun _ => True) m) by (repeat emits_step)
    end.
    destruct (E _ _ _ H) as (evs & -> & _). exists evs. now rewrite <- app_assoc.
  - now exists [].
Qed.

Lemma phase5_begins w file ts clues loc time sources sat s r s' :
  phase5 w file ts clues loc time sources sat s = (r, s') ->
  logged LogType.processing phase5_start (log (ui s')) /\
  In (ReadFile GenerateReport file) (trace s').
Proof.
  unfold phase5. intros E.
  apply bind_inv in E as [([] & sx & Ea & E) | (e & Ea & _)]; [ | discriminate Ea ].
  apply addLogEntry_inv in Ea as [_ ->].
  assert (L : forall sy, ui sy = ui {| ui := {| isLoading := isLoading (ui s);
                 log := log (ui s)
                          ++ [ {| type := LogType.processing; message := phase5_start;
                                  timestamp :=
                                    Date_toISOString (GeminiService.host w)
                                      (logTime w (List.length (log (ui s)))) |} ];
                 report := report (ui s); error := error (ui s) |};
                 trace := trace s |} ->
             logged LogType.processing phase5_start (log (ui sy))).
  { intros sy ->. simpl. eexists. rewrite in_app_iff. split; [right; left; reflexivity | auto]. }
  apply bind_inv in E as [(finalReport & sy & Ec & E) | (e & Ec & ->)];
    apply call_inv in Ec as [EG Eu]; simpl in EG;
    apply generateVerificationReport_reads in EG as (evs & EG).
  - match type of E with
    | ?m sy = _ =>
        assert (F : frames false (fun _ => False) m) by (repeat frames_step w)
    end.
    apply (frames_extends _ _ _ _ _ _ F) in E. split.
    + eapply extends_logged; eauto.
    + eapply extends_traced; eauto. rewrite EG, in_app_iff. right; now left.
  - split; [auto | ]. rewrite EG, in_app_iff. right; now left.
Qed.

Section UnreadableTime.
Variables (w : World) (req : GenRequest) (resp : GenResponse) (txt : jsstr).
Hypothesis answered : generateContent w DetermineTimestamp req = Ok resp.
Hypothesis said : text resp = Some txt.
Hypothesis unreadable :
  JSON_parse (GeminiService.host w) (trim (replaceFences txt)) = None.

Lemma determineTimestamp_falls_back file loc date t0 r t :
  determineTimestamp w file loc date t0 = (r, t) ->
  ~ In (Generate DetermineTimestamp req) t0 ->
  In (Generate DetermineTimestamp req) t ->
  r = Ok (fallbackTime resp) /\
  t = t0 ++ [ReadFile DetermineTimestamp file; Generate DetermineTimestamp req].
Proof.
  intros E N I.
  apply determineTimestamp_cases in E
    as [(evs & e & -> & -> & NE) | (req0 & -> & ->)];
    apply in_app_iff in I as [I | I]; try contradiction.
  - elim (NE _ I).
  - destruct I as [I | [I | []]]; [discriminate I | ].
    inversion I; subst req0. rewrite answered.
    destruct (parseFenced_fails w resp txt said unreadable) as (e & PF).
    rewrite PF. auto.
Qed.

Lemma phase4_continues file ts loc s r s' :
  phase4 w file ts loc s = (r, s') ->
  ~ In (Generate DetermineTimestamp req) (trace s) ->
  In (Generate DetermineTimestamp req) (trace s') ->
  r = Ok (fallbackTime resp).
Proof.
  unfold phase4. intros E N I.
  apply bind_inv in E as [([] & sx & Ea & E) | (e & Ea & _)]; [ | discriminate Ea ].
  apply addLogEntry_inv in Ea as [_ ->].
  apply bind_inv in E as [(timeData & sy & Ec & E) | (e & Ec & ->)];
    apply call_inv in Ec as [EG Eu]; simpl in EG.
  - match type of E with
    | ?m sy = _ =>
        assert (F : frames true (fun _ => False) m) by (repeat frames_step w)
    end.
    destruct (F _ _ _ E) as ((evs & Ft & Fn) & _).
    rewrite (Forall_never evs Fn), app_nil_r in Ft. rewrite Ft in I.
    destruct (determineTimestamp_falls_back _ _ _ _ _ _ EG N I) as [X _].
    inversion X; subst timeData.
    vm_compute in E. now inversion E.
  - destruct (determineTimestamp_falls_back _ _ _ _ _ _ EG N I) as [X _].
    discriminate X.
Qed.

Lemma run_reaches_phase5 file ts ctx u0 r s' :
  runVerification w file ts ctx (start u0) = (r, s') ->
  In (Generate DetermineTimestamp req) (trace s') ->
  logged LogType.processing phase5_start (log (ui s')) /\
  In (ReadFile GenerateReport file) (trace s').
Proof.
  intros H I. rewrite runVerification_unfold in H.
  destruct (constructor w) as [[] | e]; [ | inversion H; subst; contradiction].
  destruct (attempt w file ts ctx cleared) as [ra sa] eqn:EA.
  assert (I' : In (Generate DetermineTimestamp req) (trace sa))
    by (destruct ra; inversion H; subst; exact I).
  assert (X : extends sa s').
  { destruct ra; inversion H; subst;
      [apply extends_settled
      | eapply extends_trans; [apply extends_caught | apply extends_settled]]. }
  cut (logged LogType.processing phase5_start (log (ui sa)) /\
       In (ReadFile GenerateReport file) (trace sa)).
  { intros [L R]. split; [eapply extends_logged | eapply extends_traced]; eauto. }
  clear H I X s' r.
  apply attempt_path in EA as (s0 & E0 & r1 & s1 & E1 & EA). frame_facts.
  destruct r1 as [clues | e];
    [ | destruct EA as [-> ->]; unfold_traces I'; intuition (try other_phase) ].
  destruct EA as (r2 & s2 & E2 & EA). frame_facts.
  destruct r2 as [[loc sources] | e];
    [ | destruct EA as [-> ->]; unfold_traces I'; intuition (try other_phase) ].
  destruct EA as (r3 & s3 & E3 & EA). frame_facts.
  destruct r3 as [sat | e];
    [ | destruct EA as [-> ->]; unfold_traces I'; intuition (try other_phase) ].
  destruct EA as (r4 & s4 & E4 & EA).
  assert (N : ~ In (Generate DetermineTimestamp req) (trace s3)).
  { intros X. unfold_traces X. intuition (try other_phase). }
  assert (I4 : In (Generate DetermineTimestamp req) (trace s4)).
  { destruct r4 as [time | e]; [ | now destruct EA as [_ ->] ].
    destruct (phase5_frames _ _ _ _ _ _ _ _ _ _ _ EA) as ((x5 & T5 & F5) & _).
    rewrite T5 in I'. apply in_app_iff in I' as [I' | I']; [assumption | other_phase]. }
  rewrite (phase4_continues _ _ _ _ _ _ E4 N I4) in EA.
  eapply phase5_begins; eauto.
Qed.

End UnreadableTime.

(** ** Phase 3 runs when the guard on the coordinates holds *)

Lemma phase3_invoked w ts loc lat lon s r s' :
  hasCoordinates loc = Ok true ->
  Get loc (js "latitude") = Ok lat ->
  Get loc (js "longitude") = Ok lon ->
  phase3 w ts loc s = (r, s') ->
  In (ImagerySearch lat lon (datePart ts)) (trace s') /\
  logged LogType.processing phase3_start (log (ui s')).
Proof.
  unfold phase3. intros G Glat Glon E.
  unfold bind at 1, lift at 1 in E. rewrite G in E.
  apply bind_inv in E as [([] & sx & Ea & E) | (e & Ea & _)]; [ | discriminate Ea ].
  apply addLogEntry_inv in Ea as [_ ->]. cbv zeta in E.
  unfold bind at 1, lift at 1 in E. rewrite Glat in E.
  unfold bind at 1, lift at 1 in E. rewrite Glon in E.
  apply bind_inv in E as [(satelliteData & sy & Ec & E) | (e & Ec & ->)];
    apply call_inv in Ec as [EG Eu]; simpl in EG;
    destruct (getSatelliteImagery_total w lat lon (datePart ts) (trace s))
      as (v & evs & ET);
    rewrite ET in EG; inversion EG as [[Ev Et]]; clear EG.
  match type of E with
  | ?m sy = _ =>
      assert (F : frames true (fun _ => True) m) by (repeat frames_step w)
  end.
  apply (frames_extends _ _ _ _ _ _ F) in E. split.
  - eapply extends_traced; eauto. rewrite <- Et, in_app_iff. right; now left.
  - eapply extends_logged; eauto. rewrite Eu; simpl.
    eexists. rewrite in_app_iff. split; [right; left; reflexivity | auto].
Qed.

Lemma phase3_skipped w ts loc s :
  hasCoordinates loc = Ok false ->
  phase3 w ts loc s = (Ok JNull, s).
Proof. unfold phase3, bind, lift. now intros ->. Qed.

(** ** Phase 2: an unreadable location is replaced, and the run goes on *)

Lemma fallbackLocation_hasCoordinates raw :
  hasCoordinates (fallbackLocation raw) = Ok true.
Proof. vm_compute. reflexivity. Qed.

Section UnreadableLocation.
Variables (w : World) (req : GenRequest) (resp : GenResponse) (txt : jsstr).
Hypothesis answered : generateContent w Structuring req = Ok resp.
Hypothesis said : text resp = Some txt.
Hypothesis unreadable :
  JSON_parse (GeminiService.host w) (trim (replaceFences txt)) = None.

Lemma findLocationWithGrounding_falls_back clues ctx t0 r t :
  findLocationWithGrounding w clues ctx t0 = (r, t) ->
  ~ In (Generate Structuring req) t0 ->
  In (Generate Structuring req) t ->
  exists req1 resp1,
    t = t0 ++ [Generate GroundedSearch req1; Generate Structuring req] /\
    generateContent w GroundedSearch req1 = Ok resp1 /\
    r = Ok (fallbackLocation (fromOption (text resp1)), sourcesOf resp1).
Proof.
  intros E N I.
  apply findLocationWithGrounding_cases in E
    as [(evs & e & -> & -> & NE) | (req1 & resp1 & req2 & -> & G1 & ->)];
    apply in_app_iff in I as [I | I]; try contradiction.
  - elim (NE _ I).
  - destruct I as [I | [I | []]]; [discriminate I | ].
    inversion I; subst req2. exists req1, resp1. rewrite answered.
    destruct (parseFenced_fails w resp txt said unreadable) as (e & PF).
    rewrite PF. auto.
Qed.

Lemma phase2_continues clues ctx s r s' :
  phase2 w clues ctx s = (r, s') ->
  ~ In (Generate Structuring req) (trace s) ->
  In (Generate Structuring req) (trace s') ->
  exists raw sources, r = Ok (fallbackLocation (fromOption raw), sources).
Proof.
  unfold phase2. intros E N I.
  apply bind_inv in E as [([] & sx & Ea & E) | (e & Ea & _)]; [ | discriminate Ea ].
  apply addLogEntry_inv in Ea as [_ ->].
  apply bind_inv in E as [([locationData sources] & sy & Ec & E) | (e & Ec & ->)];
    apply call_inv in Ec as [EG Eu]; simpl in EG.
  - match type of E with
    | ?m sy = _ =>
        assert (F : frames true (fun _ => False) m) by (repeat frames_step w)
    end.
    destruct (F _ _ _ E) as ((evs & Ft & Fn) & _).
    rewrite (Forall_never evs Fn), app_nil_r in Ft. rewrite Ft in I.
    destruct (findLocationWithGrounding_falls_back _ _ _ _ _ EG N I)
      as (req1 & resp1 & _ & _ & X).
    inversion X; subst locationData sources. exists (text resp1), (sourcesOf resp1).
    unfold bind, lift in E.
    destruct (text resp1) as [[ | c raw] | ];
      destruct (0 <? List.length (sourcesOf resp1))%nat eqn:L;
      vm_compute in E; try rewrite L in E; now inversion E.
  - destruct (findLocationWithGrounding_falls_back _ _ _ _ _ EG N I)
      as (req1 & resp1 & _ & _ & X).
    discriminate X.
Qed.

Lemma run_reaches_phase3 file ts ctx u0 r s' :
  runVerification w file ts ctx (start u0) = (r, s') ->
  In (Generate Structuring req) (trace s') ->
  In (ImagerySearch (JNum (Decimal 315 (-1))) (JNum (Decimal 3445 (-2))) (datePart ts))
     (trace s') /\
  logged LogType.processing phase3_start (log (ui s')).
Proof.
  intros H I. rewrite runVerification_unfold in H.
  destruct (constructor w) as [[] | e]; [ | inversion H; subst; contradiction].
  destruct (attempt w file ts ctx cleared) as [ra sa] eqn:EA.
  assert (I' : In (Generate Structuring req) (trace sa))
    by (destruct ra; inversion H; subst; exact I).
  assert (X : extends sa s').
  { destruct ra; inversion H; subst;
      [apply extends_settled
      | eapply extends_trans; [apply extends_caught | apply extends_settled]]. }
  cut (exists s3, extends s3 sa /\
         In (ImagerySearch (JNum (Decimal 315 (-1))) (JNum (Decimal 3445 (-2)))
               (datePart ts)) (trace s3) /\
         logged LogType.processing phase3_start (log (ui s3))).
  { intros (s3 & X3 & T & L).
    split; [eapply extends_traced | eapply extends_logged];
      try (eapply extends_trans; eassumption); assumption. }
  clear H I X s' r.
  apply attempt_path in EA as (s0 & E0 & r1 & s1 & E1 & EA). frame_facts.
  destruct r1 as [clues | e];
    [ | destruct EA as [-> ->]; unfold_traces I'; intuition (try other_phase) ].
  destruct EA as (r2 & s2 & E2 & EA).
  assert (N : ~ In (Generate Structuring req) (trace s1)).
  { intros X. unfold_traces X. intuition (try other_phase). }
  assert (I2 : In (Generate Structuring req) (trace s2)).
  { destruct r2 as [[loc sources] | e]; [ | now destruct EA as [_ ->] ].
    destruct EA as (r3 & s3 & E3 & EA).
    destruct (phase3_frames _ _ _ _ _ _ E3) as ((x3 & T3 & F3) & _).
    assert (I3 : In (Generate Structuring req) (trace s3)).
    { destruct r3 as [sat | e]; [ | now destruct EA as [_ ->] ].
      destruct EA as (r4 & s4 & E4 & EA).
      destruct (phase4_frames _ _ _ _ _ _ _ E4) as ((x4 & T4 & F4) & _).
      assert (I4 : In (Generate Structuring req) (trace s4)).
      { destruct r4 as [time | e]; [ | now destruct EA as [_ ->] ].
        destruct (phase5_frames _ _ _ _ _ _ _ _ _ _ _ EA) as ((x5 & T5 & F5) & _).
        rewrite T5 in I'. apply in_app_iff in I' as [I' | I']; [assumption | other_phase]. }
      rewrite T4 in I4. apply in_app_iff in I4 as [I4 | I4]; [assumption | other_phase]. }
    rewrite T3 in I3. apply in_app_iff in I3 as [I3 | I3]; [assumption | other_phase]. }
  destruct (phase2_continues _ _ _ _ _ E2 N I2) as (raw & sources & ->).
  destruct EA as (r3 & s3 & E3 & EA).
  exists s3. split.
  - destruct r3 as [sat | e]; [ | destruct EA as [_ ->]; apply extends_refl ].
    destruct EA as (r4 & s4 & E4 & EA).
    eapply extends_trans; [eapply frames_extends; [apply phase4_frames | exact E4] | ].
    destruct r4 as [time | e]; [ | destruct EA as [_ ->]; apply extends_refl ].
    eapply frames_extends; [apply phase5_frames | exact EA].
  - eapply phase3_invoked; [apply fallbackLocation_hasCoordinates | | | exact E3];
      reflexivity.
Qed.

End UnreadableLocation.

(** ** How a completed run ends *)

Lemma bind_ok_inv {S A B} (m : M S A) (f : A -> M S B) s b s' :
  bind m f s = (Ok b, s') ->
  exists a s1, m s = (Ok a, s1) /\ f a s1 = (Ok b, s').
Proof.
  intros H. apply bind_inv in H as [(a & s1 & E1 & E2) | (e & _ & X)];
    [eauto | discriminate X].
Qed.

Lemma phase5_completes w file ts clues loc time sources sat s s' :
  phase5 w file ts clues loc time sources sat s = (Ok tt, s') ->
  exists finalReport verdict confidenceScore sverdict sconfidenceScore,
    report (ui s') = Some finalReport /\
    error (ui s') = error (ui s) /\
    Get finalReport (js "verdict") = Ok verdict /\
    ToString (GeminiService.host w) verdict = Ok sverdict /\
    Get finalReport (js "confidenceScore") = Ok confidenceScore /\
    ToString (GeminiService.host w) confidenceScore = Ok sconfidenceScore /\
    ends_with [ (LogType.success, complete_message);
                (LogType.info, verdict_message sverdict sconfidenceScore) ]
              (log (ui s')).
Proof.
  unfold phase5. intros E.
  apply bind_ok_inv in E as ([] & s1 & E1 & E). apply addLogEntry_inv in E1 as [_ ->].
  apply bind_ok_inv in E as (finalReport & s2 & E2 & E). apply call_inv in E2 as [_ U2].
  apply bind_ok_inv in E as ([] & s3 & E3 & E). inversion E3; subst s3; clear E3.
  apply bind_ok_inv in E as ([] & s4 & E4 & E). apply addLogEntry_inv in E4 as [_ ->].
  apply bind_ok_inv in E as (verdict & s5 & E5 & E). apply lift_inv in E5 as [G5 ->].
  apply bind_ok_inv in E as (sverdict & s6 & E6 & E). apply lift_inv in E6 as [G6 ->].
  apply bind_ok_inv in E as (score & s7 & E7 & E). apply lift_inv in E7 as [G7 ->].
  apply bind_ok_inv in E as (sscore & s8 & E8 & E). apply lift_inv in E8 as [G8 ->].
  apply addLogEntry_inv in E as [_ ->]. simpl. rewrite U2; simpl.
  exists finalReport, verdict, score, sverdict, sscore.
  repeat split; try assumption.
  eexists _, _. split; [rewrite <- app_assoc; reflexivity | reflexivity].
Qed.

Lemma run_ends w file ts ctx u0 r s' :
  constructor w = Ok tt ->
  runVerification w file ts ctx (start u0) = (r, s') ->
  r = Ok tt /\
  isLoading (ui s') = false /\
  ((exists msg,
       error (ui s') = Some msg /\
       ends_with [(LogType.error, failed_message msg)] (log (ui s')))
   \/
   (error (ui s') = None /\
    exists finalReport verdict confidenceScore sverdict sconfidenceScore,
      report (ui s') = Some finalReport /\
      Get finalReport (js "verdict") = Ok verdict /\
      ToString (GeminiService.host w) verdict = Ok sverdict /\
      Get finalReport (js "confidenceScore") = Ok confidenceScore /\
      ToString (GeminiService.host w) confidenceScore = Ok sconfidenceScore /\
      ends_with [ (LogType.success, complete_message);
                  (LogType.info, verdict_message sverdict sconfidenceScore) ]
                (log (ui s')))).
Proof.
  intros K H. rewrite runVerification_unfold, K in H.
  destruct (attempt w file ts ctx cleared) as [[[] | e] sa] eqn:EA;
    inversion H; subst; clear H; simpl; repeat split.
  - right.
    destruct (attempt_frames _ _ _ _ _ _ _ EA) as (_ & _ & UE & _).
    apply attempt_path in EA as (s0 & _ & r1 & s1 & _ & EA).
    destruct r1 as [clues | e]; [ | now destruct EA].
    destruct EA as (r2 & s2 & _ & EA).
    destruct r2 as [[loc sources] | e]; [ | now destruct EA].
    destruct EA as (r3 & s3 & _ & EA).
    destruct r3 as [sat | e]; [ | now destruct EA].
    destruct EA as (r4 & s4 & _ & EA).
    destruct r4 as [time | e]; [ | now destruct EA].
    apply phase5_completes in EA
      as (finalReport & verdict & score & sverdict & sscore & R & _ & G1 & G2 & G3 & G4 & L).
    split; [exact UE | ].
    exists finalReport, verdict, score, sverdict, sscore. auto 10.
  - left. eexists. split; [reflexivity | ].
    eexists _, _. split; reflexivity.
Qed.

(** ** The proxy's handlers *)

Lemma emits_issue (P : Proxy.Request -> Prop) w r : P r -> emits P (Proxy.issue w r).
Proof.
  intros Pr t o t' E. unfold Proxy.issue, bind, modify, lift in E.
  inversion E; subst. exists [r]. auto.
Qed.

Lemma emits_mapM {Ev A B} (P : Ev -> Prop) (f : A -> M (list Ev) B) l :
  (forall a, emits P (f a)) -> emits P (mapM f l).
Proof.
  intros Hf. induction l as [| a l IH]; simpl.
  - apply emits_ret.
  - apply emits_bind; [apply Hf | intros b].
    apply emits_bind; [apply IH | intros bs; apply emits_ret].
Qed.

Lemma mapM_length {S A B} (f : A -> M S B) l s ys s' :
  mapM f l s = (Ok ys, s') -> List.length ys = List.length l.
Proof.
  revert s ys s'. induction l as [| a l IH]; simpl; intros s ys s' E.
  - inversion E; reflexivity.
  - apply bind_ok_inv in E as (y & s1 & _ & E).
    apply bind_ok_inv in E as (ys' & s2 & E2 & E).
    inversion E; subst. simpl. f_equal. eauto.
Qed.

Ltac handler_step :=
  lazymatch goal with
  | |- emits _ (bind _ _) => apply emits_bind; [ | intros ? ]
  | |- emits _ (try_catch _ _) => apply emits_try_catch; [ | intros ? ]
  | |- emits _ (ret _) => apply emits_ret
  | |- emits _ (throw _) => apply emits_throw
  | |- emits _ (lift _) => apply emits_lift
  | |- emits _ (Proxy.issue _ _) => apply emits_issue; exact I
  | |- emits _ (mapM _ _) => apply emits_mapM; intros ?
  | |- emits _ (Proxy.mapValue _ _) => unfold Proxy.mapValue
  | |- emits _ (Proxy.descriptor _ _) => unfold Proxy.descriptor
  | |- emits _ (if ?b then _ else _) => destruct b
  | |- emits _ (match ?x with _ => _ end) => destruct x
  | |- emits _ (let _ := _ in _) => cbv zeta
  end.

(** Peels the successful steps off a computation that returned normally. *)
Ltac peel E :=
  repeat (cbv zeta in E;
          lazymatch type of E with
          | bind _ _ _ = (Ok _, _) => apply bind_ok_inv in E as (? & ? & ? & E)
          | (if ?c then _ else _) _ = _ => destruct c eqn:?
          | throw _ _ = (Ok _, _) => discriminate E
          end).

Lemma positive_length w (items : list JSValue) (s s' : list Proxy.Request) :
  (if truthy (JArr items)
   then bind (lift (Get (JArr items) (js "length")))
          (fun len => bind (lift (ToNumber (Proxy.host w) len))
                        (fun n => ret (number_positive n)))
   else ret false) s = (Ok true, s') ->
  items <> [].
Proof.
  intros E X. subst items. vm_compute in E. discriminate E.
Qed.

Lemma searchHandler_cases w q t r t' :
  Proxy.searchHandler w q t = (r, t') ->
  (r = Ok (Proxy.missingParameters) /\ t' = t /\
   (truthy (Proxy.lat q) = false \/ truthy (Proxy.lon q) = false))
  \/
  (truthy (Proxy.lat q) = true /\ truthy (Proxy.lon q) = true /\
   exists evs, t' = t ++ Proxy.tokenRequest w :: evs /\
     ((exists e, r = Ok (Proxy.searchFailed e)) \/
      (exists items location searchDate,
          r = Ok {| Proxy.statusCode := 200;
                    Proxy.body := searchResult items location searchDate |}))).
Proof.
  unfold Proxy.searchHandler. cbv zeta.
  destruct (truthy (Proxy.lat q)) eqn:Tlat; simpl;
    [ destruct (truthy (Proxy.lon q)) eqn:Tlon; simpl | ];
    try solve [intros H; inversion H; subst; left; auto].
  intros H. right. split; [reflexivity | split; [reflexivity | ]].
  unfold try_catch in H.
  match type of H with
  | match ?b t with _ => _ end = _ => destruct (b t) as [rb tb] eqn:EB
  end.
  assert (T : exists evs, tb = t ++ Proxy.tokenRequest w :: evs).
  { apply bind_inv in EB as [(authResponse & t1 & E1 & EB) | (e & E1 & _)].
    - unfold Proxy.issue, bind, modify, lift in E1. inversion E1; subst t1.
      match type of EB with
      | ?m _ = _ => assert (F : emits (fun _ => True) m) by (repeat handler_step)
      end.
      destruct (F _ _ _ EB) as (evs & -> & _). exists evs. now rewrite <- app_assoc.
    - unfold Proxy.issue, bind, modify, lift in E1. inversion E1; subst.
      now exists []. }
  destruct T as (evs & ->). destruct rb as [reply | e].
  2:{ inversion H; subst. exists evs. split; [reflexivity | left; eauto]. }
  inversion H; subst; clear H. exists evs. split; [reflexivity | right].
  peel EB.
  - (* some products *)
    repeat match goal with
           | L : lift _ _ = (Ok _, _) |- _ => apply lift_inv in L as [L ->]
           end.
    match goal with
    | V1 : Get ?d (js "value") = Ok ?v1, V2 : Get ?d (js "value") = Ok ?v2 |- _ =>
        rewrite V1 in V2; inversion V2; subst v2
    end.
    match goal with
    | Hm : Proxy.mapValue _ ?v _ = (Ok ?imagery, _) |- _ =>
        destruct v; try discriminate Hm; simpl in Hm;
        pose proof (mapM_length _ _ _ _ _ Hm) as Len
    end.
    match goal with
    | Hs : (if truthy (JArr ?items) then _ else _) _ = (Ok true, _) |- _ =>
        apply positive_length in Hs
    end.
    match type of Len with
    | List.length ?im = List.length ?its =>
        destruct im as [ | item imagery];
        [destruct its; [contradiction | discriminate Len] | ]
    end.
    unfold ret in EB. injection EB as <- _.
    eexists (item :: imagery), _, _. reflexivity.
  - (* none *)
    unfold ret in EB. injection EB as <- _.
    eexists [], _, _. reflexivity.
Qed.

Lemma authHandler_cases w t r t' :
  Proxy.authHandler w t = (r, t') ->
  t' = t ++ [Proxy.tokenRequest w] /\
  ((exists token,
       r = Ok {| Proxy.statusCode := 200;
                 Proxy.body := JObj [(js "access_token", token)] |}) \/
   (exists e, r = Ok (Proxy.authFailed e))).
Proof.
  unfold Proxy.authHandler, try_catch, Proxy.issue, bind, modify, lift, ret, throw.
  intros H. split_all; invert_pairs; split; eauto.
Qed.

(* ================================================================== *)
(** * The claims                                                       *)
(* ================================================================== *)

(** C1.  Whenever the completion service answers the report request of
    phase 5 with a text that, fences stripped, is not JSON:
    [generateVerificationReport] rejects with the error "AI returned a
    report in an invalid format."; the run surfaces exactly this message in
    its [error] state, its last log entry is the "error" entry carrying the
    message (right after the "processing" entry of phase 5), the report
    stays null, and the loading flag is cleared. *)
Theorem C1_unreadable_report_aborts_run w req resp txt :
  generateContent w GenerateReport req = Ok resp ->
  text resp = Some txt ->
  JSON_parse (GeminiService.host w) (trim (replaceFences txt)) = None ->
  (forall file clues loc time ts sources sat r t,
      generateVerificationReport w file clues loc time ts sources sat [] = (r, t) ->
      In (Generate GenerateReport req) t ->
      r = Throw invalidFormat) /\
  err_message invalidFormat = js "AI returned a report in an invalid format." /\
  (forall file ts ctx u0 r s',
      runVerification w file ts ctx (start u0) = (r, s') ->
      In (Generate GenerateReport req) (trace s') ->
      r = Ok tt /\
      error (ui s') = Some (js "AI returned a report in an invalid format.") /\
      report (ui s') = None /\
      isLoading (ui s') = false /\
      ends_with [ (LogType.processing, phase5_start);
                  (LogType.error,
                   failed_message (js "AI returned a report in an invalid format.")) ]
                (log (ui s'))).
Proof.
  intros G T P. split; [ | split; [reflexivity | ] ].
  - intros file clues loc time ts sources sat r t E I.
    apply (generateVerificationReport_rejects w req resp txt G T P _ _ _ _ _ _ _ _ _ _ E);
      auto.
  - intros file ts ctx u0 r s'. apply (run_aborts w req resp txt G T P).
Qed.

(** C2.  Whenever the completion service answers the structuring request
    of phase 2 with a text that, fences stripped, is not JSON:
    [findLocationWithGrounding] returns normally the fallback estimate built
    on the grounded free text, whose confidence is 30, accuracy "region" and
    address that free text; and the run goes on to phase 3: it logs the
    start of phase 3 and calls the imagery client at the fallback's
    coordinates. *)
Theorem C2_unreadable_location_falls_back w req resp txt :
  generateContent w Structuring req = Ok resp ->
  text resp = Some txt ->
  JSON_parse (GeminiService.host w) (trim (replaceFences txt)) = None ->
  (forall clues ctx r t,
      findLocationWithGrounding w clues ctx [] = (r, t) ->
      In (Generate Structuring req) t ->
      exists req1 resp1,
        In (Generate GroundedSearch req1) t /\
        generateContent w GroundedSearch req1 = Ok resp1 /\
        r = Ok (fallbackLocation (fromOption (text resp1)), sourcesOf resp1)) /\
  (forall raw,
      Get (fallbackLocation raw) (js "confidence") = Ok (JNum (num 30)) /\
      Get (fallbackLocation raw) (js "accuracy") = Ok (JStr (js "region")) /\
      Get (fallbackLocation raw) (js "address") = Ok raw) /\
  (forall file ts ctx u0 r s',
      runVerification w file ts ctx (start u0) = (r, s') ->
      In (Generate Structuring req) (trace s') ->
      In (ImagerySearch (JNum (Decimal 315 (-1))) (JNum (Decimal 3445 (-2)))
            (datePart ts)) (trace s') /\
      logged LogType.processing phase3_start (log (ui s'))).
Proof.
  intros G T P. split; [ | split ].
  - intros clues ctx r t E I.
    destruct (findLocationWithGrounding_falls_back w req resp txt G T P _ _ _ _ _ E)
      as (req1 & resp1 & -> & G1 & ->); auto.
    exists req1, resp1. repeat split; auto. now left.
  - intros raw. repeat split; reflexivity.
  - intros file ts ctx u0 r s'. apply (run_reaches_phase3 w req resp txt G T P).
Qed.

(** C3.  Whenever the completion service answers the request of phase 4
    with a text that, fences stripped, is not JSON: [determineTimestamp]
    returns normally the estimate whose method is "error", confidence 0 and
    time of day "unknown"; and the run goes on to phase 5: it logs the start
    of phase 5 and reads the file for the report request. *)
Theorem C3_unreadable_time_falls_back w req resp txt :
  generateContent w DetermineTimestamp req = Ok resp ->
  text resp = Some txt ->
  JSON_parse (GeminiService.host w) (trim (replaceFences txt)) = None ->
  (forall file loc date r t,
      determineTimestamp w file loc date [] = (r, t) ->
      In (Generate DetermineTimestamp req) t ->
      r = Ok (fallbackTime resp)) /\
  (Get (fallbackTime resp) (js "primaryMethod") = Ok (JStr (js "error")) /\
   Get (fallbackTime resp) (js "confidence") = Ok (JNum (num 0)) /\
   Get (fallbackTime resp) (js "estimatedTimeOfDay") = Ok (JStr (js "unknown"))) /\
  (forall file ts ctx u0 r s',
      runVerification w file ts ctx (start u0) = (r, s') ->
      In (Generate DetermineTimestamp req) (trace s') ->
      logged LogType.processing phase5_start (log (ui s')) /\
      In (ReadFile GenerateReport file) (trace s')).
Proof.
  intros G T P. split; [ | split ].
  - intros file loc date r t E I.
    apply (determineTimestamp_falls_back w req resp txt G T P _ _ _ _ _ _ E); auto.
  - repeat split; reflexivity.
  - intros file ts ctx u0 r s'. apply (run_reaches_phase5 w req resp txt G T P).
Qed.

(** C10.  Whenever the structuring request of phase 2 is answered with a
    text that is not JSON, the estimate [findLocationWithGrounding] returns
    has latitude 31.5 and longitude 34.45, whatever the clues, the region
    the user submitted and the grounded free text. *)
Theorem C10_fallback_coordinates_are_fixed w req resp txt clues ctx r t :
  generateContent w Structuring req = Ok resp ->
  text resp = Some txt ->
  JSON_parse (GeminiService.host w) (trim (replaceFences txt)) = None ->
  findLocationWithGrounding w clues ctx [] = (r, t) ->
  In (Generate Structuring req) t ->
  exists locationData sources,
    r = Ok (locationData, sources) /\
    Get locationData (js "latitude") = Ok (JNum (Decimal 315 (-1))) /\
    Get locationData (js "longitude") = Ok (JNum (Decimal 3445 (-2))).
Proof.
  intros G T P E I.
  destruct (findLocationWithGrounding_falls_back w req resp txt G T P _ _ _ _ _ E)
    as (req1 & resp1 & _ & _ & ->); auto.
  eexists _, _. repeat split; reflexivity.
Qed.

(** C4.  Whatever the coordinates and the date, if every request the
    imagery client issues meets a transport or upstream error (the request
    throws, the response is not ok, or its body is not JSON; an exception
    before any request included), [getSatelliteImagery] returns normally a
    result with [available = false], the coordinates it was called with, and
    as search date the date it was given, or today's date when it was given
    none (null or the empty string). *)
Theorem C4_imagery_failure_degrades w lat lon date r t :
  getSatelliteImagery w lat lon date [] = (r, t) ->
  (forall url, In (Fetch url) t -> fetch_failed w url) ->
  r = Ok (unavailable w lat lon date) /\
  Get (unavailable w lat lon date) (js "available") = Ok (JBool false) /\
  Get (unavailable w lat lon date) (js "location")
  = Ok (JObj [(js "lat", lat); (js "lon", lon)]) /\
  Get (unavailable w lat lon date) (js "searchDate")
  = Ok (JStr match date with
             | Some d => if nonempty d then d else today w 1
             | None => today w 1
             end).
Proof.
  intros E F. split; [ | split; [reflexivity | split; [reflexivity | ] ] ].
  - apply getSatelliteImagery_cases in E as [[-> ->] | (url & -> & ->)];
      [reflexivity | ].
    specialize (F url (or_intror (or_introl eq_refl))). unfold fetch_failed in F.
    destruct (GeminiService.fetch w url) as [response | e]; [ | reflexivity].
    destruct F as [-> | (e & ->)]; [reflexivity | ].
    now destruct (ok response).
  - destruct date as [d | ]; reflexivity.
Qed.

(** C5.  A search request without [lat] or without [lon] is answered with
    status 400 and the error kind "Missing required parameters", and nothing
    is asked of the upstream: the list of upstream requests is left as it
    was. *)
Theorem C5_missing_coordinates_rejected w q t :
  Proxy.lat q = JUndefined \/ Proxy.lon q = JUndefined ->
  Proxy.searchHandler w q t = (Ok Proxy.missingParameters, t) /\
  Proxy.statusCode Proxy.missingParameters = 400%Z /\
  Get (Proxy.body Proxy.missingParameters) (js "error")
  = Ok (JStr (js "Missing required parameters")).
Proof.
  intros H. split; [ | split; reflexivity ].
  unfold Proxy.searchHandler, try_catch. cbv zeta.
  destruct H as [-> | ->]; simpl; [reflexivity | ].
  destruct (truthy (Proxy.lat q)); reflexivity.
Qed.

(** C6.  The guard of phase 3 tests the coordinates for truthiness, so a
    coordinate that is present and equal to zero is taken for a missing one.
    At the answer [greenwichJson] (latitude 51.4779, longitude 0.0) phase 2
    returns an estimate with both coordinates present, the guard is false,
    and the run completes with a report without ever calling the imagery
    client or logging the start of phase 3. *)
Theorem C6_zero_longitude_skips_imagery :
  fst (findLocationWithGrounding (Sample.world Sample.greenwich)
         (JStr Sample.cluesText) (js "Gaza Strip") [])
  = Ok (Sample.greenwichEstimate, sourcesOf Sample.groundedAnswer) /\
  Get Sample.greenwichEstimate (js "latitude") = Ok (JNum (Decimal 514779 (-4))) /\
  Get Sample.greenwichEstimate (js "longitude") = Ok (JNum (Decimal 0 (-1))) /\
  hasCoordinates Sample.greenwichEstimate = Ok false /\
  fst (Sample.run (Sample.world Sample.greenwich)) = Ok tt /\
  report (ui (snd (Sample.run (Sample.world Sample.greenwich)))) <> None /\
  (forall lat lon date,
      ~ In (ImagerySearch lat lon date)
           (trace (snd (Sample.run (Sample.world Sample.greenwich))))) /\
  ~ logged LogType.processing phase3_start
      (log (ui (snd (Sample.run (Sample.world Sample.greenwich))))).
Proof.
  repeat split; try (vm_compute; reflexivity).
  - vm_compute. discriminate.
  - intros lat lon date X. vm_compute in X.
    repeat (destruct X as [X | X]; [discriminate X | ]). exact X.
  - intros (e & X & K & Msg). vm_compute in X.
    repeat (destruct X as [X | X]; [subst e; vm_compute in Msg; discriminate Msg | ]).
    exact X.
Qed.

(** The guard in general: phase 3 is skipped as soon as a coordinate is
    falsy, and runs when both are truthy. *)
Lemma hasCoordinates_truthy loc lat lon :
  Get loc (js "latitude") = Ok lat ->
  Get loc (js "longitude") = Ok lon ->
  hasCoordinates loc = Ok (truthy lat && truthy lon).
Proof.
  intros Glat Glon. unfold hasCoordinates. rewrite Glat.
  destruct (truthy lat); [now rewrite Glon | reflexivity].
Qed.

(** A zero longitude always skips phase 3, whatever else the estimate
    holds. *)
Lemma phase3_skipped_on_zero_longitude w ts loc lat e s :
  Get loc (js "latitude") = Ok lat ->
  Get loc (js "longitude") = Ok (JNum (Decimal 0 e)) ->
  phase3 w ts loc s = (Ok JNull, s).
Proof.
  intros Glat Glon. apply phase3_skipped.
  rewrite (hasCoordinates_truthy loc lat (JNum (Decimal 0 e)) Glat Glon).
  simpl. now rewrite andb_false_r.
Qed.

(** The proxy's own guard reads the coordinates as query strings, and the
    string "0" is truthy: a search on the prime meridian goes upstream. *)
Lemma proxy_accepts_zero_longitude :
  exists reply,
    fst (Proxy.searchHandler (Sample.proxy Sample.configured [Sample.product])
           Sample.greenwichQuery [])
    = Ok reply /\
    Proxy.statusCode reply = 200%Z.
Proof. eexists. split; vm_compute; reflexivity. Qed.

(** C7, as stated, fails at the proxy: when nothing matches, the reply
    carries an imagery field (the empty array) although [available] is
    false. *)
Lemma C7_empty_imagery_is_present :
  exists reply requests,
    Proxy.searchHandler (Sample.proxy Sample.configured []) Sample.gaza []
    = (Ok reply, requests) /\
    Proxy.statusCode reply = 200%Z /\
    Get (Proxy.body reply) (js "imagery") = Ok (JArr []) /\
    Get (Proxy.body reply) (js "available") = Ok (JBool false) /\
    ~ imagery_iff_available (Proxy.body reply).
Proof.
  eexists _, _. split; [vm_compute; reflexivity | ].
  repeat split; try reflexivity.
  intros [X _]. assert (Y : Ok (JBool false) = Ok (JBool true)); [ | discriminate Y].
  apply X. discriminate.
Qed.

(** C7, amended.  In every 200 reply of the search route the imagery field
    is present, an array, and it is non-empty exactly when [available] is
    true.  The imagery client adds nothing of its own to a result: when the
    request it sent was answered ok with a JSON body it returns that body
    unchanged, and in every other case (no request sent, a request that
    failed, a response that is not ok or whose body is not JSON) it returns
    its fallback, which has no imagery field and [available = false]. *)
Theorem C7_imagery_nonempty_iff_available w q t reply t' :
  Proxy.searchHandler w q t = (Ok reply, t') ->
  Proxy.statusCode reply = 200%Z ->
  (exists items,
      Get (Proxy.body reply) (js "imagery") = Ok (JArr items) /\
      (Get (Proxy.body reply) (js "available") = Ok (JBool true) <-> items <> [])) /\
  (forall cw lat lon date,
      Get (unavailable cw lat lon date) (js "imagery") = Ok JUndefined /\
      Get (unavailable cw lat lon date) (js "available") = Ok (JBool false)) /\
  (forall cw lat lon date tr r tr',
      getSatelliteImagery cw lat lon date tr = (r, tr') ->
      (tr' = tr ++ [ImagerySearch lat lon date] /\
       r = Ok (unavailable cw lat lon date))
      \/
      (exists url,
          tr' = tr ++ [ImagerySearch lat lon date; Fetch url] /\
          r = Ok match okBody (GeminiService.fetch cw url) with
                 | Some data => data
                 | None => unavailable cw lat lon date
                 end)).
Proof.
  intros E S. split; [ | split ].
  - apply searchHandler_cases in E
      as [(X & _) | (_ & _ & evs & _ & [(e & X) | (items & loc & d & X)])];
      inversion X; subst reply; try discriminate S.
    exists items. split; [reflexivity | ].
    destruct items; simpl; split; intros H; try discriminate; congruence.
  - intros cw lat lon date. split; reflexivity.
  - intros cw lat lon date tr r tr' G.
    apply getSatelliteImagery_cases in G as [[-> ->] | (url & -> & ->)];
      [now left | right].
    exists url. split; [reflexivity | ]. unfold okBody.
    destruct (GeminiService.fetch cw url) as [response | e]; [ | reflexivity].
    destruct (ok response); [ | reflexivity].
    destruct (json response); reflexivity.
Qed.

(** C8, as stated, fails on every successful run: the entry after the
    "success" entry, the verdict, is of kind "info". *)
Lemma C8_successful_log_ends_with_info :
  fst (Sample.run (Sample.world Sample.nominal)) = Ok tt /\
  report (ui (snd (Sample.run (Sample.world Sample.nominal)))) <> None /\
  lastKind (log (ui (snd (Sample.run (Sample.world Sample.nominal)))))
  = Some LogType.info.
Proof.
  repeat split; try (vm_compute; reflexivity). vm_compute. discriminate.
Qed.

(** C8, amended.  For every completed run in which the service was
    constructed, the log ends with a terminal entry: either the run failed
    and the last entry is the "error" entry carrying the message kept in
    the [error] state, or no error is recorded, the report is set, and the
    log ends with the "success" entry followed by one "info" entry that
    gives the verdict and the confidence score of that report. *)
Theorem C8_completed_run_has_terminal_entry w file ts ctx u0 r s' :
  constructor w = Ok tt ->
  runVerification w file ts ctx (start u0) = (r, s') ->
  (exists msg,
      error (ui s') = Some msg /\
      ends_with [(LogType.error, failed_message msg)] (log (ui s')))
  \/
  (error (ui s') = None /\
   exists finalReport verdict confidenceScore sverdict sconfidenceScore,
     report (ui s') = Some finalReport /\
     Get finalReport (js "verdict") = Ok verdict /\
     ToString (GeminiService.host w) verdict = Ok sverdict /\
     Get finalReport (js "confidenceScore") = Ok confidenceScore /\
     ToString (GeminiService.host w) confidenceScore = Ok sconfidenceScore /\
     ends_with [ (LogType.success, complete_message);
                 (LogType.info, verdict_message sverdict sconfidenceScore) ]
               (log (ui s'))).
Proof.
  intros K H. destruct (run_ends _ _ _ _ _ _ _ K H) as (_ & _ & E). exact E.
Qed.

(** Without the API key the constructor throws outside the [try] block:
    the run rejects with no log entry at all and the loading flag set. *)
Lemma keyless_run_rejects :
  Sample.run Sample.keyless
  = (Throw (Error (js "API_KEY environment variable not set")), cleared).
Proof. vm_compute. reflexivity. Qed.

(** C9, as stated, fails: with no credentials configured the search
    handler still sends the token request upstream, with the text
    "undefined" for both credentials, and what the caller gets is the
    ordinary "Search failed" envelope. *)
Lemma C9_unconfigured_proxy_asks_upstream :
  credentials_absent Sample.unconfigured /\
  Proxy.searchHandler (Sample.proxy Sample.unconfigured [Sample.product]) Sample.gaza []
  = (Ok {| Proxy.statusCode := 500;
           Proxy.body := JObj [ (js "error", JStr (js "Search failed"));
                                (js "message", JStr (js "Authentication failed"));
                                (js "details", JStr (js "Authentication failed")) ] |},
     [ {| Proxy.url := Proxy.tokenUrl;
          Proxy.method := js "POST";
          Proxy.headers := [(js "Content-Type", js "application/x-www-form-urlencoded")];
          Proxy.form := [ (js "grant_type", js "client_credentials");
                          (js "client_id", js "undefined");
                          (js "client_secret", js "undefined") ] |} ]) /\
  ~ fails_fast
      (Proxy.searchHandler (Sample.proxy Sample.unconfigured [Sample.product])
         Sample.gaza []).
Proof.
  split; [split; reflexivity | split; [vm_compute; reflexivity | ] ].
  intros [X _]. vm_compute in X. discriminate X.
Qed.

(** C9, amended.  When a client credential is missing from the proxy's
    configuration no check is made: a search request with coordinates still
    sends the token request upstream first, the text "undefined" standing
    for what is missing, and the caller gets either a 200 reply or the
    ordinary 500 envelope of kind "Search failed", never a configuration
    error; the auth route does the same, with the kind "Authentication
    failed". *)
Theorem C9_absent_credentials_are_sent_as_undefined w q t r t' :
  Proxy.COPERNICUS_CLIENT_ID (Proxy.env w) = None \/
  Proxy.COPERNICUS_CLIENT_SECRET (Proxy.env w) = None ->
  truthy (Proxy.lat q) = true ->
  truthy (Proxy.lon q) = true ->
  Proxy.searchHandler w q t = (r, t') ->
  (exists evs, t' = t ++ Proxy.tokenRequest w :: evs) /\
  (In (js "client_id", js "undefined") (Proxy.form (Proxy.tokenRequest w)) \/
   In (js "client_secret", js "undefined") (Proxy.form (Proxy.tokenRequest w))) /\
  ((exists e,
       r = Ok (Proxy.searchFailed e) /\
       Proxy.statusCode (Proxy.searchFailed e) = 500%Z /\
       Get (Proxy.body (Proxy.searchFailed e)) (js "error")
       = Ok (JStr (js "Search failed")))
   \/
   (exists items location searchDate,
       r = Ok {| Proxy.statusCode := 200;
                 Proxy.body := searchResult items location searchDate |})) /\
  (forall reply,
      r = Ok reply ->
      Get (Proxy.body reply) (js "error") <> Ok (JStr (js "AuthConfigurationError"))) /\
  (forall ta ra ta',
      Proxy.authHandler w ta = (ra, ta') ->
      ta' = ta ++ [Proxy.tokenRequest w] /\
      ((exists token,
           ra = Ok {| Proxy.statusCode := 200;
                      Proxy.body := JObj [(js "access_token", token)] |}) \/
       (exists e,
           ra = Ok (Proxy.authFailed e) /\
           Proxy.statusCode (Proxy.authFailed e) = 500%Z /\
           Get (Proxy.body (Proxy.authFailed e)) (js "error")
           = Ok (JStr (js "Authentication failed"))))).
Proof.
  intros A Tlat Tlon E.
  apply searchHandler_cases in E as [(_ & _ & [X | X]) | (_ & _ & evs & -> & C)];
    try congruence.
  split; [eauto | split; [ | split; [ | split ] ] ].
  - unfold Proxy.tokenRequest; simpl. destruct A as [-> | ->]; simpl; auto.
  - destruct C as [(e & ->) | C]; [left; exists e; auto | now right].
  - intros reply R. destruct C as [(e & ->) | (items & loc & d & ->)];
      inversion R; subst reply; vm_compute; discriminate.
  - intros ta ra ta' Ea. apply authHandler_cases in Ea as [-> [X | (e & ->)]].
    + split; [reflexivity | now left].
    + split; [reflexivity | right; exists e; auto].
Qed.

(** ** The claims at concrete inputs *)

Ltac pick := vm_compute; repeat (first [left; reflexivity | right]).

Lemma C1_witness :
  error (ui (snd (Sample.run (Sample.world Sample.badReport))))
  = Some (js "AI returned a report in an invalid format.") /\
  report (ui (snd (Sample.run (Sample.world Sample.badReport)))) = None.
Proof.
  unfold Sample.run, Sample.fresh.
  set (out := runVerification _ _ _ _ _).
  destruct (C1_unreadable_report_aborts_run (Sample.world Sample.badReport)
              (Sample.requestOf GenerateReport (trace (snd out)))
              {| text := Some Sample.prose; groundingChunks := None |} Sample.prose)
    as (_ & _ & R).
  - reflexivity.
  - reflexivity.
  - vm_compute; reflexivity.
  - destruct (R Sample.photo (js "2024-10-23T15:30") (js "Gaza Strip") Sample.idle
                (fst out) (snd out)) as (_ & E & Rp & _).
    + exact (surjective_pairing out).
    + pick.
    + split; [exact E | exact Rp].
Defined.

Lemma C2_witness :
  fst (findLocationWithGrounding (Sample.world Sample.badLocation)
         (JStr Sample.cluesText) (js "Gaza Strip") [])
  = Ok (fallbackLocation (JStr Sample.groundedText), sourcesOf Sample.groundedAnswer) /\
  logged LogType.processing phase3_start
    (log (ui (snd (Sample.run (Sample.world Sample.badLocation))))).
Proof.
  unfold Sample.run, Sample.fresh.
  set (out := runVerification _ _ _ _ _).
  set (call := findLocationWithGrounding _ _ _ _).
  destruct (C2_unreadable_location_falls_back (Sample.world Sample.badLocation)
              (Sample.requestOf Structuring (trace (snd out)))
              {| text := Some Sample.prose; groundingChunks := None |} Sample.prose)
    as (F & _ & R).
  - reflexivity.
  - reflexivity.
  - vm_compute; reflexivity.
  - split.
    + vm_compute. reflexivity.
    + destruct (R Sample.photo (js "2024-10-23T15:30") (js "Gaza Strip") Sample.idle
                  (fst out) (snd out)) as (_ & L).
      * exact (surjective_pairing out).
      * pick.
      * exact L.
Defined.

Lemma C3_witness :
  fst (determineTimestamp (Sample.world Sample.badTime) Sample.photo
         Sample.greenwichEstimate (Some (js "2024-10-23")) [])
  = Ok (fallbackTime {| text := Some Sample.prose; groundingChunks := None |}) /\
  logged LogType.processing phase5_start
    (log (ui (snd (Sample.run (Sample.world Sample.badTime))))).
Proof.
  unfold Sample.run, Sample.fresh.
  set (out := runVerification _ _ _ _ _).
  destruct (C3_unreadable_time_falls_back (Sample.world Sample.badTime)
              (Sample.requestOf DetermineTimestamp (trace (snd out)))
              {| text := Some Sample.prose; groundingChunks := None |} Sample.prose)
    as (_ & _ & R).
  - reflexivity.
  - reflexivity.
  - vm_compute; reflexivity.
  - split.
    + vm_compute. reflexivity.
    + destruct (R Sample.photo (js "2024-10-23T15:30") (js "Gaza Strip") Sample.idle
                  (fst out) (snd out)) as (L & _).
      * exact (surjective_pairing out).
      * pick.
      * exact L.
Defined.

Lemma C4_witness :
  fst (getSatelliteImagery (Sample.world Sample.badLocation)
         (JNum (Decimal 315 (-1))) (JNum (Decimal 3445 (-2))) None [])
  = Ok (unavailable (Sample.world Sample.badLocation)
          (JNum (Decimal 315 (-1))) (JNum (Decimal 3445 (-2))) None) /\
  Get (unavailable (Sample.world Sample.badLocation)
         (JNum (Decimal 315 (-1))) (JNum (Decimal 3445 (-2))) None) (js "searchDate")
  = Ok (JStr (js "2024-10-23")).
Proof.
  set (out := getSatelliteImagery _ _ _ _ _).
  destruct (C4_imagery_failure_degrades (Sample.world Sample.badLocation)
              (JNum (Decimal 315 (-1))) (JNum (Decimal 3445 (-2))) None
              (fst out) (snd out)) as (E & _).
  - exact (surjective_pairing out).
  - intros url _. vm_compute. exact I.
  - split; [exact E | vm_compute; reflexivity].
Defined.

Lemma C5_witness :
  Proxy.searchHandler (Sample.proxy Sample.configured [Sample.product])
    Sample.noLatitude []
  = (Ok Proxy.missingParameters, []).
Proof.
  apply (C5_missing_coordinates_rejected
           (Sample.proxy Sample.configured [Sample.product]) Sample.noLatitude []).
  left. reflexivity.
Defined.

Lemma C7_witness :
  exists items,
    Get (Proxy.body (Sample.hit)) (js "imagery") = Ok (JArr items) /\ items <> [].
Proof.
  destruct (C7_imagery_nonempty_iff_available
              (Sample.proxy Sample.configured [Sample.product]) Sample.gaza []
              Sample.hit
              (snd (Proxy.searchHandler
                      (Sample.proxy Sample.configured [Sample.product]) Sample.gaza [])))
    as ((items & G & A) & _).
  - vm_compute. reflexivity.
  - reflexivity.
  - exists items. split; [exact G | ]. apply A. reflexivity.
Defined.

Lemma C8_witness :
  ends_with [ (LogType.success, complete_message);
              (LogType.info, verdict_message (js "Verified") (js "82")) ]
            (log (ui (snd (Sample.run (Sample.world Sample.nominal))))).
Proof.
  unfold Sample.run, Sample.fresh.
  set (out := runVerification _ _ _ _ _).
  destruct (C8_completed_run_has_terminal_entry (Sample.world Sample.nominal)
              Sample.photo (js "2024-10-23T15:30") (js "Gaza Strip") Sample.idle
              (fst out) (snd out))
    as [(msg & E & _) | (_ & rep & v & c & sv & sc & R & Gv & Tv & Gc & Tc & L)].
  - reflexivity.
  - exact (surjective_pairing out).
  - exfalso. vm_compute in E. discriminate E.
  - assert (X : Some rep = Some (Sample.reportOf out)) by (rewrite <- R; reflexivity).
    inversion X; subst rep; clear X R.
    assert (Y : Ok sv = Ok (js "Verified")).
    { rewrite <- Tv. vm_compute in Gv. inversion Gv; subst v. reflexivity. }
    assert (Z : Ok sc = Ok (js "82")).
    { rewrite <- Tc. vm_compute in Gc. inversion Gc; subst c. vm_compute. reflexivity. }
    inversion Y; subst sv. inversion Z; subst sc. exact L.
Defined.

Lemma C9_witness :
  exists evs,
    snd (Proxy.searchHandler (Sample.proxy Sample.unconfigured [Sample.product])
           Sample.gaza [])
    = [] ++ Proxy.tokenRequest (Sample.proxy Sample.unconfigured [Sample.product]) :: evs.
Proof.
  set (out := Proxy.searchHandler _ _ _).
  destruct (C9_absent_credentials_are_sent_as_undefined
              (Sample.proxy Sample.unconfigured [Sample.product]) Sample.gaza []
              (fst out) (snd out)) as (T & _).
  - left. reflexivity.
  - reflexivity.
  - reflexivity.
  - exact (surjective_pairing out).
  - exact T.
Defined.

Lemma C10_witness :
  exists locationData sources,
    fst (findLocationWithGrounding (Sample.world Sample.badLocation)
           (JStr Sample.cluesText) (js "Johannesburg") [])
    = Ok (locationData, sources) /\
    Get locationData (js "latitude") = Ok (JNum (Decimal 315 (-1))) /\
    Get locationData (js "longitude") = Ok (JNum (Decimal 3445 (-2))).
Proof.
  set (out := findLocationWithGrounding _ _ _ _).
  apply (C10_fallback_coordinates_are_fixed (Sample.world Sample.badLocation)
           (Sample.requestOf Structuring (snd out))
           {| text := Some Sample.prose; groundingChunks := None |} Sample.prose
           (JStr Sample.cluesText) (js "Johannesburg") (fst out) (snd out)).
  - reflexivity.
  - reflexivity.
  - vm_compute; reflexivity.
  - exact (surjective_pairing out).
  - pick.
Defined.

(* ================================================================== *)
(** * Further properties                                               *)
(* ================================================================== *)

(** ** Strings *)

Lemma split_head_app sep a b :
  ~ In sep a -> split_head sep (a ++ sep :: b) = a.
Proof.
  induction a as [| c a IH]; simpl; intros N.
  - now rewrite N.eqb_refl.
  - destruct (N.eqb_spec c sep) as [-> | _]; [elim N; auto | ].
    f_equal. apply IH. auto.
Qed.

Lemma split_head_all sep a : ~ In sep a -> split_head sep a = a.
Proof.
  induction a as [| c a IH]; simpl; intros N; [reflexivity | ].
  destruct (N.eqb_spec c sep) as [-> | _]; [elim N; auto | ].
  f_equal. apply IH. auto.
Qed.

Lemma split_second_app sep a b :
  ~ In sep a -> split_second sep (a ++ sep :: b) = Some (split_head sep b).
Proof.
  induction a as [| c a IH]; simpl; intros N.
  - now rewrite N.eqb_refl.
  - destruct (N.eqb_spec c sep) as [-> | _]; [elim N; auto | ].
    apply IH. auto.
Qed.

Lemma split_second_none sep a : ~ In sep a -> split_second sep a = None.
Proof.
  induction a as [| c a IH]; simpl; intros N; [reflexivity | ].
  destruct (N.eqb_spec c sep) as [-> | _]; [elim N; auto | ].
  apply IH. auto.
Qed.

(** ** Fences and white space *)
Lemma replaceFences_from_skipn k s :
  replaceFences_from k s = replaceFences_from 0 (skipn k s).
Proof.
  revert s. induction k as [| k IH]; intros s; [reflexivity | ].
  destruct s as [| c s]; simpl; [reflexivity | apply IH].
Qed.

Lemma startsWith_app p s : startsWith p (p ++ s) = true.
Proof. induction p as [| c p IH]; simpl; [reflexivity | now rewrite N.eqb_refl]. Qed.

Lemma startsWith_inv p s : startsWith p s = true -> exists r, s = p ++ r.
Proof.
  revert s. induction p as [| c p IH]; intros s H; simpl in *.
  - now exists s.
  - destruct s as [| d s]; [discriminate | ].
    apply andb_true_iff in H as [E H]. apply N.eqb_eq in E as ->.
    destruct (IH _ H) as (r & ->). now exists r.
Qed.

Lemma fence_json_fence s : startsWith fence_json s = true -> startsWith fence s = true.
Proof.
  intros H. apply startsWith_inv in H as (r & ->). reflexivity.
Qed.

Lemma replaceFences_plain c s :
  startsWith fence (c :: s) = false ->
  replaceFences_from 0 (c :: s) = c :: replaceFences_from 0 s.
Proof.
  intros H. cbn [replaceFences_from].
  destruct (startsWith fence_json (c :: s)) eqn:J.
  - apply fence_json_fence in J. congruence.
  - now rewrite H.
Qed.

Lemma startsWith_fence s :
  startsWith fence s =
  match s with
  | c :: d :: e :: _ => (96 =? c)%N && ((96 =? d)%N && (96 =? e)%N)
  | _ => false
  end.
Proof.
  change fence with [96%N; 96%N; 96%N].
  destruct s as [| c [| d [| e r]]]; cbn [startsWith];
    rewrite ?andb_false_r, ?andb_true_r; reflexivity.
Qed.

(** No fence is left in a text once the fences are stripped. *)
Lemma replaceFences_shorter n :
  forall s, (List.length s <= n)%nat ->
  forall a b, replaceFences_from 0 s <> a ++ fence ++ b.
Proof.
  induction n as [| n IH]; intros s L a b.
  - destruct s; [ | simpl in L; lia]. simpl. destruct a; discriminate.
  - destruct s as [| c rest]; [simpl; destruct a; discriminate | ].
    simpl in L.
    destruct (startsWith fence (c :: rest)) eqn:F.
    + cbn [replaceFences_from].
      destruct (startsWith fence_json (c :: rest)) eqn:J.
      * rewrite replaceFences_from_skipn. apply IH.
        pose proof (length_skipn 6 rest). lia.
      * rewrite F. rewrite replaceFences_from_skipn. apply IH.
        pose proof (length_skipn 2 rest). lia.
    + rewrite (replaceFences_plain _ _ F).
      intros E. destruct a as [| x a].
      * (* the fence would start here *)
        change ([] ++ fence ++ b) with (96%N :: 96%N :: 96%N :: b) in E.
        injection E as -> E.
        rewrite startsWith_fence in F.
        destruct rest as [| d rest]; [discriminate E | ].
        destruct (N.eqb_spec 96 d) as [<- | Nd].
        -- destruct rest as [| e rest]; [discriminate E | ].
           rewrite !N.eqb_refl in F. cbn [andb] in F.
           rewrite (replaceFences_plain 96%N (e :: rest)) in E
             by (rewrite startsWith_fence; destruct rest; [reflexivity | ];
                 now rewrite F, andb_false_r).
           rewrite (replaceFences_plain e rest) in E
             by (rewrite startsWith_fence; destruct rest as [| ? [| ? ?]];
                 [reflexivity | reflexivity | now rewrite F]).
           injection E as E _. rewrite <- E, N.eqb_refl in F. discriminate F.
        -- rewrite (replaceFences_plain d rest) in E.
           ++ injection E as E _. congruence.
           ++ rewrite startsWith_fence. apply N.eqb_neq in Nd.
              destruct rest as [| ? [| ? ?]]; try reflexivity. now rewrite Nd.
      * injection E as _ E. revert E. apply IH. lia.
Qed.


Lemma includes_inv p s : includes p s = true -> exists a b, s = a ++ p ++ b.
Proof.
  induction s as [| c s IH]; simpl; intros H.
  - rewrite orb_false_r in H. apply startsWith_inv in H as (r & ->). now exists [], r.
  - apply orb_true_iff in H as [H | H].
    + apply startsWith_inv in H as (r & ->). now exists [], r.
    + destruct (IH H) as (a & b & ->). now exists (c :: a), b.
Qed.

Lemma includes_app_r p a s : includes p s = true -> includes p (a ++ s) = true.
Proof.
  intros H. induction a as [| c a IH]; simpl; [assumption | ].
  rewrite IH. apply orb_true_r.
Qed.

Lemma startsWith_app_l p s b : startsWith p s = true -> startsWith p (s ++ b) = true.
Proof.
  intros H. apply startsWith_inv in H as (r & ->). rewrite <- app_assoc.
  apply startsWith_app.
Qed.

Lemma includes_app_l p s b : includes p s = true -> includes p (s ++ b) = true.
Proof.
  induction s as [| c s IH]; simpl; intros H.
  - rewrite orb_false_r in H. destruct p; [ | discriminate H ].
    destruct b; reflexivity.
  - apply orb_true_iff in H as [H | H].
    + change (c :: s ++ b) with ((c :: s) ++ b).
      now rewrite (startsWith_app_l _ _ b H).
    + rewrite (IH H). apply orb_true_r.
Qed.

Lemma trimStart_suffix s : exists ws, s = ws ++ trimStart s.
Proof.
  induction s as [| c s (ws & IH)]; simpl; [now exists [] | ].
  destruct (isWhiteSpace c); [ | now exists [] ].
  exists (c :: ws). simpl. now f_equal.
Qed.

Lemma trim_inside s : exists a b, s = a ++ trim s ++ b.
Proof.
  unfold trim, trimEnd.
  destruct (trimStart_suffix s) as (a & Ea).
  destruct (trimStart_suffix (rev (trimStart s))) as (b & Eb).
  exists a, (rev b). rewrite <- rev_app_distr, <- Eb, rev_involutive. exact Ea.
Qed.

Lemma includes_trim p s : includes p (trim s) = true -> includes p s = true.
Proof.
  intros H. destruct (trim_inside s) as (a & b & E). rewrite E.
  apply includes_app_r, includes_app_l, H.
Qed.


(** X2.  The text handed to [JSON.parse] by the three methods that read a
    model answer, the answer with its fences stripped and trimmed, never
    holds a fence: stripping leaves no three backticks in a row, whatever
    the answer was. *)
Theorem X2_no_fence_reaches_the_parser t :
  includes fence (trim (replaceFences t)) = false.
Proof.
  destruct (includes fence (trim (replaceFences t))) eqn:I; [ | reflexivity ].
  apply includes_trim, includes_inv in I as (a & b & E).
  elim (replaceFences_shorter (List.length t) t (le_n _) a b E).
Qed.


Lemma replaceFences_no_tick a s :
  ~ In 96%N a -> replaceFences_from 0 (a ++ s) = a ++ replaceFences_from 0 s.
Proof.
  induction a as [| c a IH]; intros N; [reflexivity | ].
  change ((c :: a) ++ s) with (c :: a ++ s).
  rewrite replaceFences_plain.
  - simpl. f_equal. apply IH. intros X; apply N; now right.
  - rewrite startsWith_fence.
    assert (Nc : (96 =? c)%N = false) by (apply N.eqb_neq; intros <-; apply N; now left).
    destruct (a ++ s) as [| ? [| ? ?]]; try reflexivity. now rewrite Nc.
Qed.

Lemma replaceFences_none a : ~ In 96%N a -> replaceFences a = a.
Proof.
  intros N. unfold replaceFences.
  rewrite <- (app_nil_r a) at 1. rewrite (replaceFences_no_tick a [] N).
  simpl. apply app_nil_r.
Qed.

Lemma blank_no_tick ws : blank ws = true -> ~ In 96%N ws.
Proof.
  unfold blank. intros B I. rewrite forallb_forall in B.
  specialize (B _ I). vm_compute in B. discriminate B.
Qed.

Lemma trimStart_blank ws s : blank ws = true -> trimStart (ws ++ s) = trimStart s.
Proof.
  unfold blank. induction ws as [| c ws IH]; simpl; intros B; [reflexivity | ].
  apply andb_true_iff in B as [Bc B]. rewrite Bc. auto.
Qed.

Lemma blank_rev ws : blank ws = true -> blank (rev ws) = true.
Proof.
  unfold blank. rewrite !forallb_forall. intros B x I. apply B. now apply in_rev.
Qed.

Lemma trimEnd_blank s ws : blank ws = true -> trimEnd (s ++ ws) = trimEnd s.
Proof.
  intros B. unfold trimEnd. rewrite rev_app_distr.
  now rewrite (trimStart_blank _ _ (blank_rev _ B)).
Qed.

Lemma trimStart_app s ws :
  blank ws = true -> trimEnd (trimStart (s ++ ws)) = trimEnd (trimStart s).
Proof.
  intros B. induction s as [| c s IH]; simpl.
  - rewrite <- (app_nil_r ws) at 1. rewrite (trimStart_blank ws [] B). reflexivity.
  - destruct (isWhiteSpace c); [exact IH | ].
    change (c :: s ++ ws) with ((c :: s) ++ ws). now apply trimEnd_blank.
Qed.

Lemma trim_blank a s b : blank a = true -> blank b = true -> trim (a ++ s ++ b) = trim s.
Proof.
  intros Ba Bb. unfold trim. rewrite (trimStart_blank a _ Ba).
  now apply trimStart_app.
Qed.

Lemma blank_app a b : blank a = true -> blank b = true -> blank (a ++ b) = true.
Proof. unfold blank. intros A B. now rewrite forallb_app, A, B. Qed.

Lemma replaceFences_closing ws :
  blank ws = true -> replaceFences_from 0 (fence ++ ws) = ws.
Proof.
  intros B. change (fence ++ ws) with (96%N :: 96%N :: 96%N :: ws).
  cbn [replaceFences_from].
  assert (J : startsWith fence_json (96%N :: 96%N :: 96%N :: ws) = false).
  { destruct ws as [| c ws]; [reflexivity | ].
    unfold blank in B. simpl in B. apply andb_true_iff in B as [Bc _].
    change fence_json with [96%N; 96%N; 96%N; 106%N; 115%N; 111%N; 110%N].
    cbn [startsWith]. rewrite !N.eqb_refl. cbn [andb].
    destruct (N.eqb_spec 106 c) as [<- | _]; [vm_compute in Bc; discriminate Bc | reflexivity]. }
  rewrite J.
  change (startsWith fence (96%N :: 96%N :: 96%N :: ws)) with true. cbn iota.
  cbn [replaceFences_from].
  rewrite <- (app_nil_r ws) at 1.
  rewrite (replaceFences_no_tick ws [] (blank_no_tick _ B)). apply app_nil_r.
Qed.

Lemma replaceFences_fenced ws0 ws1 body ws2 ws3 :
  blank ws0 = true -> blank ws1 = true -> blank ws2 = true -> blank ws3 = true ->
  ~ In 96%N body ->
  trim (replaceFences (ws0 ++ fence_json ++ ws1 ++ body ++ ws2 ++ fence ++ ws3))
  = trim body.
Proof.
  intros B0 B1 B2 B3 N. unfold replaceFences.
  rewrite (replaceFences_no_tick ws0 _ (blank_no_tick _ B0)).
  assert (O : forall s, replaceFences_from 0 (fence_json ++ s) = replaceFences_from 0 s).
  { intros s. change (fence_json ++ s)
      with (96%N :: 96%N :: 96%N :: 106%N :: 115%N :: 111%N :: 110%N :: s).
    reflexivity. }
  rewrite O.
  rewrite (replaceFences_no_tick ws1 _ (blank_no_tick _ B1)).
  rewrite (replaceFences_no_tick body _ N).
  rewrite (replaceFences_no_tick ws2 _ (blank_no_tick _ B2)).
  rewrite (replaceFences_closing ws3 B3).
  replace (ws0 ++ ws1 ++ body ++ ws2 ++ ws3)
    with ((ws0 ++ ws1) ++ body ++ (ws2 ++ ws3)) by (now rewrite <- !app_assoc).
  apply trim_blank; apply blank_app; assumption.
Qed.

Lemma not_includes c s : includes [c] s = false -> ~ In c s.
Proof.
  intros N I. apply in_split in I as (l1 & l2 & E). rewrite E in N.
  rewrite (includes_app_r [c] l1 (c :: l2)) in N; [discriminate N | ].
  simpl. now rewrite N.eqb_refl.
Qed.

(** X1.  [fileToBase64] resolves with what stands between the first comma
    of the data URL and the next: for a data URL made of a header, a comma
    and a payload, neither of them holding a comma, it resolves with the
    payload; for a text with no comma at all it still resolves, with
    undefined.  Either way the file was read once. *)
Theorem X1_data_url_payload_is_extracted w site file header payload t :
  readAsDataURL w site file = Some (header ++ js "," ++ payload) ->
  includes (js ",") header = false ->
  includes (js ",") payload = false ->
  fileToBase64 w site file t = (Ok (JStr payload), t ++ [ReadFile site file]) /\
  (forall w' s,
      readAsDataURL w' site file = Some s ->
      includes (js ",") s = false ->
      fileToBase64 w' site file t = (Ok JUndefined, t ++ [ReadFile site file])).
Proof.
  intros R Nh Np. apply not_includes in Nh. apply not_includes in Np. split.
  - unfold fileToBase64, bind, emit, modify, ret. rewrite R.
    change (js "," ++ payload) with (44%N :: payload).
    rewrite (split_second_app 44 header payload Nh), (split_head_all 44 payload Np).
    reflexivity.
  - intros w' s R' N. apply not_includes in N.
    unfold fileToBase64, bind, emit, modify, ret. rewrite R'.
    now rewrite (split_second_none 44 s N).
Qed.

(** ** What ends a run *)

Lemma analyzeMediaForClues_cases w file ctx t r t' :
  analyzeMediaForClues w file ctx t = (r, t') ->
  (t' = t ++ [ReadFile AnalyzeMediaForClues file] /\ r = Throw progressEvent) \/
  (exists req,
      t' = t ++ [ReadFile AnalyzeMediaForClues file; Generate AnalyzeMediaForClues req] /\
      r = match generateContent w AnalyzeMediaForClues req with
          | Throw e => Throw e
          | Ok resp => Ok (fromOption (text resp))
          end).
Proof.
  unfold analyzeMediaForClues. intros H.
  apply bind_inv in H as [(b64 & t1 & F & H) | (e & F & ->)];
    apply fileToBase64_cases in F as [-> F].
  2:{ left. split; [reflexivity | ].
      destruct (readAsDataURL w AnalyzeMediaForClues file); [discriminate F | exact F]. }
  cbv zeta in H. unfold bind, lift, emit, modify, ret in H.
  match type of H with
  | context [generateContent w AnalyzeMediaForClues ?q] =>
      right; exists q; destruct (generateContent w AnalyzeMediaForClues q)
  end; inversion H; subst; rewrite <- app_assoc; auto.
Qed.

Lemma findLocationWithGrounding_grounded w clues ctx t r t' req e :
  findLocationWithGrounding w clues ctx t = (r, t') ->
  generateContent w GroundedSearch req = Throw e ->
  In (Generate GroundedSearch req) t' ->
  ~ In (Generate GroundedSearch req) t ->
  r = Throw e /\ t' = t ++ [Generate GroundedSearch req].
Proof.
  unfold findLocationWithGrounding, bind, lift, emit, modify, try_catch, ret, throw.
  intros H G I N.
  destruct (ToString (GeminiService.host w) clues) as [sclues | e0] eqn:E0.
  2:{ inversion H; subst. contradiction. }
  match type of H with
  | context [generateContent w GroundedSearch ?q] =>
      destruct (generateContent w GroundedSearch q) as [resp1 | e1] eqn:E1
  end.
  - exfalso.
    destruct (ToString (GeminiService.host w) (fromOption (text resp1))) as [stext | e2].
    2:{ inversion H; subst. apply in_app_iff in I as [I | [I | []]]; [contradiction | ].
        inversion I; subst. congruence. }
    match type of H with
    | context [generateContent w Structuring ?q] =>
        destruct (generateContent w Structuring q) as [resp2 | e2];
          [destruct (parseFenced w resp2) | ]
    end; inversion H; subst; rewrite <- !app_assoc in I;
      apply in_app_iff in I as [I | [I | [I | []]]]; try contradiction;
      try discriminate I; inversion I; subst; congruence.
  - inversion H; subst. apply in_app_iff in I as [I | [I | []]]; [contradiction | ].
    inversion I; subst. rewrite E1 in G. inversion G; subst. auto.
Qed.

(** A request the model fails on ends the method that sent it, with the
    model's own error; the request is the last thing the method did. *)
Lemma analyzeMediaForClues_rejects w file ctx t r t' req e :
  analyzeMediaForClues w file ctx t = (r, t') ->
  generateContent w AnalyzeMediaForClues req = Throw e ->
  In (Generate AnalyzeMediaForClues req) t' ->
  ~ In (Generate AnalyzeMediaForClues req) t ->
  r = Throw e /\ exists evs, t' = evs ++ [Generate AnalyzeMediaForClues req].
Proof.
  intros H G I N.
  apply analyzeMediaForClues_cases in H as [[-> ->] | (q & -> & ->)];
    apply in_app_iff in I as [I | I]; try contradiction.
  - destruct I as [I | []]; discriminate I.
  - destruct I as [I | [I | []]]; [discriminate I | ].
    inversion I; subst. rewrite G. split; [reflexivity | ].
    exists (t ++ [ReadFile AnalyzeMediaForClues file]). now rewrite <- app_assoc.
Qed.

Lemma findLocationWithGrounding_rejects w clues ctx t r t' req e :
  findLocationWithGrounding w clues ctx t = (r, t') ->
  generateContent w Structuring req = Throw e ->
  In (Generate Structuring req) t' ->
  ~ In (Generate Structuring req) t ->
  r = Throw e /\ exists evs, t' = evs ++ [Generate Structuring req].
Proof.
  intros H G I N.
  apply findLocationWithGrounding_cases in H
    as [(evs & e0 & -> & -> & NE) | (req1 & resp1 & req2 & -> & G1 & ->)];
    apply in_app_iff in I as [I | I]; try contradiction.
  - elim (NE _ I).
  - destruct I as [I | [I | []]]; [discriminate I | ].
    inversion I; subst. rewrite G. split; [reflexivity | ].
    exists (t ++ [Generate GroundedSearch req1]). now rewrite <- app_assoc.
Qed.

Lemma determineTimestamp_rejects w file loc date t r t' req e :
  determineTimestamp w file loc date t = (r, t') ->
  generateContent w DetermineTimestamp req = Throw e ->
  In (Generate DetermineTimestamp req) t' ->
  ~ In (Generate DetermineTimestamp req) t ->
  r = Throw e /\ exists evs, t' = evs ++ [Generate DetermineTimestamp req].
Proof.
  intros H G I N.
  apply determineTimestamp_cases in H
    as [(evs & e0 & -> & -> & NE) | (q & -> & ->)];
    apply in_app_iff in I as [I | I]; try contradiction.
  - elim (NE _ I).
  - destruct I as [I | [I | []]]; [discriminate I | ].
    inversion I; subst. rewrite G. split; [reflexivity | ].
    exists (t ++ [ReadFile DetermineTimestamp file]). now rewrite <- app_assoc.
Qed.

Lemma generateVerificationReport_fails w file clues loc time ts sources sat t r t' req e :
  generateVerificationReport w file clues loc time ts sources sat t = (r, t') ->
  generateContent w GenerateReport req = Throw e ->
  In (Generate GenerateReport req) t' ->
  ~ In (Generate GenerateReport req) t ->
  r = Throw e /\ exists evs, t' = evs ++ [Generate GenerateReport req].
Proof.
  intros H G I N.
  apply generateVerificationReport_cases in H
    as [(evs & e0 & -> & -> & NE) | (q & -> & ->)];
    apply in_app_iff in I as [I | I]; try contradiction.
  - elim (NE _ I).
  - destruct I as [I | [I | []]]; [discriminate I | ].
    inversion I; subst. rewrite G. split; [reflexivity | ].
    exists (t ++ [ReadFile GenerateReport file]). now rewrite <- app_assoc.
Qed.

(** A phase is a log entry, a service call, and steps that ask nothing
    more: when the call's last event [ev] shows in the trace and the call
    is known to have thrown on it, the phase threw the same error right
    there. *)
Lemma phase_rejects {A B} w k msg (m : Svc A) (rest : A -> Run B) ev e s r s' :
  bind (addLogEntry w k msg) (fun _ => bind (call m) rest) s = (r, s') ->
  (forall a, frames false (fun _ => False) (rest a)) ->
  (forall t ra t', m t = (ra, t') -> In ev t' -> ~ In ev t ->
                   ra = Throw e /\ exists evs, t' = evs ++ [ev]) ->
  In ev (trace s') ->
  ~ In ev (trace s) ->
  r = Throw e /\
  (exists evs, trace s' = evs ++ [ev]) /\
  report (ui s') = report (ui s) /\
  error (ui s') = error (ui s).
Proof.
  intros E Q R I N.
  apply bind_inv in E as [([] & sx & Ea & E) | (e0 & Ea & _)]; [ | discriminate Ea ].
  apply addLogEntry_inv in Ea as [_ ->].
  apply bind_inv in E as [(a & sy & Ec & E) | (e0 & Ec & ->)];
    apply call_inv in Ec as [EG Eu]; simpl in EG.
  - exfalso. destruct (Q a _ _ _ E) as ((evs & Ft & Fn) & _).
    rewrite (Forall_never evs Fn), app_nil_r in Ft. rewrite Ft in I.
    destruct (R _ _ _ EG I N) as [X _]. discriminate X.
  - destruct (R _ _ _ EG I N) as [X Y]. inversion X; subst e0.
    rewrite Eu. simpl. auto.
Qed.

Lemma phase1_rejects w file ctx req e s r s' :
  phase1 w file ctx s = (r, s') ->
  generateContent w AnalyzeMediaForClues req = Throw e ->
  In (Generate AnalyzeMediaForClues req) (trace s') ->
  ~ In (Generate AnalyzeMediaForClues req) (trace s) ->
  r = Throw e /\ (exists evs, trace s' = evs ++ [Generate AnalyzeMediaForClues req]) /\
  report (ui s') = report (ui s) /\ error (ui s') = error (ui s).
Proof.
  unfold phase1. intros E G. eapply phase_rejects; [exact E | | ].
  - intros a. cbv beta. repeat frames_step w.
  - intros t ra t' M. eapply analyzeMediaForClues_rejects; eauto.
Qed.

Lemma phase2_rejects w clues ctx site req e s r s' :
  phase2 w clues ctx s = (r, s') ->
  site_phase site = 2%nat ->
  generateContent w site req = Throw e ->
  In (Generate site req) (trace s') ->
  ~ In (Generate site req) (trace s) ->
  r = Throw e /\ (exists evs, trace s' = evs ++ [Generate site req]) /\
  report (ui s') = report (ui s) /\ error (ui s') = error (ui s).
Proof.
  unfold phase2. intros E P G. eapply phase_rejects; [exact E | | ].
  - intros [loc sources]. cbv beta iota. repeat frames_step w.
  - intros t ra t' M I N. destruct site; try discriminate P.
    + destruct (findLocationWithGrounding_grounded _ _ _ _ _ _ _ _ M G I N) as [-> ->].
      eauto.
    + eapply findLocationWithGrounding_rejects; eauto.
Qed.

Lemma phase4_rejects w file ts loc req e s r s' :
  phase4 w file ts loc s = (r, s') ->
  generateContent w DetermineTimestamp req = Throw e ->
  In (Generate DetermineTimestamp req) (trace s') ->
  ~ In (Generate DetermineTimestamp req) (trace s) ->
  r = Throw e /\ (exists evs, trace s' = evs ++ [Generate DetermineTimestamp req]) /\
  report (ui s') = report (ui s) /\ error (ui s') = error (ui s).
Proof.
  unfold phase4. intros E G. eapply phase_rejects; [exact E | | ].
  - intros a. cbv beta. repeat frames_step w.
  - intros t ra t' M. eapply determineTimestamp_rejects; eauto.
Qed.

Lemma phase5_rejects w file ts clues loc time sources sat req e s r s' :
  phase5 w file ts clues loc time sources sat s = (r, s') ->
  generateContent w GenerateReport req = Throw e ->
  In (Generate GenerateReport req) (trace s') ->
  ~ In (Generate GenerateReport req) (trace s) ->
  r = Throw e /\ (exists evs, trace s' = evs ++ [Generate GenerateReport req]) /\
  report (ui s') = report (ui s) /\ error (ui s') = error (ui s).
Proof.
  unfold phase5. intros E G. eapply phase_rejects; [exact E | | ].
  - intros a. cbv beta. repeat frames_step w.
  - intros t ra t' M. eapply generateVerificationReport_fails; eauto.
Qed.

Lemma site_of_phase1 site : site_phase site = 1%nat -> site = AnalyzeMediaForClues.
Proof. destruct site; now intros. Qed.
Lemma site_of_phase4 site : site_phase site = 4%nat -> site = DetermineTimestamp.
Proof. destruct site; now intros. Qed.
Lemma site_of_phase5 site : site_phase site = 5%nat -> site = GenerateReport.
Proof. destruct site; now intros. Qed.

Lemma in_block k e evs : Forall (in_phase k) evs -> In e evs -> phase_of e = k.
Proof. intros F I. rewrite Forall_forall in F. exact (F _ I). Qed.

Lemma skip_block ev k s s' x :
  trace s' = trace s ++ x -> Forall (in_phase k) x -> phase_of ev <> k ->
  (In ev (trace s') <-> In ev (trace s)).
Proof.
  intros T F N. rewrite T, in_app_iff. split; [ | auto ].
  intros [I | I]; [assumption | ]. elim N. exact (in_block _ _ _ F I).
Qed.

(** For every block of another phase: the event is in the trace after the
    block exactly when it was there before. *)
Ltac skip_blocks ev :=
  repeat match goal with
         | T : trace ?s' = trace ?s ++ ?x, F : Forall (in_phase ?k) ?x |- _ =>
             lazymatch goal with
             | _ : In ev (trace s') <-> In ev (trace s) |- _ => fail
             | _ => assert (In ev (trace s') <-> In ev (trace s))
                      by (apply (skip_block ev k s s' x T F); discriminate)
             end
         end.

Ltac same_report :=
  repeat match goal with
         | U : ui_step true ?a ?b |- _ =>
             let R := fresh "R" in let Er := fresh "Er" in
             destruct U as (_ & Er & _ & R); specialize (R eq_refl)
         end; congruence.

(** What it takes for an event to end a phase: the phase threw [e] on it,
    right after it, leaving the report and the error as they were. *)
Ltac skip_blocks_of ev P :=
  repeat match goal with
         | T : trace ?s' = trace ?s ++ ?x, F : Forall (in_phase ?k) ?x |- _ =>
             lazymatch goal with
             | _ : In ev (trace s') <-> In ev (trace s) |- _ => fail
             | _ => assert (In ev (trace s') <-> In ev (trace s))
                      by (apply (skip_block ev k s s' x T F); rewrite P; discriminate)
             end
         end.

(** An event that ends whichever phase emits it ends the [try] block. *)
Lemma attempt_stops w ev e file ts ctx :
  (stops ev e (phase1 w file ctx)) ->
  (forall clues, stops ev e (phase2 w clues ctx)) ->
  (forall loc, stops ev e (phase3 w ts loc)) ->
  (forall loc, stops ev e (phase4 w file ts loc)) ->
  (forall clues loc time sources sat,
      stops ev e (phase5 w file ts clues loc time sources sat)) ->
  stops ev e (attempt w file ts ctx).
Proof.
  intros H1 H2 H3 H4 H5 s ra sa EA I N0.
  apply attempt_path in EA as (s0 & E0 & r1 & s1 & E1 & EA).
  destruct (preamble_frames w ts ctx (fun _ => False) _ _ _ E0)
    as ((x0 & T0 & F0) & U0).
  rewrite (Forall_never x0 F0), app_nil_r in T0.
  assert (N : ~ In ev (trace s0)) by now rewrite T0.
  clear T0 F0 x0 N0.
  destruct (phase_of ev) as [ | [ | [ | [ | [ | [ | p ] ] ] ] ] ] eqn:P;
    destruct (phase1_frames _ _ _ _ _ _ E1) as ((x1 & T1 & F1) & U1);
    (destruct r1 as [clues | e1];
     [ destruct EA as (r2 & s2 & E2 & EA);
       destruct (phase2_frames _ _ _ _ _ _ E2) as ((x2 & T2 & F2) & U2);
       (destruct r2 as [[loc sources] | e2];
        [ destruct EA as (r3 & s3 & E3 & EA);
          destruct (phase3_frames _ _ _ _ _ _ E3) as ((x3 & T3 & F3) & U3);
          (destruct r3 as [sat | e3];
           [ destruct EA as (r4 & s4 & E4 & EA);
             destruct (phase4_frames _ _ _ _ _ _ _ E4) as ((x4 & T4 & F4) & U4);
             (destruct r4 as [time | e4];
              [ destruct (phase5_frames _ _ _ _ _ _ _ _ _ _ _ EA)
                  as ((x5 & T5 & F5) & U5)
              | destruct EA as [-> ->] ])
           | destruct EA as [-> ->] ])
        | destruct EA as [-> ->] ])
     | destruct EA as [-> ->] ]);
    skip_blocks_of ev P;
    try solve [exfalso; tauto];
    (* the phase that emits the event *)
    try match goal with
        | E : phase1 _ _ _ ?a = (_, ?b) |- _ =>
            assert (Ia : In ev (trace b)) by tauto;
            destruct (H1 _ _ _ E Ia ltac:(tauto)) as (X & Y & Z & V)
        end;
    try match goal with
        | E : phase2 _ _ _ ?a = (_, ?b) |- _ =>
            assert (Ia : In ev (trace b)) by tauto;
            destruct (H2 _ _ _ _ E Ia ltac:(tauto)) as (X & Y & Z & V)
        end;
    try match goal with
        | E : phase3 _ _ _ ?a = (_, ?b) |- _ =>
            assert (Ia : In ev (trace b)) by tauto;
            destruct (H3 _ _ _ _ E Ia ltac:(tauto)) as (X & Y & Z & V)
        end;
    try match goal with
        | E : phase4 _ _ _ _ ?a = (_, ?b) |- _ =>
            assert (Ia : In ev (trace b)) by tauto;
            destruct (H4 _ _ _ _ E Ia ltac:(tauto)) as (X & Y & Z & V)
        end;
    try match goal with
        | E : phase5 _ _ _ _ _ _ _ _ ?a = (_, ?b) |- _ =>
            assert (Ia : In ev (trace b)) by tauto;
            destruct (H5 _ _ _ _ _ _ _ _ E Ia ltac:(tauto)) as (X & Y & Z & V)
        end;
    try discriminate X;
    repeat split; auto; same_report.
Qed.

Lemma attempt_rejects w site req e file ts ctx :
  generateContent w site req = Throw e ->
  stops (Generate site req) e (attempt w file ts ctx).
Proof.
  intros G. apply attempt_stops.
  - intros s r s' E I N. destruct site;
      try (destruct (phase1_frames _ _ _ _ _ _ E) as ((x & T & F) & _);
           rewrite T in I; apply in_app_iff in I as [I | I]; [contradiction | ];
           apply (in_block _ _ _ F) in I; discriminate I).
    eapply phase1_rejects; eauto.
  - intros clues s r s' E I N. destruct site;
      try (destruct (phase2_frames _ _ _ _ _ _ E) as ((x & T & F) & _);
           rewrite T in I; apply in_app_iff in I as [I | I]; [contradiction | ];
           apply (in_block _ _ _ F) in I; discriminate I).
    + eapply (phase2_rejects _ _ _ GroundedSearch); eauto.
    + eapply (phase2_rejects _ _ _ Structuring); eauto.
  - intros loc s r s' E I N. exfalso.
    destruct (phase3_frames _ _ _ _ _ _ E) as ((x & T & F) & _).
    rewrite T in I. apply in_app_iff in I as [I | I]; [contradiction | ].
    apply (in_block _ _ _ F) in I. destruct site; discriminate I.
  - intros loc s r s' E I N. destruct site;
      try (destruct (phase4_frames _ _ _ _ _ _ _ E) as ((x & T & F) & _);
           rewrite T in I; apply in_app_iff in I as [I | I]; [contradiction | ];
           apply (in_block _ _ _ F) in I; discriminate I).
    eapply phase4_rejects; eauto.
  - intros clues loc time sources sat s r s' E I N. destruct site;
      try (destruct (phase5_frames _ _ _ _ _ _ _ _ _ _ _ E) as ((x & T & F) & _);
           rewrite T in I; apply in_app_iff in I as [I | I]; [contradiction | ];
           apply (in_block _ _ _ F) in I; discriminate I).
    eapply phase5_rejects; eauto.
Qed.


(** X5.  A request the model fails on ends the run, in whichever phase it
    was sent: the fallbacks of phases 2 and 4 and the "invalid format" error
    of phase 5 only cover an answer that cannot be read, not a call that
    throws.  The run returns with the loading flag cleared, no report, the
    error's own message (or "An unknown error occurred." for a thrown value
    that is not an Error) in [error] and in the last log entry, and the
    failed request is the last thing the run asked of anyone. *)
Theorem X5_failed_model_call_aborts_run w site req e file ts ctx u0 r s' :
  generateContent w site req = Throw e ->
  runVerification w file ts ctx (start u0) = (r, s') ->
  In (Generate site req) (trace s') ->
  r = Ok tt /\
  error (ui s') = Some (errorMessageOf e) /\
  report (ui s') = None /\
  isLoading (ui s') = false /\
  (exists evs, trace s' = evs ++ [Generate site req]) /\
  ends_with [(LogType.error, failed_message (errorMessageOf e))] (log (ui s')).
Proof.
  intros G H I. rewrite runVerification_unfold in H.
  destruct (constructor w) as [[] | e0]; [ | inversion H; subst; contradiction].
  destruct (attempt w file ts ctx cleared) as [ra sa] eqn:EA.
  assert (I' : In (Generate site req) (trace sa))
    by (destruct ra; inversion H; subst; exact I).
  destruct (attempt_rejects _ _ _ _ _ _ _ G _ _ _ EA I' (fun x => x))
    as (-> & T & Rp & Er).
  inversion H; subst; clear H. simpl. repeat split; auto.
  eexists _, _. split; reflexivity.
Qed.

(** ** A file that cannot be read *)

Ltac own_step :=
  lazymatch goal with
  | |- emits _ (bind _ _) => apply emits_bind; [ | intros ? ]
  | |- emits _ (try_catch _ _) => apply emits_try_catch; [ | intros ? ]
  | |- emits _ (ret _) => apply emits_ret
  | |- emits _ (throw _) => apply emits_throw
  | |- emits _ (lift _) => apply emits_lift
  | |- emits _ (emit _) => apply emits_emit; first [left; reflexivity | right; eexists; reflexivity]
  | |- emits _ (if ?b then _ else _) => destruct b
  | |- emits _ (match ?x with _ => _ end) => destruct x
  | |- emits _ (let _ := _ in _) => cbv zeta
  end.

Lemma analyzeMediaForClues_own w file ctx :
  emits (own AnalyzeMediaForClues file) (analyzeMediaForClues w file ctx).
Proof. unfold analyzeMediaForClues, fileToBase64. repeat own_step. Qed.

Lemma determineTimestamp_own w file loc date :
  emits (own DetermineTimestamp file) (determineTimestamp w file loc date).
Proof. unfold determineTimestamp, fileToBase64. repeat own_step. Qed.

Lemma generateVerificationReport_own w file clues loc time ts sources sat :
  emits (own GenerateReport file)
    (generateVerificationReport w file clues loc time ts sources sat).
Proof. unfold generateVerificationReport, fileToBase64. repeat own_step. Qed.

Lemma findLocationWithGrounding_asks w clues ctx file :
  emits (fun e => forall c, e <> ReadFile c file) (findLocationWithGrounding w clues ctx).
Proof.
  unfold findLocationWithGrounding.
  repeat lazymatch goal with
         | |- emits _ (emit _) => apply emits_emit; intros ?; discriminate
         | _ => emits_step
         end.
Qed.

Ltac own_file F I N :=
  apply in_app_iff in I as [I | I]; [contradiction | ];
  rewrite Forall_forall in F; destruct (F _ I) as [X | (q & X)];
  [injection X as -> -> | discriminate X].

Lemma analyzeMediaForClues_unreadable w file ctx c f t r t' :
  analyzeMediaForClues w file ctx t = (r, t') ->
  readAsDataURL w c f = None ->
  In (ReadFile c f) t' -> ~ In (ReadFile c f) t ->
  r = Throw progressEvent /\ exists evs, t' = evs ++ [ReadFile c f].
Proof.
  intros H U I N.
  destruct (analyzeMediaForClues_own _ _ _ _ _ _ H) as (evs & Et & F).
  rewrite Et in I. own_file F I N. clear Et F.
  unfold analyzeMediaForClues, fileToBase64, bind, emit, modify, throw in H.
  rewrite U in H. inversion H; subst. eauto.
Qed.

Lemma determineTimestamp_unreadable w file loc date c f t r t' :
  determineTimestamp w file loc date t = (r, t') ->
  readAsDataURL w c f = None ->
  In (ReadFile c f) t' -> ~ In (ReadFile c f) t ->
  r = Throw progressEvent /\ exists evs, t' = evs ++ [ReadFile c f].
Proof.
  intros H U I N.
  destruct (determineTimestamp_own _ _ _ _ _ _ _ H) as (evs & Et & F).
  rewrite Et in I. own_file F I N. clear Et F.
  unfold determineTimestamp, fileToBase64, bind, emit, modify, throw in H.
  rewrite U in H. inversion H; subst. eauto.
Qed.

Lemma generateVerificationReport_unreadable w file clues loc time ts sources sat c f t r t' :
  generateVerificationReport w file clues loc time ts sources sat t = (r, t') ->
  readAsDataURL w c f = None ->
  In (ReadFile c f) t' -> ~ In (ReadFile c f) t ->
  r = Throw progressEvent /\ exists evs, t' = evs ++ [ReadFile c f].
Proof.
  intros H U I N.
  destruct (generateVerificationReport_own _ _ _ _ _ _ _ _ _ _ _ H) as (evs & Et & F).
  rewrite Et in I. own_file F I N. clear Et F.
  unfold generateVerificationReport, fileToBase64, bind, emit, modify, throw in H.
  rewrite U in H. inversion H; subst. eauto.
Qed.

Lemma attempt_unreadable w c f file ts ctx :
  readAsDataURL w c f = None ->
  stops (ReadFile c f) progressEvent (attempt w file ts ctx).
Proof.
  intros U. apply attempt_stops.
  - unfold phase1. intros s r s' E. eapply phase_rejects; [exact E | | ].
    + intros a. cbv beta. repeat frames_step w.
    + intros t ra t' M. eapply analyzeMediaForClues_unreadable; eauto.
  - intros clues s r s' E I N. exfalso. unfold phase2 in E.
    match type of E with
    | ?m s = _ =>
        assert (F : frames true (fun e => forall c, e <> ReadFile c f) m)
    end.
    { frames_step w; [frames_step w | ].
      frames_step w; [apply frames_call, findLocationWithGrounding_asks | ].
      repeat frames_step w. }
    destruct (F _ _ _ E) as ((x & T & Fx) & _).
    rewrite T in I. apply in_app_iff in I as [I | I]; [contradiction | ].
    rewrite Forall_forall in Fx. exact (Fx _ I c eq_refl).
  - intros loc s r s' E I N. exfalso.
    destruct (phase3_frames _ _ _ _ _ _ E) as ((x & T & F) & _).
    rewrite T in I. apply in_app_iff in I as [I | I]; [contradiction | ].
    apply (in_block _ _ _ F) in I. destruct c; discriminate I.
  - unfold phase4. intros loc s r s' E. eapply phase_rejects; [exact E | | ].
    + intros a. cbv beta. repeat frames_step w.
    + intros t ra t' M. eapply determineTimestamp_unreadable; eauto.
  - unfold phase5. intros clues loc time sources sat s r s' E.
    eapply phase_rejects; [exact E | | ].
    + intros a. cbv beta. repeat frames_step w.
    + intros t ra t' M. eapply generateVerificationReport_unreadable; eauto.
Qed.


(** X4.  When the file reader fails, the run ends there: what the reader
    rejects with is an event, not an Error, so the message is "An unknown
    error occurred."; the model is not asked in that phase (the read is the
    last event of the trace), no report is set and the loading flag is
    cleared. *)
Theorem X4_unreadable_file_aborts_run w site f file ts ctx u0 r s' :
  readAsDataURL w site f = None ->
  runVerification w file ts ctx (start u0) = (r, s') ->
  In (ReadFile site f) (trace s') ->
  r = Ok tt /\
  error (ui s') = Some (js "An unknown error occurred.") /\
  report (ui s') = None /\
  isLoading (ui s') = false /\
  (exists evs, trace s' = evs ++ [ReadFile site f]) /\
  ends_with [(LogType.error, failed_message (js "An unknown error occurred."))]
            (log (ui s')).
Proof.
  intros U H I. rewrite runVerification_unfold in H.
  destruct (constructor w) as [[] | e0]; [ | inversion H; subst; contradiction].
  destruct (attempt w file ts ctx cleared) as [ra sa] eqn:EA.
  assert (I' : In (ReadFile site f) (trace sa))
    by (destruct ra; inversion H; subst; exact I).
  destruct (attempt_unreadable _ _ _ _ _ _ U _ _ _ EA I' (fun x => x))
    as (-> & T & Rp & Er).
  inversion H; subst; clear H. simpl. repeat split; auto.
  eexists _, _. split; reflexivity.
Qed.

(** ** What a report holds *)


(** X3.  An answer wrapped in a json fence, with white space around the
    fence and around the body, is read exactly like the bare body, as long
    as the body holds no backtick: both go to [JSON.parse] as the trimmed
    body. *)
Theorem X3_fenced_answer_reads_like_bare w ws0 ws1 body ws2 ws3 chunks :
  blank ws0 = true -> blank ws1 = true -> blank ws2 = true -> blank ws3 = true ->
  includes (js "`") body = false ->
  parseFenced w {| text := Some (ws0 ++ fence_json ++ ws1 ++ body ++ ws2 ++ fence ++ ws3);
                   groundingChunks := chunks |}
  = parseFenced w {| text := Some body; groundingChunks := chunks |} /\
  parseFenced w {| text := Some body; groundingChunks := chunks |}
  = match JSON_parse (GeminiService.host w) (trim body) with
    | Some v => Ok v
    | None => Throw (Error (js "Unexpected token"))
    end.
Proof.
  intros B0 B1 B2 B3 N.
  assert (N' : ~ In 96%N body) by (apply not_includes; exact N).
  unfold parseFenced. cbn [text].
  rewrite (replaceFences_fenced _ _ _ _ _ B0 B1 B2 B3 N').
  rewrite (replaceFences_none _ N'). split; reflexivity.
Qed.

(** lookup *)
Lemma lookup_app k ps qs :
  lookup k (ps ++ qs) =
  match lookup k qs with Some v => Some v | None => lookup k ps end.
Proof.
  induction ps as [| [k' v] ps IH]; simpl.
  - now destruct (lookup k qs).
  - rewrite IH. now destruct (lookup k qs).
Qed.

Lemma str_eqb_eq a b : str_eqb a b = true <-> a = b.
Proof.
  revert b. induction a as [| x a IH]; intros [| y b]; simpl; split; intros H;
    try discriminate; try reflexivity.
  - apply andb_true_iff in H as [E H]. apply N.eqb_eq in E. apply IH in H. congruence.
  - inversion H; subst. rewrite N.eqb_refl. now apply IH.
Qed.


(** X6.  In the report [generateVerificationReport] returns, the fields
    [groundingSources] and [satelliteData] are the ones it was called with
    (a null [satelliteData] becoming undefined), whatever the model wrote
    under these names; every other field is the model's. *)
Theorem X6_report_provenance_is_overwritten w file clues loc time ts sources sat t rep t' :
  generateVerificationReport w file clues loc time ts sources sat t = (Ok rep, t') ->
  Get rep (js "groundingSources") = Ok (JArr sources) /\
  Get rep (js "satelliteData") = Ok (or_else sat JUndefined) /\
  exists req resp d,
    generateContent w GenerateReport req = Ok resp /\
    parseFenced w resp = Ok d /\
    forall k, str_eqb k (js "groundingSources") = false ->
              str_eqb k (js "satelliteData") = false ->
              Get rep k = Get (JObj (spread d)) k.
Proof.
  intros H.
  apply generateVerificationReport_cases in H
    as [(evs & e & _ & X & _) | (req & _ & X)]; [discriminate X | ].
  destruct (generateContent w GenerateReport req) as [resp | e] eqn:G;
    [ | discriminate X].
  destruct (parseFenced w resp) as [d | e] eqn:P; [ | discriminate X].
  inversion X; subst rep; clear X. unfold Get. rewrite !lookup_app.
  split; [reflexivity | split; [reflexivity | ] ].
  exists req, resp, d. split; [exact G | split; [exact P | ] ].
  intros k K1 K2. rewrite lookup_app. simpl. now rewrite K1, K2.
Qed.

Lemma count_positive n :
  number_positive (num (Z.of_nat n)) = negb (Nat.eqb n 0).
Proof.
  destruct n as [| n]; [reflexivity | ].
  unfold num, number_positive, rounds_to_zero.
  rewrite Nat2Z.inj_succ.
  assert (P : (0 < Z.succ (Z.of_nat n))%Z) by lia.
  apply Z.ltb_lt in P as P'. rewrite P'.
  assert (Q : (Z.succ (Z.of_nat n) =? 0)%Z = false) by (apply Z.eqb_neq; lia).
  rewrite Q. reflexivity.
Qed.

Lemma Get_truthy v k : truthy v = true -> exists x, Get v k = Ok x.
Proof. destruct v; simpl; intros T; try discriminate T; eauto. Qed.

Lemma lookup_sources ps a b :
  lookup (js "groundingSources")
    (ps ++ [(js "groundingSources", a); (js "satelliteData", b)]) = Some a.
Proof. rewrite lookup_app. vm_compute. reflexivity. Qed.

Lemma lookup_satellite ps a b :
  lookup (js "satelliteData")
    (ps ++ [(js "groundingSources", a); (js "satelliteData", b)]) = Some b.
Proof. rewrite lookup_app. vm_compute. reflexivity. Qed.

Lemma traverse_Forall2 {A B} (f : A -> option B) l l' :
  ReportView.traverse f l = Some l' -> Forall2 (fun x y => f x = Some y) l l'.
Proof.
  revert l'. induction l as [| x l IH]; intros l' H; simpl in H.
  - inversion H. constructor.
  - destruct (f x) as [y | ] eqn:F; [ | discriminate H].
    destruct (ReportView.traverse f l) as [ys | ]; [ | discriminate H].
    inversion H. constructor; auto.
Qed.

(** Peels the steps that returned off a render that did. *)
Ltac rendered H :=
  repeat match type of H with
         | match ?x with _ => _ end = Some _ =>
             let E := fresh "E" in destruct x eqn:E; [ | discriminate H]
         end.

Lemma attribute_inv h v v' : ReportView.attribute h v = Some v' -> v' = v.
Proof.
  unfold ReportView.attribute. intros H. rendered H. now inversion H.
Qed.

Lemma link_href h source l :
  ReportView.link h source = Some l ->
  Get source (js "uri") = Ok (ReportView.href l).
Proof.
  unfold ReportView.link. intros H.
  destruct (Get source (js "uri")) as [uri | e]; [ | discriminate H].
  cbn [ReportView.value] in H. rendered H.
  match goal with
  | A : ReportView.attribute _ _ = Some _ |- _ => apply attribute_inv in A as ->
  end.
  inversion H. reflexivity.
Qed.

(** The sections of the last [return] are those of the findings. *)
Lemma findings_sections h intl rep f :
  ReportView.findings h intl rep = Some f ->
  ReportView.satelliteSection h intl rep = Some (ReportView.satelliteImagery f) /\
  ReportView.sourcesSection h rep = Some (ReportView.groundingSources f).
Proof.
  unfold ReportView.findings. intros H. rendered H. inversion H. simpl. auto.
Qed.

Lemma report_sections h intl sources sat d :
  let rep := JObj (spread d ++ [ (js "groundingSources", JArr sources);
                                 (js "satelliteData", or_else sat JUndefined) ]) in
  (forall s,
      ReportView.sourcesSection h rep = Some s ->
      ReportView.is_shown s = negb (Nat.eqb (List.length sources) 0) /\
      forall links,
        s = ReportView.shown links ->
        Forall2 (fun source l => Get source (js "uri") = Ok (ReportView.href l))
                sources links) /\
  (forall s,
      ReportView.satelliteSection h intl rep = Some s ->
      ReportView.is_shown s
      = truthy sat && match Get sat (js "available") with
                      | Ok available => truthy available
                      | Throw _ => false
                      end).
Proof.
  intros rep. split; intros s.
  - unfold ReportView.sourcesSection, rep, Get at 1. rewrite lookup_sources.
    cbn [ReportView.value truthy Get].
    change (str_eqb (js "length") (js "length")) with true. cbn iota.
    cbn [ToNumber ReportView.value]. rewrite count_positive.
    destruct (Nat.eqb (List.length sources) 0); cbn [negb]; intros H.
    + inversion H. split; [reflexivity | ]. intros links X. discriminate X.
    + destruct (ReportView.traverse (ReportView.link h) sources) as [links0 | ] eqn:T;
        [ | discriminate H].
      inversion H. split; [reflexivity | ]. intros links X. inversion X; subst links0.
      apply traverse_Forall2 in T.
      eapply Forall2_impl; [ | exact T]. intros source l. apply link_href.
  - unfold ReportView.satelliteSection, rep, Get at 1. rewrite lookup_satellite.
    cbn [ReportView.value]. unfold or_else.
    destruct (truthy sat) eqn:T; [ | intros H; inversion H; reflexivity].
    rewrite T. destruct (Get_truthy sat (js "available") T) as (x & ->).
    cbn [ReportView.value andb].
    destruct (truthy x); intros H; [ | inversion H; reflexivity].
    rendered H. inversion H. reflexivity.
Qed.


(** X16.  Whenever the report view renders a report returned by
    [generateVerificationReport], what it shows of the report's provenance
    is fixed by the pipeline, not by the model: the sources section is
    there exactly when the source list the method was given is non-empty,
    with one link for each source, in their order and to its [uri]; the
    satellite section is there exactly when the imagery result the method
    was given is truthy and its [available] is. *)
Theorem X16_provenance_sections_follow_the_pipeline
    w intl file clues loc time ts sources sat t rep t' f :
  generateVerificationReport w file clues loc time ts sources sat t = (Ok rep, t') ->
  ReportView.findings (GeminiService.host w) intl rep = Some f ->
  ReportView.is_shown (ReportView.groundingSources f)
  = negb (Nat.eqb (List.length sources) 0) /\
  (forall links,
      ReportView.groundingSources f = ReportView.shown links ->
      Forall2 (fun source l => Get source (js "uri") = Ok (ReportView.href l))
              sources links) /\
  ReportView.is_shown (ReportView.satelliteImagery f)
  = truthy sat && match Get sat (js "available") with
                  | Ok available => truthy available
                  | Throw _ => false
                  end.
Proof.
  intros H F.
  apply generateVerificationReport_cases in H
    as [(evs & e & _ & X & _) | (req & _ & X)]; [discriminate X | ].
  destruct (generateContent w GenerateReport req) as [resp | e]; [ | discriminate X].
  destruct (parseFenced w resp) as [d | e]; [ | discriminate X].
  inversion X; subst rep.
  destruct (findings_sections _ _ _ _ F) as [Sat Src].
  destruct (report_sections (GeminiService.host w) intl sources sat d) as [A B].
  destruct (A _ Src) as [A1 A2]. split; [exact A1 | split; [exact A2 | exact (B _ Sat)] ].
Qed.

(** What phase 2 hands on when it succeeds. *)
Lemma phase2_sources w clues ctx s loc sources s' :
  phase2 w clues ctx s = (Ok (loc, sources), s') ->
  exists req1 resp1,
    In (Generate GroundedSearch req1) (trace s') /\
    generateContent w GroundedSearch req1 = Ok resp1 /\
    sources = sourcesOf resp1.
Proof.
  unfold phase2. intros E.
  apply bind_ok_inv in E as ([] & s1 & E1 & E). apply addLogEntry_inv in E1 as [_ ->].
  apply bind_ok_inv in E as ([loc0 sources0] & s2 & E2 & E).
  apply call_inv in E2 as [EG _]. simpl in EG.
  match type of E with
  | ?m s2 = _ => assert (F : frames true (fun _ => True) m) by (repeat frames_step w)
  end.
  pose proof (frames_extends _ _ _ _ _ _ F E) as X.
  assert (R : loc0 = loc /\ sources0 = sources).
  { repeat (apply bind_ok_inv in E as (? & ? & _ & E)).
    unfold ret in E. inversion E; auto. }
  destruct R as [-> ->].
  apply findLocationWithGrounding_cases in EG
    as [(evs & e & _ & Y & _) | (req1 & resp1 & req2 & T & G1 & Y)]; [discriminate Y | ].
  exists req1, resp1. split; [ | split; [exact G1 | ] ].
  - eapply extends_traced; [exact X | ]. rewrite T, in_app_iff. right; now left.
  - destruct (generateContent w Structuring req2); [ | discriminate Y].
    inversion Y; reflexivity.
Qed.

(** The report a run holds is the one [generateVerificationReport] returned. *)
Lemma phase5_report w file ts clues loc time sources sat s r s' rep :
  phase5 w file ts clues loc time sources sat s = (r, s') ->
  report (ui s') = Some rep ->
  report (ui s) = Some rep \/
  exists t t',
    generateVerificationReport w file clues loc time ts sources sat t = (Ok rep, t').
Proof.
  unfold phase5. intros E R.
  apply bind_inv in E as [([] & s1 & E1 & E) | (e & E1 & _)]; [ | discriminate E1 ].
  apply addLogEntry_inv in E1 as [_ ->].
  apply bind_inv in E as [(finalReport & s2 & E2 & E) | (e & E2 & ->)];
    apply call_inv in E2 as [EG Eu]; simpl in EG.
  - right. apply bind_inv in E as [([] & s3 & E3 & E) | (e & E3 & _)];
      [ | discriminate E3 ].
    inversion E3; subst s3; clear E3.
    match type of E with
    | ?m ?s0 = _ => assert (F : frames true (fun _ => True) m) by (repeat frames_step w)
    end.
    destruct (F _ _ _ E) as (_ & (_ & _ & _ & Rp)). rewrite (Rp eq_refl) in R.
    simpl in R. inversion R; subst. eauto.
  - left. rewrite Eu in R. exact R.
Qed.

Lemma attempt_report w file ts ctx s ra sa rep :
  attempt w file ts ctx s = (ra, sa) ->
  report (ui s) = None ->
  report (ui sa) = Some rep ->
  exists clues loc time sources sat t t' req1 resp1,
    generateVerificationReport w file clues loc time ts sources sat t = (Ok rep, t') /\
    In (Generate GroundedSearch req1) (trace sa) /\
    generateContent w GroundedSearch req1 = Ok resp1 /\
    sources = sourcesOf resp1.
Proof.
  intros EA R0 R.
  apply attempt_path in EA as (s0 & E0 & r1 & s1 & E1 & EA). frame_facts.
  destruct r1 as [clues | e];
    [ | destruct EA as [_ ->]; exfalso; same_report ].
  destruct EA as (r2 & s2 & E2 & EA). frame_facts.
  destruct r2 as [[loc sources] | e];
    [ | destruct EA as [_ ->]; exfalso; same_report ].
  destruct EA as (r3 & s3 & E3 & EA). frame_facts.
  destruct r3 as [sat | e];
    [ | destruct EA as [_ ->]; exfalso; same_report ].
  destruct EA as (r4 & s4 & E4 & EA). frame_facts.
  destruct r4 as [time | e];
    [ | destruct EA as [_ ->]; exfalso; same_report ].
  destruct (phase2_sources _ _ _ _ _ _ _ E2) as (req1 & resp1 & I & G & S).
  destruct (phase5_report _ _ _ _ _ _ _ _ _ _ _ _ EA R) as [X | (t & t' & X)].
  - exfalso. same_report.
  - exists clues, loc, time, sources, sat, t, t', req1, resp1.
    repeat split; auto.
    eapply extends_traced; [ | exact I].
    eapply extends_trans; [eapply frames_extends; [apply phase3_frames | exact E3] | ].
    eapply extends_trans; [eapply frames_extends; [apply phase4_frames | exact E4] | ].
    eapply frames_extends; [apply phase5_frames | exact EA].
Qed.

Lemma run_report w file ts ctx u0 r s' rep :
  runVerification w file ts ctx (start u0) = (r, s') ->
  report (ui s') = Some rep ->
  exists clues loc time sources sat t t' req1 resp1,
    generateVerificationReport w file clues loc time ts sources sat t = (Ok rep, t') /\
    In (Generate GroundedSearch req1) (trace s') /\
    generateContent w GroundedSearch req1 = Ok resp1 /\
    sources = sourcesOf resp1.
Proof.
  intros H R. rewrite runVerification_unfold in H.
  destruct (constructor w) as [[] | e0]; [ | inversion H; subst; discriminate R].
  destruct (attempt w file ts ctx cleared) as [ra sa] eqn:EA.
  assert (R' : report (ui sa) = Some rep)
    by (destruct ra; inversion H; subst; exact R).
  assert (T : trace s' = trace sa) by (destruct ra; inversion H; subst; reflexivity).
  rewrite T. eapply attempt_report; eauto.
Qed.


(** X7.  Whenever a run leaves a report, the report's [groundingSources]
    are the web chunks of the answer to the grounded search of phase 2 of
    that same run, one source per chunk that has a web entry, in their
    order. *)
Theorem X7_report_sources_are_the_grounded_ones w file ts ctx u0 r s' rep :
  runVerification w file ts ctx (start u0) = (r, s') ->
  report (ui s') = Some rep ->
  exists req1 resp1,
    In (Generate GroundedSearch req1) (trace s') /\
    generateContent w GroundedSearch req1 = Ok resp1 /\
    Get rep (js "groundingSources") = Ok (JArr (sourcesOf resp1)).
Proof.
  intros H R.
  destruct (run_report _ _ _ _ _ _ _ _ H R)
    as (clues & loc & time & sources & sat & t & t' & req1 & resp1 & G & I & G1 & ->).
  exists req1, resp1. split; [exact I | split; [exact G1 | ] ].
  apply generateVerificationReport_cases in G
    as [(evs & e & _ & X & _) | (req & _ & X)]; [discriminate X | ].
  destruct (generateContent w GenerateReport req) as [resp | e]; [ | discriminate X].
  destruct (parseFenced w resp) as [d | e]; [ | discriminate X].
  inversion X; subst rep. unfold Get. now rewrite lookup_sources.
Qed.

Lemma run_report_is_object w file ts ctx u0 r s' rep :
  runVerification w file ts ctx (start u0) = (r, s') ->
  report (ui s') = Some rep ->
  truthy rep = true.
Proof.
  intros H R.
  destruct (run_report _ _ _ _ _ _ _ _ H R)
    as (clues & loc & time & sources & sat & t & t' & req1 & resp1 & G & _).
  apply generateVerificationReport_cases in G
    as [(evs & e & _ & X & _) | (req & _ & X)]; [discriminate X | ].
  destruct (generateContent w GenerateReport req) as [resp | e]; [ | discriminate X].
  destruct (parseFenced w resp) as [d | e]; [ | discriminate X].
  inversion X; subst rep. reflexivity.
Qed.


(** The last [return] reads through [estimatedLocation] and [evidence]. *)
Lemma findings_need h intl rep :
  Get rep (js "estimatedLocation") = Ok JUndefined \/
  Get rep (js "evidence") = Ok JUndefined ->
  ReportView.findings h intl rep = None.
Proof.
  unfold ReportView.findings. intros [E | E]; rewrite E;
    repeat first
      [ reflexivity
      | progress cbn [ReportView.value]
      | match goal with
        | |- match ?x with _ => _ end = None => destruct x
        end ].
Qed.


(** X15.  Once the service is constructed, the report view after a run is
    never the spinner.  When the run left no report it is the failure
    panel with the run's message (the placeholder, if that message is the
    empty string).  When the run left a report it is the render of that
    report's findings, and that render throws when the report has no
    [estimatedLocation] or no [evidence]. *)
Theorem X15_view_after_a_run w intl file ts ctx u0 r s' :
  constructor w = Ok tt ->
  runVerification w file ts ctx (start u0) = (r, s') ->
  let view :=
    ReportView.VerificationReport (GeminiService.host w) intl
      (report (ui s')) (isLoading (ui s')) (error (ui s')) in
  view <> Some ReportView.Generating /\
  ((exists rep,
       report (ui s') = Some rep /\
       view = option_map ReportView.Findings
                (ReportView.findings (GeminiService.host w) intl rep) /\
       (Get rep (js "estimatedLocation") = Ok JUndefined \/
        Get rep (js "evidence") = Ok JUndefined -> view = None))
   \/
   (exists msg,
       report (ui s') = None /\
       error (ui s') = Some msg /\
       view = Some (if nonempty msg then ReportView.AnalysisFailed msg
                    else ReportView.Awaiting))).
Proof.
  intros K H view.
  destruct (run_ends _ _ _ _ _ _ _ K H) as (_ & L & E).
  assert (V : (exists rep,
                  report (ui s') = Some rep /\
                  view = option_map ReportView.Findings
                           (ReportView.findings (GeminiService.host w) intl rep))
              \/
              (exists msg,
                  report (ui s') = None /\
                  error (ui s') = Some msg /\
                  view = Some (if nonempty msg then ReportView.AnalysisFailed msg
                               else ReportView.Awaiting))).
  { unfold view, ReportView.VerificationReport. rewrite L. cbn [andb].
    destruct (report (ui s')) as [rep | ] eqn:R.
    - left. exists rep. split; [reflexivity | ].
      unfold ReportView.absent.
      rewrite (run_report_is_object _ _ _ _ _ _ _ _ H R). cbn [negb].
      rewrite !andb_false_r. reflexivity.
    - right.
      destruct E as [(msg & -> & _) | (_ & rep & v & c & sv & sc & X & _)];
        [ | discriminate X].
      exists msg. split; [reflexivity | split; [reflexivity | ] ].
      unfold ReportView.absent, truthyStr. rewrite andb_true_r.
      destruct (nonempty msg); reflexivity. }
  split.
  - destruct V as [(rep & _ & ->) | (msg & _ & _ & ->)].
    + destruct (ReportView.findings _ _ rep); discriminate.
    + destruct (nonempty msg); discriminate.
  - destruct V as [(rep & R & V) | V]; [left | right; exact V].
    exists rep. split; [exact R | split; [exact V | ] ].
    intros N. rewrite V, (findings_need _ _ _ N). reflexivity.
Qed.


(** X11.  Without an API key (absent or empty) the constructor throws
    before the [try] block: the run rejects with "API_KEY environment
    variable not set", whatever the hook held before is cleared, nothing is
    logged, and the loading flag stays set, so the report view shows the
    spinner and the button stays disabled. *)
Theorem X11_missing_key_leaves_the_spinner w intl file ts ctx u0 st :
  truthyStr (API_KEY w) = false ->
  runVerification w file ts ctx (start u0)
  = (Throw (Error (js "API_KEY environment variable not set")), cleared) /\
  ReportView.VerificationReport (GeminiService.host w) intl
    (report (ui cleared)) (isLoading (ui cleared)) (error (ui cleared))
  = Some ReportView.Generating /\
  App.disabled st (ui cleared) = true.
Proof.
  intros K. rewrite runVerification_unfold. unfold constructor. rewrite K.
  repeat split.
Qed.


(** ** Counting what a run asks for *)

Lemma count_app kind a b : count kind (a ++ b) = (count kind a + count kind b)%nat.
Proof. unfold count. now rewrite filter_app, length_app. Qed.

Lemma costs_weaken {A} kind n n' (m : Svc A) :
  costs kind n m -> (n <= n')%nat -> costs kind n' m.
Proof.
  intros H L t r t' E. destruct (H _ _ _ E) as (evs & -> & C).
  exists evs. split; [reflexivity | lia].
Qed.

Lemma costs_ret {A} kind n (a : A) : costs kind n (ret a).
Proof.
  intros t r t' E. inversion E; subst. exists []. rewrite app_nil_r.
  split; [reflexivity | apply Nat.le_0_l].
Qed.

Lemma costs_throw {A} kind n e : costs kind n (@throw _ A e).
Proof.
  intros t r t' E. inversion E; subst. exists []. rewrite app_nil_r.
  split; [reflexivity | apply Nat.le_0_l].
Qed.

Lemma costs_lift {A} kind n (o : outcome A) : costs kind n (lift o).
Proof.
  intros t r t' E. inversion E; subst. exists []. rewrite app_nil_r.
  split; [reflexivity | apply Nat.le_0_l].
Qed.

Lemma costs_emit (kind : Event -> bool) n e :
  ((if kind e then 1 else 0) <= n)%nat -> costs kind n (emit e).
Proof.
  intros L t r t' E. inversion E; subst. exists [e]. split; [reflexivity | ].
  unfold count. simpl. destruct (kind e); simpl; lia.
Qed.

Lemma costs_bind {A B} kind n1 n2 n (m : Svc A) (f : A -> Svc B) :
  costs kind n1 m -> (forall a, costs kind n2 (f a)) -> (n1 + n2 <= n)%nat ->
  costs kind n (bind m f).
Proof.
  intros Hm Hf L t r t' E.
  apply bind_inv in E as [(a & t1 & E1 & E2) | (e & E1 & ->)].
  - destruct (Hm _ _ _ E1) as (ev1 & -> & C1).
    destruct (Hf _ _ _ _ E2) as (ev2 & -> & C2).
    exists (ev1 ++ ev2). rewrite app_assoc, count_app. split; [reflexivity | lia].
  - destruct (Hm _ _ _ E1) as (ev1 & -> & C1). exists ev1. split; [reflexivity | lia].
Qed.

Lemma costs_try_catch {A} kind n1 n2 n (m : Svc A) (k : exn -> Svc A) :
  costs kind n1 m -> (forall e, costs kind n2 (k e)) -> (n1 + n2 <= n)%nat ->
  costs kind n (try_catch m k).
Proof.
  intros Hm Hk L t r t' E. unfold try_catch in E.
  destruct (m t) as [[a | e] t1] eqn:E1.
  - inversion E; subst. destruct (Hm _ _ _ E1) as (ev1 & -> & C1).
    exists ev1. split; [reflexivity | lia].
  - destruct (Hm _ _ _ E1) as (ev1 & -> & C1).
    destruct (Hk _ _ _ _ E) as (ev2 & -> & C2).
    exists (ev1 ++ ev2). rewrite app_assoc, count_app. split; [reflexivity | lia].
Qed.

(** One step of a bound: an event costs what its kind says, everything
    else nothing. *)
Ltac costs_step :=
  lazymatch goal with
  | |- costs ?k ?n (bind (emit ?e) _) =>
      apply (costs_bind k (if k e then 1 else 0) (n - (if k e then 1 else 0)) n);
      [ apply costs_emit; apply Nat.le_refl | intros ? | simpl; lia ]; simpl
  | |- costs ?k ?n (bind _ _) =>
      apply (costs_bind k 0 n n); [ | intros ? | apply Nat.le_refl ]
  | |- costs ?k ?n (try_catch _ _) =>
      apply (costs_try_catch k n 0 n); [ | intros ? | lia ]
  | |- costs _ _ (ret _) => apply costs_ret
  | |- costs _ _ (throw _) => apply costs_throw
  | |- costs _ _ (lift _) => apply costs_lift
  | |- costs _ _ (emit _) => apply costs_emit; simpl; lia
  | |- costs _ _ (if ?b then _ else _) => destruct b
  | |- costs _ _ (match ?x with _ => _ end) => destruct x
  | |- costs _ _ (let _ := _ in _) => cbv zeta
  end.

Lemma fileToBase64_costs kind w site file :
  costs kind (if kind (ReadFile site file) then 1 else 0) (fileToBase64 w site file).
Proof.
  unfold fileToBase64.
  apply (costs_bind kind (if kind (ReadFile site file) then 1 else 0) 0 _);
    [apply costs_emit; apply Nat.le_refl | intros ? | lia].
  repeat costs_step.
Qed.

(** A method that reads the file, then goes on within [n2]. *)
Ltac read_then k site file n2 :=
  apply (costs_bind k (if k (ReadFile site file) then 1 else 0) n2 _);
  [ apply fileToBase64_costs | intros ?; simpl | simpl; lia ].

Lemma analyzeMediaForClues_costs w file ctx :
  costs isReadFile 1 (analyzeMediaForClues w file ctx) /\
  costs isGenerate 1 (analyzeMediaForClues w file ctx) /\
  costs isFetch 0 (analyzeMediaForClues w file ctx).
Proof.
  unfold analyzeMediaForClues. repeat split.
  - read_then isReadFile AnalyzeMediaForClues file 0%nat. repeat costs_step.
  - read_then isGenerate AnalyzeMediaForClues file 1%nat. repeat costs_step.
  - read_then isFetch AnalyzeMediaForClues file 0%nat. repeat costs_step.
Qed.

Lemma determineTimestamp_costs w file loc date :
  costs isReadFile 1 (determineTimestamp w file loc date) /\
  costs isGenerate 1 (determineTimestamp w file loc date) /\
  costs isFetch 0 (determineTimestamp w file loc date).
Proof.
  unfold determineTimestamp. repeat split.
  - read_then isReadFile DetermineTimestamp file 0%nat. repeat costs_step.
  - read_then isGenerate DetermineTimestamp file 1%nat. repeat costs_step.
  - read_then isFetch DetermineTimestamp file 0%nat. repeat costs_step.
Qed.

Lemma generateVerificationReport_costs w file clues loc time ts sources sat :
  costs isReadFile 1 (generateVerificationReport w file clues loc time ts sources sat) /\
  costs isGenerate 1 (generateVerificationReport w file clues loc time ts sources sat) /\
  costs isFetch 0 (generateVerificationReport w file clues loc time ts sources sat).
Proof.
  unfold generateVerificationReport. repeat split.
  - read_then isReadFile GenerateReport file 0%nat. repeat costs_step.
  - read_then isGenerate GenerateReport file 1%nat. repeat costs_step.
  - read_then isFetch GenerateReport file 0%nat. repeat costs_step.
Qed.

Lemma findLocationWithGrounding_costs w clues ctx :
  costs isReadFile 0 (findLocationWithGrounding w clues ctx) /\
  costs isGenerate 2 (findLocationWithGrounding w clues ctx) /\
  costs isFetch 0 (findLocationWithGrounding w clues ctx).
Proof. unfold findLocationWithGrounding. repeat split; repeat costs_step. Qed.

Lemma getSatelliteImagery_costs w lat lon date :
  costs isReadFile 0 (getSatelliteImagery w lat lon date) /\
  costs isGenerate 0 (getSatelliteImagery w lat lon date) /\
  costs isFetch 1 (getSatelliteImagery w lat lon date).
Proof. unfold getSatelliteImagery. repeat split; repeat costs_step. Qed.

(** ** The same, for the hook *)

Lemma spends_of_frames {A} kind n strict (m : Run A) :
  frames strict (fun _ => False) m -> spends kind n m.
Proof.
  intros F s r s' E. destruct (F _ _ _ E) as ((evs & T & Fn) & _).
  rewrite (Forall_never evs Fn) in T. exists []. split; [exact T | apply Nat.le_0_l].
Qed.

Lemma spends_bind {A B} kind n1 n2 n (m : Run A) (f : A -> Run B) :
  spends kind n1 m -> (forall a, spends kind n2 (f a)) -> (n1 + n2 <= n)%nat ->
  spends kind n (bind m f).
Proof.
  intros Hm Hf L s r s' E.
  apply bind_inv in E as [(a & s1 & E1 & E2) | (e & E1 & ->)].
  - destruct (Hm _ _ _ E1) as (ev1 & T1 & C1).
    destruct (Hf _ _ _ _ E2) as (ev2 & T2 & C2).
    exists (ev1 ++ ev2). rewrite T2, T1, app_assoc, count_app.
    split; [reflexivity | lia].
  - destruct (Hm _ _ _ E1) as (ev1 & T1 & C1). exists ev1. split; [exact T1 | lia].
Qed.

Lemma spends_call {A} kind n (m : Svc A) : costs kind n m -> spends kind n (call m).
Proof.
  intros H s r s' E. apply call_inv in E as [E _]. exact (H _ _ _ E).
Qed.

(** A phase: a log entry, one service call, and steps that ask nothing. *)
Lemma phase_spends {A B} kind n w k msg (m : Svc A) (rest : A -> Run B) :
  costs kind n m ->
  (forall a, frames false (fun _ => False) (rest a)) ->
  spends kind n (bind (addLogEntry w k msg) (fun _ => bind (call m) rest)).
Proof.
  intros C Q.
  apply (spends_bind kind 0 n n);
    [ apply (spends_of_frames kind 0 true), frames_addLogEntry | intros _ | lia ].
  apply (spends_bind kind n 0 n);
    [ apply spends_call, C | intros a | lia ].
  eapply spends_of_frames, Q.
Qed.

Ltac quiet w := intros ?; cbv beta iota; repeat frames_step w.

Lemma phase1_spends w file ctx :
  spends isReadFile 1 (phase1 w file ctx) /\
  spends isGenerate 1 (phase1 w file ctx) /\
  spends isFetch 0 (phase1 w file ctx).
Proof.
  unfold phase1. repeat split; apply phase_spends;
    try apply analyzeMediaForClues_costs; quiet w.
Qed.

Lemma phase2_spends w clues ctx :
  spends isReadFile 0 (phase2 w clues ctx) /\
  spends isGenerate 2 (phase2 w clues ctx) /\
  spends isFetch 0 (phase2 w clues ctx).
Proof.
  unfold phase2. repeat split; apply phase_spends;
    try apply findLocationWithGrounding_costs;
    intros [loc sources]; cbv beta iota; repeat frames_step w.
Qed.

Lemma phase4_spends w file ts loc :
  spends isReadFile 1 (phase4 w file ts loc) /\
  spends isGenerate 1 (phase4 w file ts loc) /\
  spends isFetch 0 (phase4 w file ts loc).
Proof.
  unfold phase4. repeat split; apply phase_spends;
    try apply determineTimestamp_costs; quiet w.
Qed.

Lemma phase5_spends w file ts clues loc time sources sat :
  spends isReadFile 1 (phase5 w file ts clues loc time sources sat) /\
  spends isGenerate 1 (phase5 w file ts clues loc time sources sat) /\
  spends isFetch 0 (phase5 w file ts clues loc time sources sat).
Proof.
  unfold phase5. repeat split; apply phase_spends;
    try apply generateVerificationReport_costs; quiet w.
Qed.

Ltac spends_step w :=
  lazymatch goal with
  | |- spends ?k ?n (bind (call _) _) => fail
  | |- spends ?k ?n (bind _ _) =>
      apply (spends_bind k 0 n n); [ | intros ? | apply Nat.le_refl ]
  | |- spends ?k ?n (ret _) => apply (spends_of_frames k n true), frames_ret
  | |- spends ?k ?n (lift _) => apply (spends_of_frames k n true), frames_lift
  | |- spends ?k ?n (addLogEntry _ _ _) =>
      apply (spends_of_frames k n true), (frames_addLogEntry w)
  | |- spends _ _ (if ?b then _ else _) => destruct b
  | |- spends _ _ (match ?x with _ => _ end) => destruct x
  | |- spends _ _ (let _ := _ in _) => cbv zeta
  end.

Lemma phase3_spends w ts loc :
  spends isReadFile 0 (phase3 w ts loc) /\
  spends isGenerate 0 (phase3 w ts loc) /\
  spends isFetch 1 (phase3 w ts loc).
Proof.
  unfold phase3. repeat split; repeat spends_step w;
    match goal with
    | |- spends ?k ?n (bind (call _) _) =>
        apply (spends_bind k n 0 n);
          [ apply spends_call, getSatelliteImagery_costs
          | intros ?; eapply (spends_of_frames k 0 true); repeat frames_step w
          | lia ]
    end.
Qed.

Lemma attempt_spends w file ts ctx :
  spends isReadFile 3 (attempt w file ts ctx) /\
  spends isGenerate 5 (attempt w file ts ctx) /\
  spends isFetch 1 (attempt w file ts ctx).
Proof.
  unfold attempt. repeat split.
  - apply (spends_bind _ 0 3 3);
      [apply (spends_of_frames _ 0 true), preamble_frames | intros _ | lia].
    apply (spends_bind _ 1 2 3); [apply phase1_spends | intros clues | lia].
    apply (spends_bind _ 0 2 2); [apply phase2_spends | intros [loc sources] | lia].
    apply (spends_bind _ 0 2 2); [apply phase3_spends | intros sat | lia].
    apply (spends_bind _ 1 1 2); [apply phase4_spends | intros time | lia].
    apply phase5_spends.
  - apply (spends_bind _ 0 5 5);
      [apply (spends_of_frames _ 0 true), preamble_frames | intros _ | lia].
    apply (spends_bind _ 1 4 5); [apply phase1_spends | intros clues | lia].
    apply (spends_bind _ 2 2 4); [apply phase2_spends | intros [loc sources] | lia].
    apply (spends_bind _ 0 2 2); [apply phase3_spends | intros sat | lia].
    apply (spends_bind _ 1 1 2); [apply phase4_spends | intros time | lia].
    apply phase5_spends.
  - apply (spends_bind _ 0 1 1);
      [apply (spends_of_frames _ 0 true), preamble_frames | intros _ | lia].
    apply (spends_bind _ 0 1 1); [apply phase1_spends | intros clues | lia].
    apply (spends_bind _ 0 1 1); [apply phase2_spends | intros [loc sources] | lia].
    apply (spends_bind _ 1 0 1); [apply phase3_spends | intros sat | lia].
    apply (spends_bind _ 0 0 0); [apply phase4_spends | intros time | lia].
    apply phase5_spends.
Qed.

(** X13.  A run reads the file at most three times, asks the model at most
    five times and sends at most one request to the backend. *)
Theorem X13_run_budget w file ts ctx u0 :
  (count isReadFile (trace (snd (runVerification w file ts ctx (start u0)))) <= 3)%nat /\
  (count isGenerate (trace (snd (runVerification w file ts ctx (start u0)))) <= 5)%nat /\
  (count isFetch (trace (snd (runVerification w file ts ctx (start u0)))) <= 1)%nat.
Proof.
  rewrite runVerification_unfold.
  destruct (constructor w) as [[] | e0]; [ | simpl; unfold count; simpl; lia ].
  destruct (attempt w file ts ctx cleared) as [ra sa] eqn:EA.
  assert (T : forall x y : outcome unit * RunState,
             trace (snd match ra with Ok _ => (Ok tt, settled sa)
                                  | Throw e => (Ok tt, settled (caught w e sa)) end)
             = trace sa) by (intros; destruct ra; reflexivity).
  rewrite (T (Ok tt, sa) (Ok tt, sa)). clear T.
  destruct (attempt_spends w file ts ctx) as (R & G & F).
  destruct (R _ _ _ EA) as (e1 & T1 & C1).
  destruct (G _ _ _ EA) as (e2 & T2 & C2).
  destruct (F _ _ _ EA) as (e3 & T3 & C3).
  simpl in T1, T2, T3. rewrite T1 at 1. rewrite T2 at 1. rewrite T3. auto.
Qed.

(** ** The phases leave their events in order *)

Lemma ascending_cons a l :
  ascending (a :: l) = true <->
  ascending l = true /\ forall b, In b l -> (a <= b)%nat.
Proof.
  revert a. induction l as [| b l IH]; intros a.
  - simpl. split; [intros _; split; [reflexivity | intros ? []] | reflexivity].
  - change (ascending (a :: b :: l)) with ((a <=? b)%nat && ascending (b :: l)).
    rewrite andb_true_iff, Nat.leb_le. split.
    + intros [L A]. split; [exact A | ].
      intros c [<- | I]; [exact L | ].
      apply IH in A as [_ A]. specialize (A _ I). lia.
    + intros [A B]. split; [apply B; now left | exact A].
Qed.

Lemma ascending_app l1 l2 :
  ascending l1 = true -> ascending l2 = true ->
  (forall a b, In a l1 -> In b l2 -> (a <= b)%nat) ->
  ascending (l1 ++ l2) = true.
Proof.
  induction l1 as [| a l1 IH]; intros A1 A2 L; [exact A2 | ].
  change ((a :: l1) ++ l2) with (a :: l1 ++ l2).
  apply ascending_cons in A1 as [A1 B1]. apply ascending_cons. split.
  - apply IH; auto. intros x y Ix Iy. apply L; [now right | exact Iy].
  - intros b I. apply in_app_iff in I as [I | I]; [now apply B1 | ].
    apply L; [now left | exact I].
Qed.

Lemma ascending_same k l : Forall (eq k) l -> ascending l = true.
Proof.
  induction 1 as [| b l E F IH]; [reflexivity | ].
  apply ascending_cons. split; [exact IH | ].
  intros c I. rewrite Forall_forall in F. rewrite <- E, <- (F _ I). apply Nat.le_refl.
Qed.

Lemma upto_block j k t x :
  upto j t -> Forall (in_phase k) x -> (j <= k)%nat -> upto k (t ++ x).
Proof.
  intros [A B] F L. split.
  - rewrite map_app. apply ascending_app; [exact A | | ].
    + apply (ascending_same k). rewrite Forall_forall in *.
      intros p I. apply in_map_iff in I as (e & <- & I). symmetry. exact (F _ I).
    + intros a b Ia Ib.
      apply in_map_iff in Ia as (e1 & <- & I1). apply in_map_iff in Ib as (e2 & <- & I2).
      rewrite Forall_forall in B, F. specialize (B _ I1). rewrite (F _ I2). lia.
  - apply Forall_app. split.
    + eapply Forall_impl; [ | exact B]. simpl. intros; lia.
    + eapply Forall_impl; [ | exact F]. unfold in_phase. intros; lia.
Qed.

Lemma attempt_in_order w file ts ctx s ra sa :
  attempt w file ts ctx s = (ra, sa) ->
  upto 0 (trace s) -> upto 5 (trace sa).
Proof.
  intros EA U.
  apply attempt_path in EA as (s0 & E0 & r1 & s1 & E1 & EA).
  destruct (preamble_frames w ts ctx (fun _ => False) _ _ _ E0)
    as ((x0 & T0 & F0) & _).
  rewrite (Forall_never x0 F0), app_nil_r in T0. rewrite <- T0 in U.
  destruct (phase1_frames _ _ _ _ _ _ E1) as ((x1 & T1 & F1) & _).
  pose proof (upto_block 0 1 _ _ U F1 ltac:(lia)) as U1. rewrite <- T1 in U1.
  assert (W : forall j t, upto j t -> (j <= 5)%nat -> upto 5 t).
  { intros j t V L. rewrite <- (app_nil_r t). apply (upto_block j 5 t [] V); auto. }
  destruct r1 as [clues | e]; [ | destruct EA as [_ ->]; apply (W 1%nat); auto ].
  destruct EA as (r2 & s2 & E2 & EA).
  destruct (phase2_frames _ _ _ _ _ _ E2) as ((x2 & T2 & F2) & _).
  pose proof (upto_block 1 2 _ _ U1 F2 ltac:(lia)) as U2. rewrite <- T2 in U2.
  destruct r2 as [[loc sources] | e];
    [ | destruct EA as [_ ->]; apply (W 2%nat); auto ].
  destruct EA as (r3 & s3 & E3 & EA).
  destruct (phase3_frames _ _ _ _ _ _ E3) as ((x3 & T3 & F3) & _).
  pose proof (upto_block 2 3 _ _ U2 F3 ltac:(lia)) as U3. rewrite <- T3 in U3.
  destruct r3 as [sat | e]; [ | destruct EA as [_ ->]; apply (W 3%nat); auto ].
  destruct EA as (r4 & s4 & E4 & EA).
  destruct (phase4_frames _ _ _ _ _ _ _ E4) as ((x4 & T4 & F4) & _).
  pose proof (upto_block 3 4 _ _ U3 F4 ltac:(lia)) as U4. rewrite <- T4 in U4.
  destruct r4 as [time | e]; [ | destruct EA as [_ ->]; apply (W 4%nat); auto ].
  destruct (phase5_frames _ _ _ _ _ _ _ _ _ _ _ EA) as ((x5 & T5 & F5) & _).
  rewrite T5. apply (upto_block 4 5); auto.
Qed.


(** X12.  The events of a run are in the order of its phases: the file and
    the model for the clues, the two model calls of the location, the
    imagery search and its request, the file and the model for the time,
    the file and the model for the report; no phase asks anything once a
    later one has. *)
Theorem X12_phases_run_in_order w file ts ctx u0 :
  ascending (map phase_of (trace (snd (runVerification w file ts ctx (start u0))))) = true.
Proof.
  rewrite runVerification_unfold.
  destruct (constructor w) as [[] | e0]; [ | reflexivity ].
  destruct (attempt w file ts ctx cleared) as [ra sa] eqn:EA.
  assert (U : upto 5 (trace sa)).
  { eapply attempt_in_order; [exact EA | ]. split; [reflexivity | constructor]. }
  destruct ra; exact (proj1 U).
Qed.

(** ** Where the imagery client sends its request, and for which date *)

Lemma startsWith_refl s : startsWith s s = true.
Proof. rewrite <- (app_nil_r s) at 2. apply startsWith_app. Qed.

Lemma same_date_refl d : same_date d d = true.
Proof. destruct d as [x | ]; [ | reflexivity]. simpl. now apply str_eqb_eq. Qed.

Lemma getSatelliteImagery_route w lat lon date :
  emits (fun e => goes_to_backend w e = true /\ searches_on date e = true)
    (getSatelliteImagery w lat lon date).
Proof.
  unfold getSatelliteImagery.
  repeat lazymatch goal with
         | |- emits _ (emit (ImagerySearch _ _ _)) =>
             apply emits_emit; split; [reflexivity | apply same_date_refl]
         | |- emits _ (emit (Fetch _)) =>
             apply emits_emit; split; [ | reflexivity];
             unfold goes_to_backend, searchRoute; rewrite app_assoc;
             apply startsWith_app
         | _ => emits_step
         end.
Qed.

Lemma elsewhere k date w e :
  in_phase k e -> k <> 3%nat ->
  goes_to_backend w e = true /\ searches_on date e = true.
Proof. destruct e; simpl; intros P N; auto; elim N; now rewrite <- P. Qed.

Lemma phase3_route w ts loc :
  frames true (fun e => goes_to_backend w e = true /\ searches_on (datePart ts) e = true)
    (phase3 w ts loc).
Proof.
  unfold phase3. frames_step w; [frames_step w | ].
  frames_step w; [ | frames_step w].
  do 3 (frames_step w; [frames_step w | ]). cbv zeta.
  frames_step w; [apply frames_call, getSatelliteImagery_route | ].
  repeat frames_step w.
Qed.

Lemma attempt_route w file ts ctx :
  frames false (fun e => goes_to_backend w e = true /\ searches_on (datePart ts) e = true)
    (attempt w file ts ctx).
Proof.
  unfold attempt.
  apply frames_bind;
    [eapply frames_weaken; [ | apply (preamble_frames w ts ctx (fun _ => False))];
     intros e [] | intros _].
  apply frames_bind;
    [eapply frames_weaken; [ | apply phase1_frames];
     intros e P; apply (elsewhere 1); [exact P | discriminate] | intros clues].
  apply frames_bind;
    [eapply frames_weaken; [ | apply phase2_frames];
     intros e P; apply (elsewhere 2); [exact P | discriminate] | intros [loc sources]].
  apply frames_bind;
    [eapply frames_weaken; [ | apply phase3_route]; auto | intros sat].
  apply frames_bind;
    [eapply frames_weaken; [ | apply phase4_frames];
     intros e P; apply (elsewhere 4); [exact P | discriminate] | intros time].
  eapply frames_weaken; [ | apply phase5_frames].
  intros e P; apply (elsewhere 5); [exact P | discriminate].
Qed.

Lemma run_route w file ts ctx u0 :
  Forall (fun e => goes_to_backend w e = true /\ searches_on (datePart ts) e = true)
    (trace (snd (runVerification w file ts ctx (start u0)))).
Proof.
  rewrite runVerification_unfold.
  destruct (constructor w) as [[] | e0]; [ | constructor ].
  destruct (attempt w file ts ctx cleared) as [ra sa] eqn:EA.
  destruct (attempt_route _ _ _ _ _ _ _ EA) as ((evs & T & F) & _).
  simpl in T. destruct ra; simpl; rewrite T; exact F.
Qed.


(** X9.  Every request a run sends with [fetch] goes to the search route
    of the configured backend ([VITE_BACKEND_API_URL], or
    http://localhost:3001 when that is absent or empty): the browser never
    addresses the identity provider or the catalogue itself. *)
Theorem X9_requests_go_to_the_backend w file ts ctx u0 :
  forallb (goes_to_backend w) (trace (snd (runVerification w file ts ctx (start u0))))
  = true.
Proof.
  apply forallb_forall. intros e I.
  pose proof (run_route w file ts ctx u0) as F. rewrite Forall_forall in F.
  exact (proj1 (F e I)).
Qed.

Lemma datePart_of_form st f ts ctx :
  App.handleAnalyze st = App.runs f ts ctx ->
  includes (js "T") (App.claimedDate st) = false ->
  datePart ts = if nonempty (App.claimedDate st) then Some (App.claimedDate st) else None.
Proof.
  unfold App.handleAnalyze. destruct (App.file st) as [f0 | ]; [ | discriminate].
  cbv zeta. intros H N. inversion H; subst; clear H.
  assert (N' : ~ In 84%N (App.claimedDate st)) by (apply not_includes; exact N).
  destruct (App.claimedDate st) as [| c d] eqn:D; [reflexivity | ].
  cbn [nonempty]. destruct (nonempty (App.claimedTime st)).
  - unfold datePart. cbn [nonempty app].
    change (js "T" ++ App.claimedTime st) with (84%N :: App.claimedTime st).
    change (c :: d ++ 84%N :: App.claimedTime st)
      with ((c :: d) ++ 84%N :: App.claimedTime st).
    now rewrite (split_head_app 84 (c :: d) _ N').
  - unfold datePart. cbn [nonempty]. now rewrite (split_head_all 84 (c :: d) N').
Qed.

(** X14.  A click on the button with a file and a claimed date (a text
    without the letter T, as a date field gives it) starts a run whose
    timestamp is empty exactly when the date is, and the hook recovers the
    date from it: the date part of the timestamp is the claimed date, with
    or without a claimed time, and every imagery search of that run is for
    that date (for no date, when none was claimed). *)
Theorem X14_claimed_date_reaches_the_search w st f u0 :
  App.file st = Some f ->
  includes (js "T") (App.claimedDate st) = false ->
  exists claimedTimestamp,
    App.handleAnalyze st = App.runs f claimedTimestamp (App.locationContext st) /\
    nonempty claimedTimestamp = nonempty (App.claimedDate st) /\
    datePart claimedTimestamp
    = (if nonempty (App.claimedDate st) then Some (App.claimedDate st) else None) /\
    forallb (searches_on (if nonempty (App.claimedDate st)
                          then Some (App.claimedDate st) else None))
      (trace (snd (App.click w st (start u0)))) = true.
Proof.
  intros F N.
  assert (H : exists ts,
             App.handleAnalyze st = App.runs f ts (App.locationContext st) /\
             nonempty ts = nonempty (App.claimedDate st)).
  { unfold App.handleAnalyze. rewrite F. cbv zeta. eexists. split; [reflexivity | ].
    destruct (App.claimedDate st); [reflexivity | ].
    cbn [nonempty]. destruct (nonempty (App.claimedTime st)); reflexivity. }
  destruct H as (ts & H & M). exists ts.
  pose proof (datePart_of_form _ _ _ _ H N) as D.
  split; [exact H | split; [exact M | split; [exact D | ] ] ].
  unfold App.click. rewrite H, <- D.
  apply forallb_forall. intros e I.
  pose proof (run_route w f ts (App.locationContext st) u0) as R.
  rewrite Forall_forall in R. exact (proj2 (R e I)).
Qed.

(** ** The proxy: what goes upstream, and in which order *)

Lemma quiet_state {Ev A} (m : M (list Ev) A) t r t' :
  emits (fun _ => False) m -> m t = (r, t') -> t' = t.
Proof.
  intros Q E. destruct (Q _ _ _ E) as (evs & -> & F).
  rewrite (Forall_never evs F). apply app_nil_r.
Qed.

Lemma issue_inv w q t r t' :
  Proxy.issue w q t = (r, t') -> t' = t ++ [q] /\ r = Proxy.fetch w q.
Proof. unfold Proxy.issue, bind, modify, lift. intros H; inversion H; auto. Qed.

(** Splits off the next step of a handler when it asks nothing upstream. *)
Ltac quiet_step EB :=
  let E1 := fresh "E" in
  let x := fresh "x" in
  let t1 := fresh "t" in
  let e := fresh "e" in
  apply bind_inv in EB as [(x & t1 & E1 & EB) | (e & E1 & ->)];
  [ match type of E1 with
    | ?m ?t0 = _ =>
        let Q := fresh "Q" in
        assert (Q : emits (fun _ : Proxy.Request => False) m) by (repeat handler_step);
        pose proof (quiet_state _ _ _ _ Q E1); subst t1; clear Q
    end
  | match type of E1 with
    | ?m ?t0 = _ =>
        let Q := fresh "Q" in
        assert (Q : emits (fun _ : Proxy.Request => False) m) by (repeat handler_step);
        pose proof (quiet_state _ _ _ _ Q E1); subst; clear Q
    end ].

(** The body failed before the catalogue was asked. *)
Ltac failed RF := left; split; [reflexivity | ]; eexists; f_equal; now apply RF.

Lemma searchHandler_path w q t r t' :
  Proxy.searchHandler w q t = (r, t') ->
  truthy (Proxy.lat q) = true -> truthy (Proxy.lon q) = true ->
  (t' = t ++ [Proxy.tokenRequest w] /\ exists e, r = Ok (Proxy.searchFailed e)) \/
  (exists authResponse authData token stoken url reply,
      Proxy.fetch w (Proxy.tokenRequest w) = Ok authResponse /\
      ok authResponse = true /\
      json authResponse = Ok authData /\
      Get authData (js "access_token") = Ok token /\
      ToString (Proxy.host w) token = Ok stoken /\
      t' = t ++ [Proxy.tokenRequest w; catalogueRequest url stoken] /\
      startsWith (Proxy.catalogue ++ js "?$filter=") url = true /\
      r = Ok reply).
Proof.
  unfold Proxy.searchHandler. cbv zeta. intros H Tlat Tlon.
  rewrite Tlat, Tlon in H. cbn [negb orb] in H. unfold try_catch in H.
  match type of H with
  | match ?b t with _ => _ end = _ => destruct (b t) as [rb tb] eqn:EB
  end.
  assert (R : exists reply, r = Ok reply /\ t' = tb
                /\ (forall e, rb = Throw e -> reply = Proxy.searchFailed e)).
  { destruct rb as [reply | e]; inversion H; subst; eexists; repeat split; eauto.
    - intros e X; discriminate X.
    - intros e0 X; inversion X; reflexivity. }
  destruct R as (reply & -> & -> & RF). clear H.
  apply bind_inv in EB as [(authResponse & t1 & E1 & EB) | (e & E1 & ->)];
    apply issue_inv in E1 as [-> E1].
  2:{ left. split; [reflexivity | ]. exists e. f_equal. now apply RF. }
  destruct (ok authResponse) eqn:O; cbn [negb] in EB.
  2:{ inversion EB; subst. left. split; [reflexivity | ]. eexists. f_equal.
      now apply RF. }
  quiet_step EB; [ | failed RF ]. apply lift_inv in E as [Ej _].
  quiet_step EB; [ | failed RF ]. apply lift_inv in E as [Et _].
  quiet_step EB; [ | failed RF ]. clear E.
  quiet_step EB; [ | failed RF ]. clear E.
  quiet_step EB; [ | failed RF ]. clear E.
  quiet_step EB; [ | failed RF ]. clear E.
  quiet_step EB; [ | failed RF ]. clear E.
  quiet_step EB; [ | failed RF ]. clear E.
  quiet_step EB; [ | failed RF ]. clear E.
  quiet_step EB; [ | failed RF ]. apply lift_inv in E as [Es _].
  apply bind_inv in EB as [(searchResponse & t2 & E2 & EB) | (e & E2 & ->)];
    apply issue_inv in E2 as [-> E2].
  - right.
    match type of EB with
    | ?m _ = _ =>
        assert (Q : emits (fun _ : Proxy.Request => False) m) by (repeat handler_step)
    end.
    apply (quiet_state _ _ _ _ Q) in EB as ->.
    eexists authResponse, _, _, _, _, reply.
    repeat split; try eassumption; try (symmetry; eassumption).
    + rewrite <- app_assoc. reflexivity.
    + reflexivity.
  - right.
    eexists authResponse, _, _, _, _, reply.
    repeat split; try eassumption; try (symmetry; eassumption).
    + rewrite <- app_assoc. reflexivity.
    + reflexivity.
Qed.

(** A descriptor reads its product and nothing else. *)
Lemma descriptor_pure w item t r t' :
  Proxy.descriptor w item t = (r, t') ->
  t' = t /\ forall s, Proxy.descriptor w item s = (r, s).
Proof.
  unfold Proxy.descriptor, bind, lift, ret. cbv beta iota.
  repeat match goal with
         | |- context [match ?x with Ok _ => _ | Throw _ => _ end] => destruct x
         | |- context [if ?b then _ else _] => destruct b
         end;
    intros H; inversion H; subst; split; reflexivity.
Qed.

Lemma descriptor_id w item t d t' :
  Proxy.descriptor w item t = (Ok d, t') ->
  Get d (js "id") = Get item (js "Id").
Proof.
  unfold Proxy.descriptor, bind, lift, ret. cbv beta iota.
  repeat match goal with
         | |- context [match ?x with Ok _ => _ | Throw _ => _ end] => destruct x
         | |- context [if ?b then _ else _] => destruct b
         end;
    intros H; inversion H; subst; reflexivity.
Qed.

Lemma mapM_descriptor w items :
  forall t imagery t',
    mapM (Proxy.descriptor w) items t = (Ok imagery, t') ->
    t' = t /\ Forall2 (describes w) items imagery.
Proof.
  induction items as [| item items IH]; intros t imagery t' H; simpl in H.
  - inversion H. split; [reflexivity | constructor].
  - apply bind_ok_inv in H as (d & t1 & D & H).
    apply bind_ok_inv in H as (ds & t2 & Ds & H).
    inversion H; subst imagery t'; clear H.
    destruct (descriptor_pure _ _ _ _ _ D) as [-> P].
    destruct (IH _ _ _ Ds) as [-> F].
    split; [reflexivity | ]. constructor; [ | exact F].
    split; [exact P | exact (descriptor_id _ _ _ _ _ D)].
Qed.


(** X18.  A 200 reply of the search route lists the products of the
    catalogue: the route has asked for a token and then sent one request to
    the catalogue, the answer to that request was ok, and the reply's
    [imagery] holds, in their order, one descriptor for each product of the
    [value] array of that answer (none when [value] is not an array), each
    bearing the identifier of its product; [count] is their number. *)
Theorem X18_search_lists_every_product w q t reply t' :
  Proxy.searchHandler w q t = (Ok reply, t') ->
  Proxy.statusCode reply = 200%Z ->
  exists url token resp data imagery,
    t' = t ++ [Proxy.tokenRequest w; catalogueRequest url token] /\
    Proxy.fetch w (catalogueRequest url token) = Ok resp /\
    ok resp = true /\
    json resp = Ok data /\
    Get (Proxy.body reply) (js "imagery") = Ok (JArr imagery) /\
    Get (Proxy.body reply) (js "count")
    = Ok (JNum (num (Z.of_nat (List.length imagery)))) /\
    Forall2 (describes w) (products data) imagery.
Proof.
  unfold Proxy.searchHandler. cbv zeta.
  destruct (truthy (Proxy.lat q)) eqn:Tlat; simpl;
    [ destruct (truthy (Proxy.lon q)) eqn:Tlon; simpl | ];
    try solve [intros H S; inversion H; subst; discriminate S].
  intros H S. unfold try_catch in H.
  match type of H with
  | match ?b t with _ => _ end = _ => destruct (b t) as [rb tb] eqn:EB
  end.
  destruct rb as [reply0 | e]; [ | inversion H; subst; discriminate S].
  inversion H; subst reply0 tb; clear H.
  peel EB;
    repeat match goal with
           | L : lift _ _ = (Ok _, _) |- _ => apply lift_inv in L as [L ->]
           | L : Proxy.issue _ _ _ = (Ok _, _) |- _ => apply issue_inv in L as [-> L]
           | L : ?m ?t0 = (Ok _, ?t1) |- _ =>
               is_var t1;
               tryif constr_eq t0 t1 then fail else
                 (let Q := fresh "Q" in
                  assert (Q : emits (fun _ : Proxy.Request => False) m)
                    by (repeat handler_step);
                  pose proof (quiet_state _ _ _ _ Q L); subst t1; clear Q)
           end;
    unfold ret in EB; inversion EB; subst reply; clear EB;
    match goal with
    | F : Ok ?resp = Proxy.fetch w ?creq, J : json ?resp = Ok ?data |- _ =>
        match creq with
        | Proxy.tokenRequest w => fail 1
        | Proxy.Build_Request ?u _ _ _ =>
            match goal with
            | G : Get _ (js "access_token") = Ok ?token,
              T : ToString _ ?token = Ok ?stoken |- _ => exists u, stoken, resp, data
            end
        end
    end.
  - (* some products *)
    match goal with
    | V1 : Get ?d (js "value") = Ok ?v1, V2 : Get ?d (js "value") = Ok ?v2 |- _ =>
        rewrite V1 in V2; inversion V2; subst v2; unfold products; rewrite V1
    end.
    match goal with
    | Hm : Proxy.mapValue _ ?v _ = (Ok ?imagery, _) |- _ =>
        destruct v; try discriminate Hm; simpl in Hm;
        apply mapM_descriptor in Hm as [_ Hm]; exists imagery
    end.
    split; [rewrite <- app_assoc; reflexivity | ].
    split; [symmetry; assumption | ].
    split; [apply negb_false_iff; assumption | ].
    split; [assumption | ].
    split; [reflexivity | ]. split; [reflexivity | assumption].
  - (* none *)
    exists [].
    split; [rewrite <- app_assoc; reflexivity | ].
    split; [symmetry; assumption | ].
    split; [apply negb_false_iff; assumption | ].
    split; [assumption | ].
    split; [reflexivity | ]. split; [reflexivity | ].
    unfold products.
    match goal with
    | V1 : Get ?d (js "value") = Ok ?v1 |- _ => rewrite V1
    end.
    match goal with
    | Hs : (if truthy ?v then _ else _) _ = (Ok false, _) |- _ =>
        destruct v as [ | | | | | [| item items] | ]; try constructor;
        exfalso; unfold bind, lift, ret in Hs; cbn [truthy Get] in Hs;
        change (str_eqb (js "length") (js "length")) with true in Hs;
        cbn [ToNumber] in Hs; rewrite count_positive in Hs; discriminate Hs
    end.
Qed.

(** X21.  When the token request fails with an error whose cause carries
    the code EAI_AGAIN (and which has no code of its own), the search route
    answers 500 with the network hint as [details], while the auth route,
    which looks at the error's own code only, answers 500 with the bare
    message as [details]. *)
Theorem X21_network_hint_differs_between_routes w q t e :
  Proxy.fetch w (Proxy.tokenRequest w) = Throw e ->
  err_causeCode e = Some (js "EAI_AGAIN") ->
  err_code e = None ->
  truthy (Proxy.lat q) = true ->
  truthy (Proxy.lon q) = true ->
  Proxy.searchHandler w q t = (Ok (Proxy.searchFailed e), t ++ [Proxy.tokenRequest w]) /\
  Get (Proxy.body (Proxy.searchFailed e)) (js "details") = Ok (JStr Proxy.networkHint) /\
  Proxy.authHandler w t = (Ok (Proxy.authFailed e), t ++ [Proxy.tokenRequest w]) /\
  Get (Proxy.body (Proxy.authFailed e)) (js "details") = Ok (JStr (err_message e)).
Proof.
  intros F C K Tlat Tlon. repeat split.
  - unfold Proxy.searchHandler, try_catch, Proxy.issue, bind, modify, lift, ret.
    cbv zeta. rewrite Tlat, Tlon. cbn [negb orb]. now rewrite F.
  - unfold Proxy.searchFailed. rewrite C. reflexivity.
  - unfold Proxy.authHandler, try_catch, Proxy.issue, bind, modify, lift, ret.
    now rewrite F.
  - unfold Proxy.authFailed. rewrite K. reflexivity.
Qed.


(** X19.  The search route reads its dates only after it has fetched a
    token: a request with coordinates and an end date the engine cannot
    read (the start date absent or a text) is answered 500, kind "Search
    failed", message "Invalid time value", after the token request went
    upstream, and the catalogue is never asked. *)
Theorem X19_unreadable_end_date_costs_a_token w q t authResponse authData token d :
  truthy (Proxy.lat q) = true ->
  truthy (Proxy.lon q) = true ->
  Proxy.fetch w (Proxy.tokenRequest w) = Ok authResponse ->
  ok authResponse = true ->
  json authResponse = Ok authData ->
  Get authData (js "access_token") = Ok token ->
  Proxy.endDate q = JStr d ->
  nonempty d = true ->
  Date_parse (Proxy.host w) d = None ->
  (Proxy.startDate q = JUndefined \/ exists s, Proxy.startDate q = JStr s) ->
  Proxy.searchHandler w q t
  = (Ok (Proxy.searchFailed (RangeError (js "Invalid time value"))),
     t ++ [Proxy.tokenRequest w]).
Proof.
  intros Tlat Tlon F O J G E N P S.
  unfold Proxy.searchHandler, try_catch, Proxy.issue, bind, modify, lift, ret.
  cbv zeta. rewrite Tlat, Tlon. cbn [negb orb]. rewrite F, O. cbn [negb].
  rewrite J, G, E. 
  assert (T : truthy (JStr d) = true) by (destruct d; [discriminate N | reflexivity]).
  rewrite T. cbn [newDate]. rewrite P.
  destruct S as [-> | (s & ->)].
  - reflexivity.
  - destruct s as [| c s]; [reflexivity | ].
    cbn [truthy newDate]. destruct (Date_parse (Proxy.host w) (c :: s)); reflexivity.
Qed.

(** ** A backend answer that is ok and says null *)

Lemma phase3_null w ts loc url resp :
  GeminiService.fetch w url = Ok resp -> ok resp = true -> json resp = Ok JNull ->
  stops (Fetch url) nullAvailable (phase3 w ts loc).
Proof.
  intros F O J s r s' E I N. unfold phase3 in E.
  apply bind_inv in E as [(guard & s0 & E0 & E) | (e & E0 & ->)];
    apply lift_inv in E0 as [_ ->]; [ | contradiction ].
  destruct guard; [ | inversion E; subst; contradiction ].
  apply bind_inv in E as [([] & s1 & E1 & E) | (e & E1 & _)]; [ | discriminate E1 ].
  apply addLogEntry_inv in E1 as [_ ->]. cbv zeta in E.
  apply bind_inv in E as [(lat & s2 & E2 & E) | (e & E2 & ->)];
    apply lift_inv in E2 as [_ ->]; [ | contradiction ].
  apply bind_inv in E as [(lon & s3 & E3 & E) | (e & E3 & ->)];
    apply lift_inv in E3 as [_ ->]; [ | contradiction ].
  apply bind_inv in E as [(sat & s4 & E4 & E) | (e & E4 & ->)];
    apply call_inv in E4 as [EG Eu]; simpl in EG.
  2:{ apply getSatelliteImagery_cases in EG as [[_ X] | (url0 & _ & X)]; discriminate X. }
  match type of E with
  | ?m s4 = _ => assert (Q : frames true (fun _ => False) m) by (repeat frames_step w)
  end.
  destruct (Q _ _ _ E) as ((evs & Ft & Fn) & _).
  rewrite (Forall_never evs Fn), app_nil_r in Ft. rewrite Ft in I. clear Q evs Fn.
  apply getSatelliteImagery_cases in EG as [[T X] | (url0 & T & X)];
    rewrite T in I; apply in_app_iff in I as [I | I]; try contradiction.
  - destruct I as [I | []]. discriminate I.
  - destruct I as [I | [I | []]]; [discriminate I | ]. inversion I; subst url0.
    rewrite F, O, J in X. inversion X; subst sat.
    unfold bind at 1, lift at 1 in E. cbn [Get] in E. inversion E; subst.
    rewrite Eu. simpl. repeat split; auto.
    exists (trace s ++ [ImagerySearch lat lon (datePart ts)]).
    rewrite T, <- app_assoc. reflexivity.
Qed.

Lemma elsewhere_fetch k url evs : Forall (in_phase k) evs -> k <> 3%nat -> ~ In (Fetch url) evs.
Proof. intros F N I. apply N. symmetry. exact (in_block _ _ _ F I). Qed.


(** X10.  The imagery client hands on whatever JSON an ok response
    carries, and the hook reads [available] off it unchecked: when the
    backend answers ok with the body null, the run fails in phase 3 with
    "Cannot read properties of null (reading 'available')", right after the
    request, with no report. *)
Theorem X10_null_backend_answer_aborts_run w url resp file ts ctx u0 r s' :
  GeminiService.fetch w url = Ok resp ->
  ok resp = true ->
  json resp = Ok JNull ->
  runVerification w file ts ctx (start u0) = (r, s') ->
  In (Fetch url) (trace s') ->
  r = Ok tt /\
  error (ui s') = Some (js "Cannot read properties of null (reading 'available')") /\
  report (ui s') = None /\
  isLoading (ui s') = false /\
  (exists evs, trace s' = evs ++ [Fetch url]) /\
  ends_with
    [(LogType.error,
      failed_message (js "Cannot read properties of null (reading 'available')"))]
    (log (ui s')).
Proof.
  intros F O J H I. rewrite runVerification_unfold in H.
  destruct (constructor w) as [[] | e0]; [ | inversion H; subst; contradiction].
  destruct (attempt w file ts ctx cleared) as [ra sa] eqn:EA.
  assert (I' : In (Fetch url) (trace sa))
    by (destruct ra; inversion H; subst; exact I).
  assert (S : stops (Fetch url) nullAvailable (attempt w file ts ctx)).
  { apply attempt_stops.
    - intros s x s0 E Ix Nx. exfalso.
      destruct (phase1_frames _ _ _ _ _ _ E) as ((evs & T & Fe) & _).
      rewrite T in Ix. apply in_app_iff in Ix as [Ix | Ix]; [contradiction | ].
      revert Ix. apply (elsewhere_fetch 1); [exact Fe | discriminate].
    - intros clues s x s0 E Ix Nx. exfalso.
      destruct (phase2_frames _ _ _ _ _ _ E) as ((evs & T & Fe) & _).
      rewrite T in Ix. apply in_app_iff in Ix as [Ix | Ix]; [contradiction | ].
      revert Ix. apply (elsewhere_fetch 2); [exact Fe | discriminate].
    - intros loc. eapply phase3_null; eauto.
    - intros loc s x s0 E Ix Nx. exfalso.
      destruct (phase4_frames _ _ _ _ _ _ _ E) as ((evs & T & Fe) & _).
      rewrite T in Ix. apply in_app_iff in Ix as [Ix | Ix]; [contradiction | ].
      revert Ix. apply (elsewhere_fetch 4); [exact Fe | discriminate].
    - intros clues loc time sources sat s x s0 E Ix Nx. exfalso.
      destruct (phase5_frames _ _ _ _ _ _ _ _ _ _ _ E) as ((evs & T & Fe) & _).
      rewrite T in Ix. apply in_app_iff in Ix as [Ix | Ix]; [contradiction | ].
      revert Ix. apply (elsewhere_fetch 5); [exact Fe | discriminate]. }
  destruct (S _ _ _ EA I' (fun x => x)) as (-> & T & Rp & Er).
  inversion H; subst; clear H. simpl. repeat split; auto.
  eexists _, _. split; reflexivity.
Qed.

(** ** An unreadable date never leaves the browser *)

(** X8.  Given a non-empty date the engine cannot read,
    [getSatelliteImagery] sends nothing to the backend: it returns the
    unavailable result at once, with the coordinates it was given and
    that very date as [searchDate]. *)
Theorem X8_unreadable_date_is_never_sent w lat lon d t :
  nonempty d = true ->
  Date_parse (GeminiService.host w) d = None ->
  getSatelliteImagery w lat lon (Some d) t
  = (Ok (unavailable w lat lon (Some d)), t ++ [ImagerySearch lat lon (Some d)]) /\
  Get (unavailable w lat lon (Some d)) (js "searchDate") = Ok (JStr d).
Proof.
  intros N P. split.
  - unfold getSatelliteImagery, try_catch, bind, emit, modify, lift, ret, toISOString.
    cbv zeta. unfold truthyStr. rewrite N, P. reflexivity.
  - unfold unavailable, truthyStr. rewrite N. reflexivity.
Qed.


(** X17.  The search route always answers, and asks the upstream at most
    twice: nothing (the 400 reply), the token request alone, or the token
    request followed by one GET to the catalogue, sent only after the
    identity provider answered ok with a JSON body, and carrying as bearer
    the [access_token] of that body and nothing of the credentials. *)
Theorem X17_search_asks_for_a_token_first w q t :
  exists reply,
    fst (Proxy.searchHandler w q t) = Ok reply /\
    (snd (Proxy.searchHandler w q t) = t \/
     snd (Proxy.searchHandler w q t) = t ++ [Proxy.tokenRequest w] \/
     exists authResponse authData token stoken url,
       Proxy.fetch w (Proxy.tokenRequest w) = Ok authResponse /\
       ok authResponse = true /\
       json authResponse = Ok authData /\
       Get authData (js "access_token") = Ok token /\
       ToString (Proxy.host w) token = Ok stoken /\
       snd (Proxy.searchHandler w q t)
       = t ++ [Proxy.tokenRequest w; catalogueRequest url stoken] /\
       startsWith (Proxy.catalogue ++ js "?$filter=") url = true).
Proof.
  destruct (Proxy.searchHandler w q t) as [r t'] eqn:E. simpl.
  destruct (truthy (Proxy.lat q) && truthy (Proxy.lon q)) eqn:G.
  - apply andb_true_iff in G as [Tlat Tlon].
    destruct (searchHandler_path _ _ _ _ _ E Tlat Tlon)
      as [(-> & e & ->) | (ar & ad & tok & stok & url & reply & F & O & J & Gt & S & -> & W & ->)].
    + eexists. split; [reflexivity | right; left; reflexivity].
    + exists reply. split; [reflexivity | right; right].
      exists ar, ad, tok, stok, url. auto 10.
  - apply searchHandler_cases in E as [(-> & -> & _) | (Tlat & Tlon & _)].
    + eexists. split; [reflexivity | left; reflexivity].
    + rewrite Tlat, Tlon in G. discriminate G.
Qed.



(** The window and the size of a search that names neither. *)

(** X20.  A search that names neither dates nor a limit asks the catalogue
    for at most 5 products whose content starts within the 2,592,000,000
    milliseconds (30 days) that end now, at the point (lon lat), longitude
    first. *)
Theorem X20_default_window_is_thirty_days w q t authResponse authData token stoken slat slon start :
  Proxy.lat q = JStr slat -> nonempty slat = true ->
  Proxy.lon q = JStr slon -> nonempty slon = true ->
  Proxy.startDate q = JUndefined ->
  Proxy.endDate q = JUndefined ->
  Proxy.limit q = JUndefined ->
  Proxy.fetch w (Proxy.tokenRequest w) = Ok authResponse ->
  ok authResponse = true ->
  json authResponse = Ok authData ->
  Get authData (js "access_token") = Ok token ->
  ToString (Proxy.host w) token = Ok stoken ->
  timeClip (Proxy.now w - 30 * 24 * 60 * 60 * 1000) = Some start ->
  start = (Proxy.now w - 2592000000)%Z /\
  snd (Proxy.searchHandler w q t)
  = t ++ [ Proxy.tokenRequest w;
           catalogueRequest
             (Proxy.catalogue
                ++ js "?$filter=Collection/Name eq 'SENTINEL-2' and OData.CSC.Intersects(area=geography'SRID=4326;POINT("
                ++ slon ++ js " " ++ slat
                ++ js ")') and ContentDate/Start gt "
                ++ (split_head 46 (Date_toISOString (Proxy.host w) start) ++ js "Z")
                ++ js " and ContentDate/Start lt "
                ++ (split_head 46 (Date_toISOString (Proxy.host w) (Proxy.now w)) ++ js "Z")
                ++ js "&$orderby=ContentDate/Start desc&$top="
                ++ Number_toString (Proxy.host w) (num 5))
             stoken ].
Proof.
  intros Elat Nlat Elon Nlon Es Ee El F O J G S C.
  assert (X : start = (Proxy.now w - 2592000000)%Z).
  { unfold timeClip in C. destruct (Z.abs _ <=? _)%Z; inversion C; reflexivity. }
  split; [exact X | ].
  destruct (Proxy.searchHandler w q t) as [r t'] eqn:E. simpl.
  assert (Tlat : truthy (Proxy.lat q) = true)
    by (rewrite Elat; destruct slat; [discriminate Nlat | reflexivity]).
  assert (Tlon : truthy (Proxy.lon q) = true)
    by (rewrite Elon; destruct slon; [discriminate Nlon | reflexivity]).
  revert E. unfold Proxy.searchHandler. cbv zeta.
  rewrite Tlat, Tlon. cbn [negb orb].
  rewrite Elat, Elon, Es, Ee, El. cbn [truthy].
  unfold try_catch.
  match goal with
  | |- match ?b t with _ => _ end = _ -> _ => destruct (b t) as [rb tb] eqn:EB
  end.
  intros H. assert (T : t' = tb) by (destruct rb; inversion H; reflexivity).
  subst t'. clear H.
  unfold bind at 1 in EB. unfold Proxy.issue at 1, bind at 1, modify at 1, lift at 1 in EB.
  rewrite F, O in EB. cbn [negb] in EB.
  unfold bind at 1, lift at 1 in EB. rewrite J in EB.
  unfold bind at 1, lift at 1 in EB. rewrite G in EB.
  unfold bind at 1, ret at 1 in EB.
  unfold bind at 1, ret at 1 in EB. rewrite C in EB.
  unfold bind at 1, lift at 1 in EB. cbn [toISOString] in EB.
  unfold bind at 1, lift at 1 in EB.
  unfold bind at 1, lift at 1 in EB. cbn [ToString] in EB.
  unfold bind at 1, lift at 1 in EB.
  unfold bind at 1, lift at 1 in EB.
  unfold bind at 1, lift at 1 in EB. rewrite S in EB.
  apply bind_inv in EB as [(searchResponse & t2 & E2 & EB) | (e & E2 & _)];
    apply issue_inv in E2 as [T2 _].
  - match type of EB with
    | ?m _ = _ =>
        assert (Q : emits (fun _ : Proxy.Request => False) m) by (repeat handler_step)
    end.
    apply (quiet_state _ _ _ _ Q) in EB as ->. rewrite T2, <- app_assoc. reflexivity.
  - rewrite T2, <- app_assoc. reflexivity.
Qed.

(** ** The thumbnail route *)




(** X23.  The thumbnail link of a descriptor in a search reply is, for a
    product with a storage path, the very catalogue address the thumbnail
    route asks for that product's id, not an address of the proxy; it is
    null for a product without a storage path.  Building a descriptor asks
    nothing upstream. *)
Theorem X23_thumbnail_link_is_the_upstream_url w item t d t' id sid token :
  Proxy.descriptor w item t = (Ok d, t') ->
  Get item (js "Id") = Ok id ->
  ToString (Proxy.host w) id = Ok sid ->
  Get d (js "thumbnail")
  = Ok (match Get item (js "S3Path") with
        | Ok s3Path =>
            if truthy s3Path
            then JStr (Proxy.url (Thumbnail.thumbnailRequest sid token))
            else JNull
        | Throw _ => JNull
        end) /\
  Get d (js "id") = Ok id /\
  t' = t.
Proof.
  unfold Proxy.descriptor, bind, lift, ret. intros H G S. rewrite G in H.
  destruct (Get item (js "Name")); [ | discriminate H].
  destruct (Get item (js "ContentDate")) as [cd | ]; [ | discriminate H].
  destruct (Get cd (js "Start")); [ | discriminate H].
  destruct (Get item (js "CloudCover")); [ | discriminate H].
  destruct (Get item (js "S3Path")) as [s3 | ]; [ | discriminate H].
  destruct (truthy s3).
  - rewrite S in H. inversion H; subst. repeat split.
  - inversion H; subst. repeat split.
Qed.

(** ** The further properties at concrete inputs *)

Lemma X1_witness :
  fileToBase64 (Sample.world Sample.nominal) AnalyzeMediaForClues Sample.photo []
  = (Ok (JStr Sample.dataUrlPayload), [] ++ [ReadFile AnalyzeMediaForClues Sample.photo]).
Proof.
  destruct (X1_data_url_payload_is_extracted (Sample.world Sample.nominal)
              AnalyzeMediaForClues Sample.photo Sample.dataUrlHeader
              Sample.dataUrlPayload []) as [E _].
  - reflexivity.
  - vm_compute; reflexivity.
  - vm_compute; reflexivity.
  - exact E.
Defined.

Lemma X3_witness :
  parseFenced (Sample.world Sample.nominal)
    {| text := Some Sample.fencedTime; groundingChunks := None |}
  = parseFenced (Sample.world Sample.nominal)
      {| text := Some Sample.timeJson; groundingChunks := None |}.
Proof.
  destruct (X3_fenced_answer_reads_like_bare (Sample.world Sample.nominal)
              [] [10%N] Sample.timeJson [10%N] [] None) as [E _].
  - reflexivity.
  - reflexivity.
  - reflexivity.
  - reflexivity.
  - vm_compute; reflexivity.
  - exact E.
Defined.

Lemma X4_witness :
  error (ui (snd (Sample.run Sample.unreadable)))
  = Some (js "An unknown error occurred.").
Proof.
  unfold Sample.run, Sample.fresh.
  set (out := runVerification _ _ _ _ _).
  destruct (X4_unreadable_file_aborts_run Sample.unreadable AnalyzeMediaForClues
              Sample.photo Sample.photo (js "2024-10-23T15:30") (js "Gaza Strip")
              Sample.idle (fst out) (snd out)) as (_ & E & _).
  - reflexivity.
  - exact (surjective_pairing out).
  - pick.
  - exact E.
Defined.

Lemma X5_witness :
  error (ui (snd (Sample.run Sample.outage)))
  = Some (js "429 Resource has been exhausted").
Proof.
  unfold Sample.run, Sample.fresh.
  set (out := runVerification _ _ _ _ _).
  destruct (X5_failed_model_call_aborts_run Sample.outage DetermineTimestamp
              (Sample.requestOf DetermineTimestamp (trace (snd out))) Sample.exhausted
              Sample.photo (js "2024-10-23T15:30") (js "Gaza Strip")
              Sample.idle (fst out) (snd out)) as (_ & E & _).
  - reflexivity.
  - exact (surjective_pairing out).
  - pick.
  - exact E.
Defined.

Lemma X6_witness :
  Get Sample.synthesisedReport (js "groundingSources")
  = Ok (JArr (sourcesOf Sample.groundedAnswer)) /\
  Get Sample.synthesisedReport (js "satelliteData") = Ok JUndefined.
Proof.
  destruct (X6_report_provenance_is_overwritten (Sample.world Sample.nominal)
              Sample.photo (JStr Sample.cluesText) Sample.rimal Sample.afternoon
              (js "2024-10-23T15:30") (sourcesOf Sample.groundedAnswer) JNull []
              Sample.synthesisedReport (snd Sample.synthesised)) as (A & B & _).
  - vm_compute. reflexivity.
  - split; [exact A | exact B].
Defined.

Lemma X7_witness :
  Get (Sample.reportOf (Sample.run (Sample.world Sample.nominal))) (js "groundingSources")
  = Ok (JArr (sourcesOf Sample.groundedAnswer)).
Proof.
  unfold Sample.run, Sample.fresh.
  set (out := runVerification _ _ _ _ _).
  destruct (X7_report_sources_are_the_grounded_ones (Sample.world Sample.nominal)
              Sample.photo (js "2024-10-23T15:30") (js "Gaza Strip") Sample.idle
              (fst out) (snd out) (Sample.reportOf out)) as (req1 & resp1 & _ & G & S).
  - exact (surjective_pairing out).
  - vm_compute. reflexivity.
  - injection G as <-. exact S.
Defined.

Lemma X8_witness :
  getSatelliteImagery (Sample.world Sample.nominal)
    (JNum (Decimal 315 (-1))) (JNum (Decimal 3445 (-2))) (Some (js "yesterday")) []
  = (Ok (unavailable (Sample.world Sample.nominal)
           (JNum (Decimal 315 (-1))) (JNum (Decimal 3445 (-2))) (Some (js "yesterday"))),
     [] ++ [ImagerySearch (JNum (Decimal 315 (-1))) (JNum (Decimal 3445 (-2)))
              (Some (js "yesterday"))]).
Proof.
  destruct (X8_unreadable_date_is_never_sent (Sample.world Sample.nominal)
              (JNum (Decimal 315 (-1))) (JNum (Decimal 3445 (-2))) (js "yesterday") [])
    as [E _].
  - reflexivity.
  - vm_compute; reflexivity.
  - exact E.
Defined.

Lemma X10_witness :
  error (ui (snd (Sample.run (Sample.world Sample.nullBackend))))
  = Some (js "Cannot read properties of null (reading 'available')").
Proof.
  unfold Sample.run, Sample.fresh.
  set (out := runVerification _ _ _ _ _).
  destruct (X10_null_backend_answer_aborts_run (Sample.world Sample.nullBackend)
              (Sample.urlOf (trace (snd out))) Sample.nullReply
              Sample.photo (js "2024-10-23T15:30") (js "Gaza Strip")
              Sample.idle (fst out) (snd out)) as (_ & E & _).
  - reflexivity.
  - reflexivity.
  - reflexivity.
  - exact (surjective_pairing out).
  - pick.
  - exact E.
Defined.

Lemma X11_witness :
  Sample.run Sample.keyless
  = (Throw (Error (js "API_KEY environment variable not set")), cleared).
Proof.
  destruct (X11_missing_key_leaves_the_spinner Sample.keyless Sample.intl Sample.photo
              (js "2024-10-23T15:30") (js "Gaza Strip") Sample.idle Sample.form)
    as (E & _).
  - reflexivity.
  - exact E.
Defined.

Lemma X14_witness :
  exists claimedTimestamp,
    App.handleAnalyze Sample.form
    = App.runs Sample.photo claimedTimestamp (js "Gaza Strip") /\
    datePart claimedTimestamp = Some (js "2024-10-23").
Proof.
  destruct (X14_claimed_date_reaches_the_search (Sample.world Sample.nominal)
              Sample.form Sample.photo Sample.idle) as (ts & H & _ & D & _).
  - reflexivity.
  - vm_compute; reflexivity.
  - exists ts. split; [exact H | exact D].
Defined.

Lemma X15_witness :
  exists rep,
    report (ui (snd (Sample.run (Sample.world Sample.nominal)))) = Some rep /\
    Sample.viewAfter (Sample.run (Sample.world Sample.nominal))
    = option_map ReportView.Findings
        (ReportView.findings Sample.sampleHost Sample.intl rep).
Proof.
  unfold Sample.viewAfter, Sample.run, Sample.fresh.
  set (out := runVerification _ _ _ _ _).
  destruct (X15_view_after_a_run (Sample.world Sample.nominal) Sample.intl Sample.photo
              (js "2024-10-23T15:30") (js "Gaza Strip") Sample.idle (fst out) (snd out))
    as (_ & [(rep & R & V & _) | (msg & R & _)]).
  - reflexivity.
  - exact (surjective_pairing out).
  - exists rep. split; [exact R | exact V].
  - exfalso. vm_compute in R. discriminate R.
Defined.

(** A report the model left empty is set by the run and then brings the
    view down. *)
Lemma bare_report_is_not_shown :
  fst (Sample.run (Sample.world Sample.bare)) = Ok tt /\
  error (ui (snd (Sample.run (Sample.world Sample.bare)))) = None /\
  report (ui (snd (Sample.run (Sample.world Sample.bare)))) <> None /\
  Sample.viewAfter (Sample.run (Sample.world Sample.bare)) = None.
Proof.
  repeat split; try (vm_compute; reflexivity). vm_compute. discriminate.
Qed.

Lemma X16_witness :
  exists f,
    ReportView.findings Sample.sampleHost Sample.intl Sample.synthesisedReport = Some f /\
    ReportView.is_shown (ReportView.groundingSources f) = true /\
    ReportView.is_shown (ReportView.satelliteImagery f) = false.
Proof.
  destruct (ReportView.findings Sample.sampleHost Sample.intl Sample.synthesisedReport)
    as [f | ] eqn:F; [ | vm_compute in F; discriminate F].
  destruct (X16_provenance_sections_follow_the_pipeline (Sample.world Sample.nominal)
              Sample.intl
              Sample.photo (JStr Sample.cluesText) Sample.rimal Sample.afternoon
              (js "2024-10-23T15:30") (sourcesOf Sample.groundedAnswer) JNull []
              Sample.synthesisedReport (snd Sample.synthesised) f) as (A & _ & B).
  - vm_compute. reflexivity.
  - exact F.
  - exists f. split; [reflexivity | split; [exact A | exact B] ].
Defined.

Lemma X18_witness :
  exists imagery,
    Get (Proxy.body Sample.hit) (js "imagery") = Ok (JArr imagery) /\
    Forall2 (describes (Sample.proxy Sample.configured [Sample.product]))
            [Sample.product] imagery.
Proof.
  destruct (X18_search_lists_every_product
              (Sample.proxy Sample.configured [Sample.product]) Sample.gaza []
              Sample.hit
              (snd (Proxy.searchHandler
                      (Sample.proxy Sample.configured [Sample.product]) Sample.gaza [])))
    as (url & token & resp & data & imagery & T & F & _ & J & A & _ & D).
  - vm_compute. reflexivity.
  - reflexivity.
  - exists imagery. split; [exact A | ].
    assert (X : products data = [Sample.product]).
    { vm_compute in T. inversion T; subst url token.
      vm_compute in F. inversion F; subst resp.
      vm_compute in J. inversion J. reflexivity. }
    rewrite <- X. exact D.
Defined.

Lemma X19_witness :
  Proxy.searchHandler (Sample.proxy Sample.configured [Sample.product]) Sample.soon []
  = (Ok (Proxy.searchFailed (RangeError (js "Invalid time value"))),
     [] ++ [Proxy.tokenRequest (Sample.proxy Sample.configured [Sample.product])]).
Proof.
  apply (X19_unreadable_end_date_costs_a_token
           (Sample.proxy Sample.configured [Sample.product]) Sample.soon []
           Sample.tokenReply (JObj [(js "access_token", JStr (js "eyJhbGciOi"))])
           (JStr (js "eyJhbGciOi")) (js "soon")).
  - reflexivity.
  - reflexivity.
  - vm_compute; reflexivity.
  - reflexivity.
  - reflexivity.
  - reflexivity.
  - reflexivity.
  - reflexivity.
  - vm_compute; reflexivity.
  - left; reflexivity.
Defined.

Lemma X20_witness :
  exists url,
    snd (Proxy.searchHandler (Sample.proxy Sample.configured [Sample.product])
           Sample.placeOnly [])
    = [] ++ [ Proxy.tokenRequest (Sample.proxy Sample.configured [Sample.product]);
              catalogueRequest url (js "eyJhbGciOi") ] /\
    includes (js "ContentDate/Start gt 2024-09-23T08:00:00Z and ContentDate/Start lt 2024-10-23T08:00:00Z")
      url = true /\
    includes (js "$top=5") url = true.
Proof.
  destruct (X20_default_window_is_thirty_days
              (Sample.proxy Sample.configured [Sample.product]) Sample.placeOnly []
              Sample.tokenReply (JObj [(js "access_token", JStr (js "eyJhbGciOi"))])
              (JStr (js "eyJhbGciOi")) (js "eyJhbGciOi") (js "31.5") (js "34.45")
              1727078400000%Z) as (_ & E).
  - reflexivity.
  - reflexivity.
  - reflexivity.
  - reflexivity.
  - reflexivity.
  - reflexivity.
  - reflexivity.
  - vm_compute; reflexivity.
  - reflexivity.
  - reflexivity.
  - reflexivity.
  - reflexivity.
  - vm_compute; reflexivity.
  - eexists. split; [exact E | split; vm_compute; reflexivity].
Defined.

Lemma X21_witness :
  Get (Proxy.body (Proxy.searchFailed Sample.dnsFailure)) (js "details")
  = Ok (JStr Proxy.networkHint) /\
  Get (Proxy.body (Proxy.authFailed Sample.dnsFailure)) (js "details")
  = Ok (JStr (js "fetch failed")).
Proof.
  destruct (X21_network_hint_differs_between_routes Sample.offline Sample.gaza []
              Sample.dnsFailure) as (_ & A & _ & B).
  - reflexivity.
  - reflexivity.
  - reflexivity.
  - reflexivity.
  - reflexivity.
  - split; [exact A | exact B].
Defined.

Lemma X23_witness :
  Get Sample.described (js "thumbnail")
  = Ok (JStr (js "https://catalogue.dataspace.copernicus.eu/odata/v1/Products(12345-abcde)/Thumbnail/$value")).
Proof.
  destruct (X23_thumbnail_link_is_the_upstream_url
              (Sample.proxy Sample.configured [Sample.product]) Sample.product []
              Sample.described [] (JStr (js "12345-abcde")) (js "12345-abcde")
              (js "eyJhbGciOi")) as (E & _).
  - vm_compute. reflexivity.
  - reflexivity.
  - reflexivity.
  - exact E.
Defined.
